(** * Argus_V: the evaluator, the grid-search tuner, the flow preprocessor
    and the anomaly explainer, embedded in Rocq.

    Conventions of the embedding.
    - A Python [int] is a [Z]; a Python or numpy [float] is an exact rational
      [Q]: the arithmetic of the source is kept operation by operation, the
      rounding of binary64 is not modelled.
    - A Python exception is a value of [PyExc]; a function that can raise
      returns a [Result].
    - The scaler, the isolation forest and the cross-validation of
      scikit-learn, and Python's reading of text as a number, are parameters
      of the development: the classes [Sklearn], [Scalers] and [CrossVal].
    - A frame holds numeric columns and text columns; where int64 and
      float64 columns behave differently the dtypes are given beside the
      frame. *)

From Stdlib Require Import ZArith QArith Qabs Qround Lqa Lia.
From Stdlib Require Import Bool String Ascii DecimalString List Permutation Sorted.
Import ListNotations.

Local Open Scope Z_scope.

(** ** Python exceptions and results *)

Record PyExc : Type := mkExc { exc_class : string; exc_msg : string }.

Definition ValueError (msg : string) : PyExc := mkExc "ValueError" msg.
Definition TypeError (msg : string) : PyExc := mkExc "TypeError" msg.
Definition KeyError (msg : string) : PyExc := mkExc "KeyError" msg.
Definition AssertionError : PyExc := mkExc "AssertionError" "".
Definition ZeroDivisionError : PyExc := mkExc "ZeroDivisionError" "division by zero".

Inductive Result (A : Type) : Type :=
| Ok (a : A)
| Raise (e : PyExc).
Arguments Ok {A} a.
Arguments Raise {A} e.

Definition rbind {A B : Type} (r : Result A) (k : A -> Result B) : Result B :=
  match r with
  | Ok a => k a
  | Raise e => Raise e
  end.

Notation "x <- c1 ;; c2" := (rbind c1 (fun x => c2))
  (at level 61, c1 at next level, right associativity).
Notation "' pat <- c1 ;; c2" :=
  (rbind c1 (fun x => match x with pat => c2 end))
  (at level 61, pat pattern, c1 at next level, right associativity).

Definition is_ok {A : Type} (r : Result A) : bool :=
  match r with Ok _ => true | Raise _ => false end.

Definition rmap {A B : Type} (f : A -> B) (r : Result A) : Result B :=
  a <- r ;; Ok (f a).

(** A comprehension whose element expression can raise: the first
    exception, left to right, is the one that propagates. *)
Fixpoint rmapM {A B : Type} (f : A -> Result B) (l : list A) : Result (list B) :=
  match l with
  | [] => Ok []
  | x :: l' => y <- f x ;; ys <- rmapM f l' ;; Ok (y :: ys)
  end.

(** ** Rational helpers standing for float comparisons *)

Definition Qltb (x y : Q) : bool := negb (Qle_bool y x).

(** [int(x)] of a float: truncation toward zero. *)
Definition Qtrunc (x : Q) : Z := Z.quot (Qnum x) (Zpos (Qden x)).

(** ** pandas frames

    A frame is its row labels and its named columns, in order. A column is
    numeric (dtype int64 or float64) or holds text (dtype object). *)

Inductive Column : Type :=
| NumCol (v : list Q)
| StrCol (v : list string).

Record DataFrame : Type := mkFrame {
  index : list Z;
  columns : list (string * Column)
}.

(** The dtype of a numeric column. A frame does not record which of the two
    its numeric columns have; a function that behaves differently on them
    takes the dtypes of the frame's columns beside the frame. *)
Inductive Dtype : Type := int64 | float64.

(** The least value of int64. *)
Definition int64_min : Q := inject_Z (- 2 ^ 63).

(** [abs(x)] in one dtype: the negation of the least int64 wraps around to
    itself. *)
Definition abs_value (dtype : Dtype) (x : Q) : Q :=
  match dtype with
  | int64 => if Qeq_bool x int64_min then x else Qabs x
  | float64 => Qabs x
  end.

(** [len(df)] *)
Definition len (df : DataFrame) : nat := length (index df).

Definition column_names (df : DataFrame) : list string := map fst (columns df).

(** [name in df.columns] *)
Definition has_column (df : DataFrame) (name : string) : bool :=
  existsb (String.eqb name) (column_names df).

Fixpoint assoc {B : Type} (name : string) (l : list (string * B)) : option B :=
  match l with
  | [] => None
  | (k, v) :: l' => if String.eqb name k then Some v else assoc name l'
  end.

(** [df[name]] *)
Definition get_col (df : DataFrame) (name : string) : Result Column :=
  match assoc name (columns df) with
  | Some c => Ok c
  | None => Raise (KeyError name)
  end.

(** [str(l)] for a list of strings without quotes or escapes in them. *)
Definition repr_list (l : list string) : string :=
  ("[" ++ String.concat ", " (map (fun s => "'" ++ s ++ "'") l) ++ "]")%string.

(** The [KeyError] that pandas 2 raises for [df[names]] when names are no
    columns: one exception for all of them, each named once. *)
Definition not_in_index (names missing : list string) : PyExc :=
  if Nat.eqb (length missing) (length names)
  then KeyError ("None of [Index(" ++ repr_list names
                 ++ ", dtype='object')] are in the [columns]")
  else KeyError (repr_list (nodup string_dec missing) ++ " not in index").

(** [df[names]]: the named columns, in the order asked for. *)
Definition select (df : DataFrame) (names : list string) : Result DataFrame :=
  match filter (fun n => negb (has_column df n)) names with
  | [] =>
      cols <- rmapM (fun n => c <- get_col df n ;; Ok (n, c)) names ;;
      Ok (mkFrame (index df) cols)
  | missing => Raise (not_in_index names missing)
  end.

(** [df[name] = col]: an existing column is replaced in place, a new one is
    appended. *)
Fixpoint assoc_set {B : Type} (name : string) (v : B) (l : list (string * B))
  : list (string * B) :=
  match l with
  | [] => [(name, v)]
  | (k, w) :: l' =>
      if String.eqb name k then (k, v) :: l' else (k, w) :: assoc_set name v l'
  end.

Definition set_col (df : DataFrame) (name : string) (c : Column) : DataFrame :=
  mkFrame (index df) (assoc_set name c (columns df)).

(** [a[mask]] for a boolean mask of the same length. *)
Fixpoint mask_filter {A : Type} (mask : list bool) (a : list A) : list A :=
  match mask, a with
  | m :: mask', x :: a' =>
      if m then x :: mask_filter mask' a' else mask_filter mask' a'
  | _, _ => []
  end.

Definition column_filter (mask : list bool) (c : Column) : Column :=
  match c with
  | NumCol v => NumCol (mask_filter mask v)
  | StrCol v => StrCol (mask_filter mask v)
  end.

(** [df[mask]]: the rows where the mask holds, labels kept. *)
Definition row_filter (mask : list bool) (df : DataFrame) : DataFrame :=
  mkFrame (mask_filter mask (index df))
          (map (fun kc => (fst kc, column_filter mask (snd kc))) (columns df)).

(** Every column has one value per row label, as pandas keeps it. *)
Definition column_length (c : Column) : nat :=
  match c with NumCol v => length v | StrCol v => length v end.

Definition well_formed (df : DataFrame) : Prop :=
  Forall (fun kc => column_length (snd kc) = len df) (columns df).

(** The named column exists and is numeric. *)
Definition numeric_column (df : DataFrame) (name : string) : Prop :=
  exists v, assoc name (columns df) = Some (NumCol v).

(** [df.drop(columns=[name])] for a name that is a column. *)
Definition drop_col (df : DataFrame) (name : string) : DataFrame :=
  mkFrame (index df)
    (filter (fun kc => negb (String.eqb name (fst kc))) (columns df)).

(** [series.to_numpy(dtype=float)]: the cells of a text column are read one
    by one with Python's [float], here [float_of_str], which is [None] where
    [float] raises; the first cell that cannot be read raises. *)
Definition to_numpy_float (float_of_str : string -> option Q) (c : Column)
  : Result (list Q) :=
  match c with
  | NumCol v => Ok v
  | StrCol v =>
      rmapM (fun s =>
               match float_of_str s with
               | Some q => Ok q
               | None =>
                   Raise (ValueError
                            ("could not convert string to float: '" ++ s ++ "'"))
               end) v
  end.

(** [series.to_numpy(dtype=int)]: floats are truncated toward zero, the
    cells of a text column are read with Python's [int], here [int_of_str]. *)
Definition to_numpy_int (int_of_str : string -> option Z) (c : Column)
  : Result (list Z) :=
  match c with
  | NumCol v => Ok (map Qtrunc v)
  | StrCol v =>
      rmapM (fun s =>
               match int_of_str s with
               | Some z => Ok z
               | None =>
                   Raise (ValueError
                            ("invalid literal for int() with base 10: '"
                             ++ s ++ "'"))
               end) v
  end.

(** The rows of a frame whose columns are the given arrays. *)
Definition rows_of (n : nat) (cols : list (list Q)) : list (list Q) :=
  map (fun i => map (fun col => nth i col 0%Q) cols) (seq 0 n).

(** ** numpy arrays of labels and of booleans *)

(** [a == v] for an integer array and a scalar. *)
Definition np_eq (a : list Z) (v : Z) : list bool := map (fun x => x =? v) a.

(** [a & b] on boolean arrays of one dimension: equal shapes combine
    element by element, a one-element array is broadcast, any other pair of
    shapes raises. *)
Fixpoint zip_and (a b : list bool) : list bool :=
  match a, b with
  | x :: a', y :: b' => (x && y) :: zip_and a' b'
  | _, _ => []
  end.

Definition np_and (a b : list bool) : Result (list bool) :=
  if Nat.eqb (length a) (length b) then Ok (zip_and a b)
  else if Nat.eqb (length a) 1 then Ok (map (andb (hd false a)) b)
  else if Nat.eqb (length b) 1 then Ok (map (fun x => x && hd false b) a)
  else Raise (ValueError "operands could not be broadcast together").

(** [a.sum()] of a boolean array, then [int(...)]. *)
Fixpoint np_sum (a : list bool) : Z :=
  match a with
  | [] => 0
  | b :: a' => (if b then 1 else 0) + np_sum a'
  end.

(** [a[idx]]: numpy indexing of an array by an array of positions, all
    taken to be in range. *)
Definition np_take (idx : list nat) (a : list Z) : list Z :=
  map (fun i => nth i a 0) idx.

(** * scripts/train_nsl_kdd.py *)

Module train_nsl_kdd.

Record Metrics : Type := mkMetrics {
  tp : Z;
  fp : Z;
  tn : Z;
  fn : Z;
  precision : Q;
  recall : Q;
  f1 : Q;
  true_positive_rate : Q;
  false_positive_rate : Q
}.

(** [int(((y_true == t) & (y_pred == p)).sum())] *)
Definition confusion_count (y_true y_pred : list Z) (t p : Z) : Result Z :=
  rbind (np_and (np_eq y_true t) (np_eq y_pred p)) (fun m => Ok (np_sum m)).

(** [num / den if den else 0.0] on integer counts. *)
Definition ratio (num den : Z) : Q :=
  if den =? 0 then 0%Q else (inject_Z num / inject_Z den)%Q.

(** [(2 * precision * recall / (precision + recall)) if (precision + recall)
    else 0.0] *)
Definition f1_score (precision recall : Q) : Q :=
  if Qeq_bool (precision + recall) 0 then 0%Q
  else (2 * precision * recall / (precision + recall))%Q.

(** The arguments are integer arrays, which [astype(int)] leaves as they
    are. A pair of shapes that numpy cannot combine raises. *)
Definition compute_metrics (y_true_attack y_pred_attack : list Z) : Result Metrics :=
  tp <- confusion_count y_true_attack y_pred_attack 1 1 ;;
  tn <- confusion_count y_true_attack y_pred_attack 0 0 ;;
  fp <- confusion_count y_true_attack y_pred_attack 0 1 ;;
  fn <- confusion_count y_true_attack y_pred_attack 1 0 ;;
  let precision := ratio tp (tp + fp) in
  let recall := ratio tp (tp + fn) in
  let f1 := f1_score precision recall in
  let tpr := recall in
  let fpr := ratio fp (fp + tn) in
  Ok (mkMetrics tp fp tn fn precision recall f1 tpr fpr).

(** A label array holds only 0 (normal) and 1 (attack). *)
Definition binary (y : list Z) : Prop := Forall (fun x => x = 0 \/ x = 1) y.

(** The confusion counts as one pass over the paired labels; used to reason
    about [compute_metrics] on arrays of equal length. *)
Fixpoint count_pairs (t p : Z) (l : list (Z * Z)) : Z :=
  match l with
  | [] => 0
  | (a, b) :: l' => (if (a =? t) && (b =? p) then 1 else 0) + count_pairs t p l'
  end.

Definition metrics_of_counts (tp tn fp fn : Z) : Metrics :=
  mkMetrics tp fp tn fn
    (ratio tp (tp + fp)) (ratio tp (tp + fn))
    (f1_score (ratio tp (tp + fp)) (ratio tp (tp + fn)))
    (ratio tp (tp + fn)) (ratio fp (fp + tn)).

(** *** The scikit-learn, numpy and Python capabilities used by the tuner

    [StandardScaler], [IsolationForest], [np.log1p] and the reading of a
    text cell as a number are not part of the repository: the tuner is
    embedded over any implementation of them. Each call may raise. *)

Definition Matrix : Type := list (list Q).

Class Sklearn : Type := {
  log1p : Q -> Q;
  (** [float(s)] and [int(s)] for a text cell, [None] where they raise *)
  float_of_str : string -> option Q;
  int_of_str : string -> option Z;
  Scaler : Type;
  Forest : Type;
  (** [scaler = StandardScaler(); X = scaler.fit_transform(X_raw)] *)
  fit_transform : Matrix -> Result (Scaler * Matrix);
  (** [scaler.transform(X)] *)
  transform : Scaler -> Matrix -> Result Matrix;
  (** [IsolationForest(n_estimators, contamination, random_state, n_jobs=1).fit(X)] *)
  forest_fit : Z -> Q -> Z -> Matrix -> Result Forest;
  (** [model.predict(X)]: one of 1 (inlier) and -1 (outlier) per row *)
  predict : Forest -> Matrix -> Result (list Z)
}.

Definition RETINA_FEATURE_COLUMNS : list string :=
  ["packet_count"; "byte_count"; "duration_seconds"; "rate_bps"]%string.

(** The grids of [main]. *)
Definition contamination_grid : list Q :=
  [1 # 1000; 2 # 1000; 5 # 1000; 1 # 100; 2 # 100]%Q.
Definition n_estimators_grid : list Z := [100; 200; 400].

(** The candidates of a grid search in the order of the two nested loops. *)
Definition grid_candidates (cg : list Q) (ng : list Z) : list (Q * Z) :=
  flat_map (fun c => map (fun n => (c, n)) ng) cg.

(** The loops of the tuner over a ghost trace: the hyperparameter pairs whose
    loop body was entered, oldest first. *)
Definition Traced (A : Type) : Type := list (Q * Z) -> list (Q * Z) * Result A.

Definition tret {A : Type} (a : A) : Traced A := fun t => (t, Ok a).
Definition tlift {A : Type} (r : Result A) : Traced A := fun t => (t, r).
Definition tell (c : Q * Z) : Traced unit := fun t => (t ++ [c], Ok tt).
Definition tbind {A B : Type} (m : Traced A) (k : A -> Traced B) : Traced B :=
  fun t =>
    match m t with
    | (t', Ok a) => k a t'
    | (t', Raise e) => (t', Raise e)
    end.

Notation "x <~ c1 ;; c2" := (tbind c1 (fun x => c2))
  (at level 61, c1 at next level, right associativity).

(** [for x in xs: s = body x s] *)
Fixpoint for_each {A S : Type} (xs : list A) (body : A -> S -> Traced S) (s : S)
  : Traced S :=
  match xs with
  | [] => tret s
  | x :: xs' => s' <~ body x s ;; for_each xs' body s'
  end.

(** Python's [a > b] on pairs of floats: decided at the first component that
    differs. *)
Definition key_gt (a b : Q * Q) : bool :=
  if negb (Qeq_bool (fst a) (fst b)) then Qltb (fst b) (fst a)
  else if negb (Qeq_bool (snd a) (snd b)) then Qltb (snd b) (snd a)
  else false.

(** The selection key of a candidate's metrics. *)
Definition key_of (m : Metrics) : Q * Q := (precision m, f1 m).

(** Lexicographic order on keys, up to the equality of rationals. *)
Definition key_lt (a b : Q * Q) : Prop :=
  (fst a < fst b)%Q \/ (fst a == fst b /\ snd a < snd b)%Q.
Definition key_le (a b : Q * Q) : Prop :=
  key_lt a b \/ (fst a == fst b /\ snd a == snd b)%Q.

(** Lexicographic order on hyperparameter pairs. *)
Definition cand_lt (a b : Q * Z) : Prop :=
  (fst a < fst b)%Q \/ (fst a == fst b)%Q /\ snd a < snd b.

Section Tuner.
Context {SK : Sklearn}.

Definition make_X (df : DataFrame) : Result Matrix :=
  sub <- select df RETINA_FEATURE_COLUMNS ;;
  X <- rmapM (fun kc => to_numpy_float float_of_str (snd kc)) (columns sub) ;;
  Ok (map (map log1p) (rows_of (len df) X)).

Definition is_attack (df : DataFrame) : Result (list Z) :=
  c <- get_col df "is_attack" ;; to_numpy_int int_of_str c.

(** The local variables [best_key], [best_model], [best_scaler],
    [best_params], [best_metrics]. *)
Record Best : Type := mkBest {
  best_key : Q * Q;
  best_model : option Forest;
  best_scaler : option Scaler;
  best_params : option (Q * Z);
  best_metrics : option Metrics
}.

Definition best_init : Best := mkBest (-(1), -(1))%Q None None None None.

(** The body of the inner loop up to [model.predict]. *)
Definition predict_candidate (X_train_raw : Matrix) (validation : DataFrame)
    (random_state : Z) (contamination : Q) (n_estimators : Z)
  : Result (Forest * Scaler * list Z) :=
  '(scaler, X_train) <- fit_transform X_train_raw ;;
  model <- forest_fit n_estimators contamination random_state X_train ;;
  X_val_raw <- make_X validation ;;
  X_val <- transform scaler X_val_raw ;;
  pred <- predict model X_val ;;
  Ok (model, scaler, pred).

(** [(pred == -1).astype(int)] *)
Definition outlier_to_attack (pred : list Z) : list Z :=
  map (fun p => if p =? -1 then 1 else 0) pred.

(** The body of the inner loop up to [compute_metrics]. *)
Definition evaluate_candidate (X_train_raw : Matrix) (validation : DataFrame)
    (random_state : Z) (contamination : Q) (n_estimators : Z)
  : Result (Forest * Scaler * Metrics) :=
  '(model, scaler, pred) <-
     predict_candidate X_train_raw validation random_state contamination
       n_estimators ;;
  let y_pred_attack := outlier_to_attack pred in
  y_true_attack <- is_attack validation ;;
  metrics <- compute_metrics y_true_attack y_pred_attack ;;
  Ok (model, scaler, metrics).

(** [if key > best_key: ...] *)
Definition keep_best (contamination : Q) (n_estimators : Z)
    (r : Forest * Scaler * Metrics) (best : Best) : Best :=
  let '(model, scaler, metrics) := r in
  let key := (precision metrics, f1 metrics) in
  if key_gt key (best_key best)
  then mkBest key (Some model) (Some scaler)
         (Some (contamination, n_estimators)) (Some metrics)
  else best.

Definition tune_body (X_train_raw : Matrix) (validation : DataFrame)
    (random_state : Z) (contamination : Q) (n_estimators : Z) (best : Best)
  : Traced Best :=
  _ <~ tell (contamination, n_estimators) ;;
  r <~ tlift (evaluate_candidate X_train_raw validation random_state
                contamination n_estimators) ;;
  tret (keep_best contamination n_estimators r best).

Definition tune_loop (X_train_raw : Matrix) (validation : DataFrame)
    (contamination_grid : list Q) (n_estimators_grid : list Z)
    (random_state : Z) : Traced Best :=
  for_each contamination_grid
    (fun contamination best =>
       for_each n_estimators_grid
         (fun n_estimators best =>
            tune_body X_train_raw validation random_state contamination
              n_estimators best)
         best)
    best_init.

(** The four trailing [assert ... is not None]. *)
Definition assert_best (best : Best)
  : Result (Forest * Scaler * (Q * Z) * Metrics) :=
  match best_model best with
  | None => Raise AssertionError
  | Some model =>
    match best_scaler best with
    | None => Raise AssertionError
    | Some scaler =>
      match best_params best with
      | None => Raise AssertionError
      | Some params =>
        match best_metrics best with
        | None => Raise AssertionError
        | Some metrics => Ok (model, scaler, params, metrics)
        end
      end
    end
  end.

Definition tune_iforest (normal_train validation : DataFrame)
    (contamination_grid : list Q) (n_estimators_grid : list Z)
    (random_state : Z)
  : Traced (Forest * Scaler * (Q * Z) * Metrics) :=
  X_train_raw <~ tlift (make_X normal_train) ;;
  best <~ tune_loop X_train_raw validation contamination_grid
            n_estimators_grid random_state ;;
  tlift (assert_best best).

(** One iteration of the loops as a function of the candidate pair, and its
    effect on the best candidate when nothing raises. *)
Definition flat_body (X_train_raw : Matrix) (validation : DataFrame)
    (random_state : Z) (cn : Q * Z) (best : Best) : Traced Best :=
  tune_body X_train_raw validation random_state (fst cn) (snd cn) best.

Definition select_step (X_train_raw : Matrix) (validation : DataFrame)
    (random_state : Z) (best : Best) (cn : Q * Z) : Best :=
  match evaluate_candidate X_train_raw validation random_state (fst cn) (snd cn) with
  | Ok r => keep_best (fst cn) (snd cn) r best
  | Raise _ => best
  end.

(** After the candidates [processed], the best candidate is the one at some
    position [i]: no processed candidate has a greater key, and every
    earlier one has a smaller key. *)
Definition recorded (X_train_raw : Matrix) (validation : DataFrame)
    (random_state : Z) (processed : list (Q * Z)) (best : Best) : Prop :=
  exists i c n model scaler metrics,
    nth_error processed i = Some (c, n) /\
    evaluate_candidate X_train_raw validation random_state c n
      = Ok (model, scaler, metrics) /\
    best = mkBest (key_of metrics) (Some model) (Some scaler) (Some (c, n))
             (Some metrics) /\
    forall j c' n' model' scaler' metrics',
      nth_error processed j = Some (c', n') ->
      evaluate_candidate X_train_raw validation random_state c' n'
        = Ok (model', scaler', metrics') ->
      key_le (key_of metrics') (key_of metrics) /\
      ((j < i)%nat -> key_lt (key_of metrics') (key_of metrics)).

(** Every library call of one loop body succeeds, and the forest labels
    each validation row. *)
Definition library_accepts (X_train_raw : Matrix) (validation : DataFrame)
    (random_state : Z) (contamination : Q) (n_estimators : Z) : Prop :=
  exists r y_true,
    predict_candidate X_train_raw validation random_state contamination
      n_estimators = Ok r /\
    is_attack validation = Ok y_true /\
    length (snd r) = length y_true.

End Tuner.

(** Two runs, possibly over two implementations of the library, agree on
    what was selected so far. *)
Definition same_selection {SK1 SK2 : Sklearn}
    (b1 : @Best SK1) (b2 : @Best SK2) : Prop :=
  best_key b1 = best_key b2 /\
  best_params b1 = best_params b2 /\
  best_metrics b1 = best_metrics b2 /\
  (best_model b1 = None <-> best_model b2 = None) /\
  (best_scaler b1 = None <-> best_scaler b2 = None).

Definition same_run {SK1 SK2 : Sklearn}
    (r1 : list (Q * Z) * Result (@Best SK1))
    (r2 : list (Q * Z) * Result (@Best SK2)) : Prop :=
  fst r1 = fst r2 /\
  match snd r1, snd r2 with
  | Ok b1, Ok b2 => same_selection b1 b2
  | Raise e1, Raise e2 => e1 = e2
  | _, _ => False
  end.

(** What the caller of [tune_iforest] observes of a run when the fitted
    objects are left aside: the trace, and the hyperparameters and metrics
    returned or the exception raised. *)
Definition observable {SK : Sklearn}
    (run : list (Q * Z) * Result (Forest * Scaler * (Q * Z) * Metrics))
  : list (Q * Z) * Result ((Q * Z) * Metrics) :=
  (fst run, rmap (fun r => (snd (fst r), snd r)) (snd run)).

(** Two results agree: both raise the same exception, or both return, and
    the values are related. *)
Definition result_rel {A B : Type} (R : A -> B -> Prop)
    (r1 : Result A) (r2 : Result B) : Prop :=
  match r1, r2 with
  | Ok a, Ok b => R a b
  | Raise e1, Raise e2 => e1 = e2
  | _, _ => False
  end.

(** What the libraries promise of two runs of one program, call by call:
    numpy and Python compute the same numbers; a [StandardScaler] fitted on
    the same matrix transforms alike; an [IsolationForest] built with the
    integer [random_state = seed] and [n_jobs=1] and fitted on the same
    matrix predicts alike. Nothing is promised of a forest built with
    another random state. The fitted objects of the two runs are different
    objects, related by [same_scaler] and [same_forest]. *)
Record seeded_alike (SK1 SK2 : Sklearn) (seed : Z)
    (same_scaler : @Scaler SK1 -> @Scaler SK2 -> Prop)
    (same_forest : @Forest SK1 -> @Forest SK2 -> Prop) : Prop := {
  alike_log1p : forall x, @log1p SK1 x = @log1p SK2 x;
  alike_float : forall s, @float_of_str SK1 s = @float_of_str SK2 s;
  alike_int : forall s, @int_of_str SK1 s = @int_of_str SK2 s;
  alike_fit_transform : forall X,
    result_rel (fun a b => same_scaler (fst a) (fst b) /\ snd a = snd b)
      (@fit_transform SK1 X) (@fit_transform SK2 X);
  alike_transform : forall s1 s2 X,
    same_scaler s1 s2 -> @transform SK1 s1 X = @transform SK2 s2 X;
  alike_forest_fit : forall n_estimators contamination X,
    result_rel same_forest
      (@forest_fit SK1 n_estimators contamination seed X)
      (@forest_fit SK2 n_estimators contamination seed X);
  alike_predict : forall f1 f2 X,
    same_forest f1 f2 -> @predict SK1 f1 X = @predict SK2 f2 X
}.

(** *** to_retina_features and the split of [main] *)

(** [str.lower()] on the letters A to Z; no other character lowers to a
    letter of "normal". *)
Definition ascii_lower (c : ascii) : ascii :=
  let n := nat_of_ascii c in
  if (65 <=? n)%nat && (n <=? 90)%nat then ascii_of_nat (n + 32) else c.

Fixpoint lower (s : string) : string :=
  match s with
  | EmptyString => EmptyString
  | String c s' => String (ascii_lower c) (lower s')
  end.

(** [a + b] and [a / b] on two series of one frame. *)
Definition series_add (a b : list Q) : list Q :=
  map (fun p => (fst p + snd p)%Q) (combine a b).

Definition series_div (a b : list Q) : list Q :=
  map (fun p => (fst p / snd p)%Q) (combine a b).

(** [series.clip(lower=lo)] *)
Definition clip_lower (lo : Q) (v : list Q) : list Q :=
  map (fun d => if Qltb d lo then lo else d) v.

(** [(df["label"].astype(str).str.lower() != "normal").astype(int)]; the
    text of a number is never "normal". *)
Definition label_is_attack (c : Column) : list Z :=
  match c with
  | StrCol v => map (fun s => if String.eqb (lower s) "normal" then 0 else 1) v
  | NumCol v => map (fun _ => 1) v
  end.

Section Retina.
(** How pandas reads a text cell as a number, [None] when it cannot. *)
Variable parse_number : string -> option Q.

(** [pd.to_numeric(series, errors="coerce").fillna(0)] *)
Definition numeric_or_zero (c : Column) : list Q :=
  match c with
  | NumCol v => v
  | StrCol v =>
      map (fun s => match parse_number s with Some q => q | None => 0%Q end) v
  end.

Definition to_retina_features (df : DataFrame) : Result DataFrame :=
  count <- get_col df "count" ;;
  let packet_count := numeric_or_zero count in
  src <- get_col df "src_bytes" ;;
  let src_bytes := numeric_or_zero src in
  dst <- get_col df "dst_bytes" ;;
  let dst_bytes := numeric_or_zero dst in
  duration <- get_col df "duration" ;;
  let duration_seconds := numeric_or_zero duration in
  let byte_count := series_add src_bytes dst_bytes in
  let safe_duration := clip_lower (1 # 1000) duration_seconds in
  let rate_bps := series_div byte_count safe_duration in
  label <- get_col df "label" ;;
  let y_attack := label_is_attack label in
  Ok (mkFrame (index df)
        [("packet_count", NumCol packet_count);
         ("byte_count", NumCol byte_count);
         ("duration_seconds", NumCol duration_seconds);
         ("rate_bps", NumCol rate_bps);
         ("is_attack", NumCol (map inject_Z y_attack))]%string).

End Retina.

(** [df[df["is_attack"] == v].reset_index(drop=True)], the expression by
    which [main] takes the normal rows ([v = 0]) and the attack rows
    ([v = 1]); no text equals a number. *)
Definition rows_with_label (df : DataFrame) (v : Q) : Result DataFrame :=
  c <- get_col df "is_attack" ;;
  let mask :=
    match c with
    | NumCol labels => map (fun x => Qeq_bool x v) labels
    | StrCol labels => map (fun _ => false) labels
    end in
  let sub := row_filter mask df in
  Ok (mkFrame (map Z.of_nat (seq 0 (len sub))) (columns sub)).

End train_nsl_kdd.

(** * src/argus_v/mnemosyne/preprocessing.py *)

Module preprocessing.

(** ** prepare_features *)

Definition feature_columns : list string :=
  ["bytes_in"; "bytes_out"; "packets_in"; "packets_out"; "duration";
   "src_port"; "dst_port"; "protocol"]%string.

Definition protocol_map : list (string * Q) :=
  [("TCP", 1); ("UDP", 2); ("ICMP", 3); ("IGMP", 4); ("OTHER", 5)]%string%Q.

(** [series.map(d)] for a dictionary keyed by strings: a value that is no key
    becomes NaN, here [None]. *)
Definition series_map (d : list (string * Q)) (c : Column) : list (option Q) :=
  match c with
  | StrCol v => map (fun s => assoc s d) v
  | NumCol v => map (fun _ => None) v
  end.

(** [series.fillna(d)] *)
Definition fillna (d : Q) (v : list (option Q)) : Column :=
  NumCol (map (fun o => match o with Some q => q | None => d end) v).

(** [series.abs()] on a column of the given dtype when it is numeric *)
Definition series_abs (dtype : Dtype) (c : Column) : Result Column :=
  match c with
  | NumCol v => Ok (NumCol (map (abs_value dtype) v))
  | StrCol [] => Ok (StrCol [])
  | StrCol (_ :: _) => Raise (TypeError "bad operand type for abs(): 'str'")
  end.

(** The message of the [ValueError] raised for missing columns. *)
Definition missing_message (missing : list string) : string :=
  ("Missing required features: " ++ repr_list missing)%string.

(** [prepare_features] returns the feature frame; the second component is
    the value it stores in [self._feature_columns]. [dtypes] gives the dtype
    of the frame's numeric columns. *)
Definition prepare_features (dtypes : string -> Dtype) (df : DataFrame)
  : Result (DataFrame * list string) :=
  let missing_features :=
    filter (fun col => negb (has_column df col)) feature_columns in
  match missing_features with
  | _ :: _ => Raise (ValueError (missing_message missing_features))
  | [] =>
      features_df <- select df feature_columns ;;
      features_df <-
        (if has_column features_df "protocol"
         then
           p <- get_col features_df "protocol" ;;
           Ok (set_col features_df "protocol"
                 (fillna 5 (series_map protocol_map p)))
         else Ok features_df) ;;
      sp <- get_col features_df "src_port" ;;
      sp' <- series_abs (dtypes "src_port"%string) sp ;;
      let features_df := set_col features_df "src_port" sp' in
      dp <- get_col features_df "dst_port" ;;
      dp' <- series_abs (dtypes "dst_port"%string) dp ;;
      let features_df := set_col features_df "dst_port" dp' in
      Ok (features_df, column_names features_df)
  end.

(** The code of one protocol name after [map] and [fillna]. *)
Definition protocol_code (s : string) : Q :=
  match assoc s protocol_map with
  | Some q => q
  | None => 5%Q
  end.

(** The protocol column after [map] and [fillna]: no number is a key of the
    dictionary, so a numeric protocol column becomes all 5. *)
Definition encode_protocol (c : Column) : Column :=
  match c with
  | StrCol v => NumCol (map protocol_code v)
  | NumCol v => NumCol (map (fun _ => 5%Q) v)
  end.

(** The spec's SchemaError: the [ValueError] that [prepare_features] raises
    when required columns are missing. *)
Definition SchemaError (missing : list string) : PyExc :=
  ValueError (missing_message missing).

(** ** detect_feature_outliers *)

Fixpoint insert_sorted (x : Q) (l : list Q) : list Q :=
  match l with
  | [] => [x]
  | y :: l' => if Qle_bool x y then x :: l else y :: insert_sorted x l'
  end.

Definition sort_values (l : list Q) : list Q := fold_right insert_sorted [] l.

(** [series.quantile(q)] with the default linear interpolation; [None] is
    the NaN of an empty series. *)
Definition quantile (v : list Q) (q : Q) : option Q :=
  match sort_values v with
  | [] => None
  | s =>
      let last := Z.of_nat (length s) - 1 in
      let pos := (q * inject_Z last)%Q in
      let lo := Qfloor pos in
      let hi := Z.min (lo + 1) last in
      let a := nth (Z.to_nat lo) s 0%Q in
      let b := nth (Z.to_nat hi) s 0%Q in
      Some (a + (b - a) * (pos - inject_Z lo))%Q
  end.

(** [Q1 - threshold * IQR] and [Q3 + threshold * IQR] *)
Definition bounds (threshold : Q) (v : list Q) : option (Q * Q) :=
  match quantile v (1 # 4), quantile v (3 # 4) with
  | Some Q1, Some Q3 =>
      let IQR := (Q3 - Q1)%Q in
      Some (Q1 - threshold * IQR, Q3 + threshold * IQR)%Q
  | _, _ => None
  end.

(** [(col < lower_bound) | (col > upper_bound)]; every comparison with NaN
    bounds is false. *)
Definition outlier_mask (threshold : Q) (v : list Q) : list bool :=
  match bounds threshold v with
  | Some (lower_bound, upper_bound) =>
      map (fun x => Qltb x lower_bound || Qltb upper_bound x) v
  | None => map (fun _ => false) v
  end.

(** A numpy float that may be no number. *)
Inductive npfloat : Type :=
| Finite (q : Q)
| NaN
| Inf.

(** [count / n * 100] for a numpy integer [count] and a Python [int] [n]:
    numpy warns and yields NaN or infinity where Python would raise. *)
Definition np_percentage (count : Z) (n : nat) : npfloat :=
  match n with
  | O => if count =? 0 then NaN else Inf
  | _ => Finite (inject_Z count / inject_Z (Z.of_nat n) * 100)%Q
  end.

Record FeatureOutliers : Type := mkFeatureOutliers {
  count : Z;
  percentage : npfloat
}.

Record OutlierStats : Type := mkOutlierStats {
  total_outliers : Z;
  outliers_by_feature : list (string * FeatureOutliers);
  removal_percentage : Q
}.

(** One iteration of [for column in cleaned_df.columns]. *)
Definition outlier_step (threshold : Q)
    (st : DataFrame * list (string * FeatureOutliers)) (column : string)
  : DataFrame * list (string * FeatureOutliers) :=
  let '(cleaned_df, by_feature) := st in
  match assoc column (columns cleaned_df) with
  | Some (NumCol v) =>
      let outliers := outlier_mask threshold v in
      let outlier_count := np_sum outliers in
      let by_feature' :=
        assoc_set column
          (mkFeatureOutliers outlier_count
             (np_percentage outlier_count (len cleaned_df)))
          by_feature in
      if Qle_bool 3 threshold
      then (row_filter (map negb outliers) cleaned_df, by_feature')
      else (cleaned_df, by_feature')
  | _ => st
  end.

Definition detect_feature_outliers (df : DataFrame) (threshold : Q)
  : Result (DataFrame * OutlierStats) :=
  let initial_rows := len df in
  let '(cleaned_df, by_feature) :=
    fold_left (outlier_step threshold) (column_names df) (df, []) in
  let final_rows := len cleaned_df in
  let removed := Z.of_nat initial_rows - Z.of_nat final_rows in
  if Nat.eqb initial_rows 0 then Raise ZeroDivisionError
  else
    Ok (cleaned_df,
        mkOutlierStats removed by_feature
          (inject_Z removed / inject_Z (Z.of_nat initial_rows) * 100)%Q).

(** ** tune_contamination_parameter *)

(** The configuration object is declared outside the sources at hand; these
    are the fields the function reads. *)
Record Config : Type := mkConfig {
  contamination_range : Q * Q;
  random_state : Z;
  cross_validation_folds : Z
}.

(** The body of the [try]: build an [IsolationForest] with the given
    contamination, random state and number of estimators, run
    [cross_val_score] on the frame with [cv] folds and the named scoring, and
    take the mean. It belongs to scikit-learn and may raise. *)
Class CrossVal : Type := {
  cross_val_mean_score : Q -> Z -> Z -> DataFrame -> Z -> string -> Result Q
}.

(** [np.linspace(start, stop, num)] *)
Definition np_linspace (start stop : Q) (num : nat) : list Q :=
  match num with
  | O => []
  | S O => [start]
  | S n =>
      let step := ((stop - start) / inject_Z (Z.of_nat n))%Q in
      map (fun i => (inject_Z (Z.of_nat i) * step + start)%Q) (seq 0 n) ++ [stop]
  end.

(** [d[k] = v] on a dictionary keyed by floats. *)
Fixpoint dict_set (k v : Q) (d : list (Q * Q)) : list (Q * Q) :=
  match d with
  | [] => [(k, v)]
  | (k', v') :: d' =>
      if Qeq_bool k k' then (k', v) :: d' else (k', v') :: dict_set k v d'
  end.

Record TuningStats : Type := mkTuningStats {
  stats_contamination_range : Q * Q;
  scores : list (Q * Q);
  best_contamination : Q;
  best_score : Q
}.

Section Tuning.
Context {CV : CrossVal}.

Definition score_candidate (cfg : Config) (df : DataFrame) (contamination : Q)
  : Result Q :=
  cross_val_mean_score contamination (random_state cfg) 50 df
    (Z.min 3 (cross_validation_folds cfg)) "neg_mean_score".

(** One iteration of [for contamination in contamination_values]; the state
    is [(best_contamination, best_score, tuning_stats['scores'])]. *)
Definition tune_step (cfg : Config) (df : DataFrame) (st : Q * Q * list (Q * Q))
    (contamination : Q) : Q * Q * list (Q * Q) :=
  let '(best_c, best_s, sc) := st in
  match score_candidate cfg df contamination with
  | Ok mean_score =>
      let sc' := dict_set contamination mean_score sc in
      if Qltb best_s mean_score
      then (contamination, mean_score, sc')
      else (best_c, best_s, sc')
  | Raise _ => st
  end.

Definition tune_over (cfg : Config) (df : DataFrame) (values : list Q)
  : Q * Q * list (Q * Q) :=
  fold_left (tune_step cfg df) values (fst (contamination_range cfg), 0%Q, []).

(** [best_contamination] starts as the range minimum and is only ever
    assigned a candidate, so the branch [if best_contamination is None] is
    never taken and has no counterpart here. *)
Definition tune_contamination_parameter (cfg : Config) (df : DataFrame)
  : Q * TuningStats :=
  let '(min_contamination, max_contamination) := contamination_range cfg in
  let contamination_values := np_linspace min_contamination max_contamination 10 in
  let '(best_c, best_s, sc) := tune_over cfg df contamination_values in
  (best_c, mkTuningStats (contamination_range cfg) sc best_c best_s).

End Tuning.

(** The value that [quantile] interpolates between two neighbours of the
    sorted values [s]; used to reason about [quantile]. *)
Definition interpolate (s : list Q) (q : Q) : Q :=
  let last := Z.of_nat (length s) - 1 in
  let pos := (q * inject_Z last)%Q in
  let lo := Qfloor pos in
  let hi := Z.min (lo + 1) last in
  (nth (Z.to_nat lo) s 0 + (nth (Z.to_nat hi) s 0 - nth (Z.to_nat lo) s 0)
                           * (pos - inject_Z lo))%Q.

(** ** apply_log_transform, normalize_features, preprocess_pipeline *)

(** The fields of the configuration that the three functions read, beside
    those of [Config]. *)
Record PreprocessingConfig : Type := mkPreprocessingConfig {
  tuning : Config;
  log_transform_features : list string;
  feature_normalization_method : string;
  contamination_auto_tune : bool;
  min_samples_for_training : Z
}.

(** The two scalers of scikit-learn, fitted on a frame and returning the
    transformed matrix; they may raise. *)
Class Scalers : Type := {
  ScalerObj : Type;
  standard_fit_transform : DataFrame -> Result (ScalerObj * list (list Q));
  robust_fit_transform : DataFrame -> Result (ScalerObj * list (list Q))
}.

(** [np.log1p(series)]; numpy has no such loop for text. *)
Definition series_log1p (log1p : Q -> Q) (c : Column) : Result Column :=
  match c with
  | NumCol v => Ok (NumCol (map log1p v))
  | StrCol [] => Ok (StrCol [])
  | StrCol (_ :: _) => Raise (TypeError "loop of ufunc does not support str")
  end.

Section LogTransform.
Variable log1p : Q -> Q.

(** One iteration of [for feature in log_features]. *)
Definition log_step (transformed_df : DataFrame) (feature : string)
  : Result DataFrame :=
  if has_column transformed_df feature
  then
    c <- get_col transformed_df feature ;;
    c' <- series_log1p log1p c ;;
    Ok (drop_col (set_col transformed_df (feature ++ "_log") c') feature)
  else Ok transformed_df.

Fixpoint log_loop (log_features : list string) (transformed_df : DataFrame)
  : Result DataFrame :=
  match log_features with
  | [] => Ok transformed_df
  | feature :: rest =>
      transformed_df' <- log_step transformed_df feature ;;
      log_loop rest transformed_df'
  end.

Definition apply_log_transform (cfg : PreprocessingConfig) (df : DataFrame)
  : Result DataFrame :=
  log_loop (log_transform_features cfg) df.

End LogTransform.

(** [pd.DataFrame(values, columns=names, index=index)]: the shape of the
    values must be the one the labels imply. *)
Definition frame_of_matrix (index : list Z) (names : list string) (values : list (list Q))
  : Result DataFrame :=
  if Nat.eqb (length values) (length index)
     && forallb (fun row => Nat.eqb (length row) (length names)) values
  then
    Ok (mkFrame index
          (map (fun jn => (snd jn, NumCol (map (fun row => nth (fst jn) row 0%Q) values)))
             (combine (seq 0 (length names)) names)))
  else Raise (ValueError "Shape of passed values does not match the indices").

Section Pipeline.
Context {SC : Scalers} {CV : CrossVal}.
Variable log1p : Q -> Q.
(** The dtypes of the numeric columns of the frame given to the pipeline. *)
Variable dtypes : string -> Dtype.

(** The attribute [self._scaler]: a scaler object of a class, fitted once
    [fit_transform] has returned. *)
Inductive StoredScaler : Type :=
| Unfitted (class_name : string)
| Fitted (class_name : string) (obj : ScalerObj).

Definition scaler_class (s : StoredScaler) : string :=
  match s with Unfitted n => n | Fitted n _ => n end.

(** The attributes of a [FlowPreprocessor] that its methods assign. *)
Record FlowPreprocessor : Type := mkFlowPreprocessor {
  _scaler : option StoredScaler;
  _feature_columns : option (list string)
}.

(** A method: it may assign attributes, and returns or raises. *)
Definition Method (A : Type) : Type :=
  FlowPreprocessor -> FlowPreprocessor * Result A.

Definition mbind {A B : Type} (m : Method A) (k : A -> Method B) : Method B :=
  fun self =>
    match m self with
    | (self', Ok a) => k a self'
    | (self', Raise e) => (self', Raise e)
    end.

Definition mlift {A : Type} (r : Result A) : Method A := fun self => (self, r).

(** [prepare_features] as a method: it assigns [self._feature_columns]. *)
Definition prepare_features_method (df : DataFrame) : Method DataFrame :=
  fun self =>
    match prepare_features dtypes df with
    | Ok (features_df, names) =>
        (mkFlowPreprocessor (_scaler self) (Some names), Ok features_df)
    | Raise e => (self, Raise e)
    end.

Definition fit_with (class_name : string)
    (fit_transform : DataFrame -> Result (ScalerObj * list (list Q)))
    (df : DataFrame) : Method (DataFrame * StoredScaler) :=
  fun self =>
    let self1 :=
      mkFlowPreprocessor (Some (Unfitted class_name)) (_feature_columns self) in
    match fit_transform df with
    | Raise e => (self1, Raise e)
    | Ok (obj, normalized_features) =>
        let self2 :=
          mkFlowPreprocessor (Some (Fitted class_name obj))
            (_feature_columns self) in
        match frame_of_matrix (index df) (column_names df) normalized_features with
        | Raise e => (self2, Raise e)
        | Ok normalized_df => (self2, Ok (normalized_df, Fitted class_name obj))
        end
    end.

Definition normalize_features (cfg : PreprocessingConfig) (df : DataFrame)
  : Method (DataFrame * StoredScaler) :=
  if String.eqb (feature_normalization_method cfg) "standard"
  then fit_with "StandardScaler" standard_fit_transform df
  else if String.eqb (feature_normalization_method cfg) "robust"
  then fit_with "RobustScaler" robust_fit_transform df
  else
    mlift (Raise (ValueError ("Unknown normalization method: "
                                ++ feature_normalization_method cfg))).

(** The entry [stats['contamination_tuning']]. *)
Inductive ContaminationReport : Type :=
| Tuned (tuning_stats : TuningStats)
| NotTuned (auto_tune_enabled : bool) (selected_contamination : Q)
    (reason : string).

Record PipelineStats : Type := mkPipelineStats {
  initial_rows : nat;
  feature_count : nat;
  prepared_columns : list string;
  log_features : list string;
  log_final_features : list string;
  outlier_detection : OutlierStats;
  normalization_method : string;
  scaler_type : string;
  contamination_tuning : ContaminationReport;
  final_rows : nat;
  final_features : nat;
  optimal_contamination : Q
}.

(** Step 5 of the pipeline: the contamination and its report. *)
Definition select_contamination (cfg : PreprocessingConfig)
    (normalized_df : DataFrame) : Q * ContaminationReport :=
  if contamination_auto_tune cfg
     && (min_samples_for_training cfg <=? Z.of_nat (len normalized_df))
  then
    let '(contamination, tuning_stats) :=
      tune_contamination_parameter (tuning cfg) normalized_df in
    (contamination, Tuned tuning_stats)
  else
    let '(min_contam, max_contam) := contamination_range (tuning cfg) in
    let contamination := ((min_contam + max_contam) / 2)%Q in
    (contamination,
     NotTuned false contamination
       (if Z.of_nat (len normalized_df) <? min_samples_for_training cfg
        then "insufficient_samples" else "auto_tune_disabled")).

(** The statistics of a run that went through. *)
Definition pipeline_stats (cfg : PreprocessingConfig)
    (df features_df log_df : DataFrame) (outlier_stats : OutlierStats)
    (normalized_df : DataFrame) (scaler : StoredScaler) : PipelineStats :=
  let '(contamination, report) := select_contamination cfg normalized_df in
  mkPipelineStats (len df)
    (length (column_names features_df)) (column_names features_df)
    (log_transform_features cfg) (column_names log_df)
    outlier_stats
    (feature_normalization_method cfg) (scaler_class scaler)
    report
    (len normalized_df) (length (column_names normalized_df))
    contamination.

Definition preprocess_pipeline (cfg : PreprocessingConfig) (df : DataFrame)
  : Method (DataFrame * PipelineStats) :=
  mbind (prepare_features_method df) (fun features_df =>
  mbind (mlift (apply_log_transform log1p cfg features_df)) (fun log_df =>
  mbind (mlift (detect_feature_outliers log_df 3)) (fun cleaned =>
  let '(clean_df, outlier_stats) := cleaned in
  mbind (normalize_features cfg clean_df) (fun normalized =>
  let '(normalized_df, scaler) := normalized in
  mlift (Ok (normalized_df,
             pipeline_stats cfg df features_df log_df outlier_stats
               normalized_df scaler)))))).

End Pipeline.

End preprocessing.

(** * argus_v/aegis/model_manager.py, as exercised by tests/aegis/test_xai.py *)

Module model_manager.

(** The statistics of a fitted scaler: [mean_] and [scale_], one entry per
    feature column. *)
Record ScalerStats : Type := mkScalerStats {
  mean_ : list Q;
  scale_ : list Q
}.

(** The two attributes the tests set on a manager: [_scaler], which is
    [None] until a scaler is loaded, and [feature_columns]. *)
Record ModelManager : Type := mkModelManager {
  scaler : option ScalerStats;
  feature_columns : list string
}.

(** A flow record: a pandas Series of named values. *)
Definition Flow : Type := list (string * Q).

Definition no_scaler_sentinel : string :=
  "Explanation unavailable (no scaler stats)".

(** Modelled from the spec: the z-scores that [explain_anomaly] (module
    argus_v.aegis.model_manager, absent from the sources) computes,
    [(value - mean) / scale] for each feature of the scaler's feature list
    that the record has, in the order of the feature list. *)
Fixpoint z_scores (features : list string) (mean scale : list Q) (record : Flow)
  : list (string * Q) :=
  match features, mean, scale with
  | f :: fs, m :: ms, s :: ss =>
      match assoc f record with
      | Some value => (f, (value - m) / s)%Q :: z_scores fs ms ss record
      | None => z_scores fs ms ss record
      end
  | _, _, _ => []
  end.

(** Modelled from the spec: the ranking of [explain_anomaly] by descending
    absolute z; features of equal absolute z keep their order. *)
Fixpoint insert_ranked (x : string * Q) (l : list (string * Q))
  : list (string * Q) :=
  match l with
  | [] => [x]
  | y :: l' =>
      if Qltb (Qabs (snd x)) (Qabs (snd y)) then y :: insert_ranked x l'
      else x :: l
  end.

Definition rank (l : list (string * Q)) : list (string * Q) :=
  fold_right insert_ranked [] l.

(** [a] may stand before [b] in the ranking. *)
Definition ranked_before (a b : string * Q) : Prop :=
  (Qabs (snd b) <= Qabs (snd a))%Q.

(** Rounding of a non-negative rational to the nearest integer, ties to
    even. *)
Definition round_half_even (x : Q) : Z :=
  let f := Qfloor x in
  let r := (x - inject_Z f)%Q in
  if Qltb r (1 # 2) then f
  else if Qltb (1 # 2) r then f + 1
  else if Z.even f then f else f + 1.

Definition decimal (n : Z) : string := NilZero.string_of_uint (N.to_uint (Z.to_N n)).

(** Modelled from the spec: one line of [explain_anomaly],
    ["<feature> (<sign><|z| to 1 decimal>σ)"]. *)
Definition format_deviation (fz : string * Q) : string :=
  let '(feature, z) := fz in
  let tenths := round_half_even (Qabs z * 10) in
  (feature ++ " (" ++ (if Qltb z 0 then "-" else "+")
     ++ decimal (tenths / 10) ++ "." ++ decimal (tenths mod 10) ++ "σ)")%string.

(** Modelled from the spec: [ModelManager.explain_anomaly(record, top_k)]
    of argus_v/aegis/model_manager.py, a module that is absent from the
    sources; only its tests are at hand. *)
Definition explain_anomaly (mm : ModelManager) (record : Flow) (top_k : nat)
  : list string :=
  match scaler mm with
  | None => [no_scaler_sentinel]
  | Some st =>
      map format_deviation
        (firstn top_k
           (rank (z_scores (feature_columns mm) (mean_ st) (scale_ st) record)))
  end.

End model_manager.

(** * A small library and small frames to run the tuner on

    A rational stand-in for the scaler and the forest: the scaler centres
    each column on its training mean, the forest flags the rows whose
    distance to the origin exceeds a threshold that shrinks as the
    contamination grows. Both refuse a matrix without rows, as scikit-learn
    does. *)

Module demo.
Import train_nsl_kdd.
Local Open Scope Q_scope.

Definition column_means (X : Matrix) : list Q :=
  match X with
  | [] => []
  | row :: _ =>
      map (fun j =>
             fold_right Qplus 0 (map (fun r => nth j r 0) X)
             / inject_Z (Z.of_nat (length X)))
          (seq 0 (length row))
  end.

Fixpoint sub_rows (means row : list Q) : list Q :=
  match means, row with
  | m :: means', x :: row' => Qred (x - m) :: sub_rows means' row'
  | _, _ => []
  end.

Definition centre (means : list Q) (X : Matrix) : Matrix := map (sub_rows means) X.

Definition distance (row : list Q) : Q :=
  Qred (fold_right Qplus 0 (map Qabs row)).

Definition Qmax (a b : Q) : Q := if Qle_bool a b then b else a.

Definition no_rows : PyExc :=
  ValueError "Found array with 0 sample(s) while a minimum of 1 is required".

Definition demo_fit_transform (X : Matrix) : Result (list Q * Matrix) :=
  match X with
  | [] => Raise no_rows
  | _ => let means := column_means X in Ok (means, centre means X)
  end.

Definition demo_threshold (contamination : Q) (X : Matrix) : Q :=
  Qred (fold_right Qmax 0 (map distance X) * (1 - 10 * contamination)).

Definition demo_predict (threshold : Q) (X : Matrix) : list Z :=
  map (fun row => if Qltb threshold (distance row) then (-1)%Z else 1%Z) X.

(** Stand-ins for Python's [float] and [int] on text: they read "215" and
    "0" and nothing else. *)
Definition read_float (s : string) : option Q :=
  if String.eqb s "215" then Some 215
  else if String.eqb s "0" then Some 0
  else None.

Definition read_int (s : string) : option Z :=
  if String.eqb s "215" then Some 215%Z
  else if String.eqb s "0" then Some 0%Z
  else None.

(** The stand-in library; its forest is its threshold. *)
Definition library : Sklearn := {|
  log1p := fun x => x;
  float_of_str := read_float;
  int_of_str := read_int;
  Scaler := list Q;
  Forest := Q;
  fit_transform := demo_fit_transform;
  transform := fun means X => Ok (centre means X);
  forest_fit := fun n_estimators contamination random_state X =>
    match X with
    | [] => Raise no_rows
    | _ => Ok (demo_threshold contamination X)
    end;
  predict := fun threshold X => Ok (demo_predict threshold X)
|}.

(** The same library with another representation of the fitted forest: it
    also remembers its ensemble size and its seed. *)
Definition library' : Sklearn := {|
  log1p := fun x => x;
  float_of_str := read_float;
  int_of_str := read_int;
  Scaler := list Q;
  Forest := Q * (Z * Z);
  fit_transform := demo_fit_transform;
  transform := fun means X => Ok (centre means X);
  forest_fit := fun n_estimators contamination random_state X =>
    match X with
    | [] => Raise no_rows
    | _ => Ok (demo_threshold contamination X, (n_estimators, random_state))
    end;
  predict := fun forest X => Ok (demo_predict (fst forest) X)
|}.

Definition frame (rows : list (Q * Q * Q * Q * Q)) : DataFrame :=
  mkFrame (map Z.of_nat (seq 0 (length rows)))
    [("packet_count", NumCol (map (fun r => fst (fst (fst (fst r)))) rows));
     ("byte_count", NumCol (map (fun r => snd (fst (fst (fst r)))) rows));
     ("duration_seconds", NumCol (map (fun r => snd (fst (fst r))) rows));
     ("rate_bps", NumCol (map (fun r => snd (fst r)) rows));
     ("is_attack", NumCol (map (fun r => snd r) rows))]%string.

Definition normal_train : DataFrame :=
  frame [(1, 100, 1, 100, 0); (2, 200, 1, 200, 0); (1, 150, 1, 150, 0);
         (2, 250, 2, 125, 0)]%Q.

Definition validation : DataFrame :=
  frame [(1, 120, 1, 120, 0); (10, 5000, 1, 5000, 1); (2, 252, 2, 126, 0);
         (1, 103, 1, 103, 1)]%Q.

(** A training set with a single unique value, and one without rows. *)
Definition degenerate_train : DataFrame :=
  frame [(1, 1, 1, 1, 0); (1, 1, 1, 1, 0); (1, 1, 1, 1, 0)]%Q.

Definition empty_train : DataFrame := frame [].

Definition all_equal (v : list Q) : bool :=
  match v with
  | [] => true
  | x :: v' => forallb (Qeq_bool x) v'
  end.

(** Every feature of every row holds the same value. *)
Definition single_unique_value (df : DataFrame) : bool :=
  match select df RETINA_FEATURE_COLUMNS with
  | Ok sub =>
      all_equal
        (flat_map (fun kc => match snd kc with NumCol v => v | StrCol _ => [] end)
           (columns sub))
  | Raise _ => false
  end.

(** Flow frames for the preprocessor: one with the eight required columns
    and one more, one without two of the required columns. *)
Definition flows : DataFrame :=
  mkFrame [0; 1; 2; 3]%Z
    [("src_ip", StrCol ["10.0.0.1"; "10.0.0.2"; "10.0.0.3"; "10.0.0.4"]);
     ("protocol", StrCol ["TCP"; "udp"; "GRE"; "ICMP"]);
     ("bytes_in", NumCol [100; 2000; 30; 4]);
     ("bytes_out", NumCol [10; 20; 30; 40]);
     ("packets_in", NumCol [1; 2; 3; 4]);
     ("packets_out", NumCol [4; 3; 2; 1]);
     ("duration", NumCol [1 # 2; 3 # 2; 5; 7]);
     ("src_port", NumCol [-(80); 443; 53; -(1)]);
     ("dst_port", NumCol [8080; -(22); 0; 65535])]%string.

Definition flows_missing : DataFrame :=
  mkFrame [0; 1]%Z
    [("bytes_in", NumCol [100; 2000]);
     ("bytes_out", NumCol [10; 20]);
     ("packets_in", NumCol [1; 2]);
     ("packets_out", NumCol [4; 3]);
     ("duration", NumCol [1 # 2; 3 # 2]);
     ("dst_port", NumCol [8080; 22])]%string.



(** A frame of two numeric columns and no rows, and a frame with one row far
    from the others. *)
Definition no_flows : DataFrame :=
  mkFrame [] [("bytes_in", NumCol []); ("duration", NumCol [])]%string.

(** A frame with the eight required columns and no rows. *)
Definition empty_flows : DataFrame :=
  mkFrame []
    [("protocol", StrCol []);
     ("bytes_in", NumCol []);
     ("bytes_out", NumCol []);
     ("packets_in", NumCol []);
     ("packets_out", NumCol []);
     ("duration", NumCol []);
     ("src_port", NumCol []);
     ("dst_port", NumCol [])]%string.

Definition flows_with_outlier : DataFrame :=
  mkFrame [0; 1; 2; 3; 4; 5]%Z
    [("bytes_in", NumCol [10; 12; 11; 13; 12; 1000]);
     ("duration", NumCol [1; 2; 1; 2; 1; 2])]%string.

(** A configuration and two stand-ins for the cross-validation: one raises
    on the lower candidates and scores the others below zero, the other
    scores every candidate by its distance to 0.05, above zero. *)
Definition cfg : preprocessing.Config :=
  preprocessing.mkConfig (1 # 100, 1 # 10) 42 5.

Definition failing_cross_val : preprocessing.CrossVal := {|
  preprocessing.cross_val_mean_score :=
    fun contamination random_state n_estimators df cv scoring =>
      if Qltb contamination (1 # 20)
      then Raise (ValueError "scoring failed")
      else Ok (- contamination)
|}.

(** A cross-validation that raises on the candidates below 0.05 and scores
    the others by their contamination. *)
Definition late_cross_val : preprocessing.CrossVal := {|
  preprocessing.cross_val_mean_score :=
    fun contamination random_state n_estimators df cv scoring =>
      if Qltb contamination (1 # 20)
      then Raise (ValueError "scoring failed")
      else Ok (Qred contamination)
|}.

Definition scoring_cross_val : preprocessing.CrossVal := {|
  preprocessing.cross_val_mean_score :=
    fun contamination random_state n_estimators df cv scoring =>
      Ok (Qred (1 - Qabs (contamination - (1 # 20))))
|}.

(** The managers and flows of tests/aegis/test_xai.py. *)
Definition manager : model_manager.ModelManager :=
  model_manager.mkModelManager
    (Some (model_manager.mkScalerStats [10] [2])) ["test_feature"]%string.

Definition manager3 : model_manager.ModelManager :=
  model_manager.mkModelManager
    (Some (model_manager.mkScalerStats [0; 0; 0] [1; 1; 1]))
    ["F1"; "F2"; "F3"]%string.

Definition manager_without_scaler : model_manager.ModelManager :=
  model_manager.mkModelManager None ["F1"]%string.

(** Raw NSL-KDD rows: a text cell that is no number, a zero duration, labels
    in several cases; and a stand-in for the number parser of pandas. *)
Definition parse_number (s : string) : option Q :=
  if String.eqb s "215" then Some 215
  else if String.eqb s "0" then Some 0
  else None.

Definition raw : DataFrame :=
  mkFrame [0; 1; 2; 3]%Z
    [("duration", NumCol [0; 2; 0; 1 # 2]);
     ("protocol_type", StrCol ["tcp"; "udp"; "tcp"; "icmp"]);
     ("src_bytes", StrCol ["215"; "n/a"; "0"; "215"]);
     ("dst_bytes", NumCol [45; 100; 0; 5]);
     ("count", NumCol [1; 2; 3; 4]);
     ("label", StrCol ["normal"; "neptune"; "Normal"; "smurf"])]%string.

Definition raw_without_label : DataFrame :=
  mkFrame [0; 1]%Z
    [("duration", NumCol [0; 2]);
     ("src_bytes", NumCol [215; 0]);
     ("dst_bytes", NumCol [45; 100]);
     ("count", NumCol [1; 2])]%string.

(** Feature frames with text cells: one whose text reads as numbers, one
    with a cell that does not, and one without two of the feature columns. *)
Definition text_features : DataFrame :=
  mkFrame [0; 1]%Z
    [("packet_count", StrCol ["215"; "0"]);
     ("byte_count", NumCol [100; 200]);
     ("duration_seconds", NumCol [1; 2]);
     ("rate_bps", NumCol [100; 100])]%string.

Definition unread_features : DataFrame :=
  mkFrame [0; 1]%Z
    [("packet_count", StrCol ["215"; "n/a"]);
     ("byte_count", NumCol [100; 200]);
     ("duration_seconds", NumCol [1; 2]);
     ("rate_bps", StrCol ["fast"; "0"])]%string.

Definition half_features : DataFrame :=
  mkFrame [0; 1]%Z
    [("packet_count", NumCol [1; 2]);
     ("byte_count", NumCol [100; 200])]%string.

(** The stand-in library, made to run out of memory on ensembles of 400
    estimators. *)
Definition out_of_memory : PyExc := mkExc "MemoryError" "".

Definition brittle_library : Sklearn := {|
  log1p := fun x => x;
  float_of_str := read_float;
  int_of_str := read_int;
  Scaler := list Q;
  Forest := Q;
  fit_transform := demo_fit_transform;
  transform := fun means X => Ok (centre means X);
  forest_fit := fun n_estimators contamination random_state X =>
    if (n_estimators =? 400)%Z then Raise out_of_memory
    else
      match X with
      | [] => Raise no_rows
      | _ => Ok (demo_threshold contamination X)
      end;
  predict := fun threshold X => Ok (demo_predict threshold X)
|}.

(** Configurations of the preprocessor, with and without the automatic
    tuning, and stand-ins for the two scalers: the standard one centres the
    columns, the robust one leaves the values as they are; both refuse a
    frame without rows or with text. *)
Definition pre_cfg : preprocessing.PreprocessingConfig :=
  preprocessing.mkPreprocessingConfig cfg
    ["bytes_in"; "bytes_out"; "absent_feature"]%string "standard" false 2.

Definition tuned_cfg : preprocessing.PreprocessingConfig :=
  preprocessing.mkPreprocessingConfig cfg
    ["bytes_in"; "bytes_out"]%string "robust" true 2.

Definition unknown_cfg : preprocessing.PreprocessingConfig :=
  preprocessing.mkPreprocessingConfig cfg [] "minmax" false 2.

Definition frame_matrix (df : DataFrame) : Result Matrix :=
  X <- rmapM (fun kc => to_numpy_float read_float (snd kc)) (columns df) ;;
  match index df with
  | [] => Raise no_rows
  | _ => Ok (rows_of (len df) X)
  end.

Definition scalers : preprocessing.Scalers := {|
  preprocessing.ScalerObj := list Q;
  preprocessing.standard_fit_transform := fun df =>
    X <- frame_matrix df ;;
    Ok (column_means X, centre (column_means X) X);
  preprocessing.robust_fit_transform := fun df =>
    X <- frame_matrix df ;; Ok ([], X)
|}.

(** A preprocessor as [__init__] leaves it. *)
Definition fresh_preprocessor : preprocessing.FlowPreprocessor (SC := scalers) :=
  preprocessing.mkFlowPreprocessor None None.

Definition X_train_raw : Matrix :=
  Eval vm_compute in
    match make_X (SK := library) normal_train with Ok X => X | Raise _ => [] end.


End demo.

(** * Properties *)

(** ** Comparisons of rationals *)

Lemma Qltb_true (x y : Q) : Qltb x y = true <-> (x < y)%Q.
Proof.
  unfold Qltb. rewrite negb_true_iff. split.
  - intros H. apply Qnot_le_lt. intros Hle.
    apply Qle_bool_iff in Hle. congruence.
  - intros H. destruct (Qle_bool y x) eqn:E; [|reflexivity].
    apply Qle_bool_iff in E. exfalso. apply (Qlt_not_le _ _ H E).
Qed.

Lemma Qltb_false (x y : Q) : Qltb x y = false <-> (y <= x)%Q.
Proof.
  unfold Qltb. rewrite negb_false_iff. apply Qle_bool_iff.
Qed.

Lemma Qeq_bool_false (x y : Q) : Qeq_bool x y = false <-> ~ (x == y)%Q.
Proof.
  split.
  - intros H E. apply Qeq_bool_iff in E. congruence.
  - intros H. destruct (Qeq_bool x y) eqn:E; [|reflexivity].
    apply Qeq_bool_iff in E. contradiction.
Qed.

(** ** The evaluator: compute_metrics *)

Section Evaluator.
Import train_nsl_kdd.

Lemma zip_and_length (a b : list bool) :
  length a = length b -> length (zip_and a b) = length a.
Proof.
  revert b. induction a as [|x a IH]; intros [|y b] H; simpl in *;
    try discriminate; auto.
Qed.

Lemma np_and_same_shape (a b : list bool) :
  length a = length b -> np_and a b = Ok (zip_and a b).
Proof.
  intros H. unfold np_and. rewrite H, Nat.eqb_refl. reflexivity.
Qed.

Lemma np_sum_zip_eq (yt yp : list Z) (t p : Z) :
  length yt = length yp ->
  np_sum (zip_and (np_eq yt t) (np_eq yp p)) = count_pairs t p (combine yt yp).
Proof.
  revert yp. induction yt as [|a yt IH]; intros [|b yp] H; simpl in *;
    try discriminate; auto.
  rewrite IH by congruence. reflexivity.
Qed.

Lemma confusion_count_pairs (yt yp : list Z) (t p : Z) :
  length yt = length yp ->
  confusion_count yt yp t p = Ok (count_pairs t p (combine yt yp)).
Proof.
  intros H. unfold confusion_count.
  rewrite np_and_same_shape by (unfold np_eq; rewrite !length_map; exact H).
  simpl. rewrite np_sum_zip_eq by exact H. reflexivity.
Qed.

Lemma compute_metrics_counts (yt yp : list Z) :
  length yt = length yp ->
  compute_metrics yt yp =
  Ok (metrics_of_counts
        (count_pairs 1 1 (combine yt yp)) (count_pairs 0 0 (combine yt yp))
        (count_pairs 0 1 (combine yt yp)) (count_pairs 1 0 (combine yt yp))).
Proof.
  intros H. unfold compute_metrics.
  rewrite !confusion_count_pairs by exact H. reflexivity.
Qed.

Lemma count_pairs_nonneg (t p : Z) (l : list (Z * Z)) : 0 <= count_pairs t p l.
Proof.
  induction l as [|[a b] l IH]; simpl; [lia|].
  destruct ((a =? t) && (b =? p)); lia.
Qed.

Lemma count_pairs_perm (t p : Z) (l l' : list (Z * Z)) :
  Permutation l l' -> count_pairs t p l = count_pairs t p l'.
Proof.
  induction 1 as [|[a b] l l' _ IH|[a b] [c d] l|l l' l'' _ IH1 _ IH2]; simpl.
  - reflexivity.
  - rewrite IH. reflexivity.
  - lia.
  - congruence.
Qed.

Lemma ratio_zero_den (num : Z) : ratio num 0 = 0%Q.
Proof. reflexivity. Qed.

Lemma ratio_range (num den : Z) :
  0 <= num <= den -> (0 <= ratio num den <= 1)%Q.
Proof.
  intros [H0 H1]. unfold ratio.
  destruct (den =? 0) eqn:E.
  - split; [apply Qle_refl | discriminate].
  - apply Z.eqb_neq in E.
    assert (Hd : (0 < inject_Z den)%Q).
    { change 0%Q with (inject_Z 0). rewrite <- Zlt_Qlt. lia. }
    split.
    + apply Qle_shift_div_l; [exact Hd|].
      rewrite Qmult_0_l. change 0%Q with (inject_Z 0).
      rewrite <- Zle_Qle. exact H0.
    + apply Qle_shift_div_r; [exact Hd|].
      rewrite Qmult_1_l. rewrite <- Zle_Qle. exact H1.
Qed.

Lemma f1_score_zero (p r : Q) : (p + r == 0)%Q -> f1_score p r = 0%Q.
Proof.
  intros H. unfold f1_score. apply Qeq_bool_iff in H. rewrite H. reflexivity.
Qed.

Lemma f1_score_range (p r : Q) :
  (0 <= p <= 1)%Q -> (0 <= r <= 1)%Q -> (0 <= f1_score p r <= 1)%Q.
Proof.
  intros [Hp0 Hp1] [Hr0 Hr1]. unfold f1_score.
  destruct (Qeq_bool (p + r) 0) eqn:E.
  - split; [apply Qle_refl | discriminate].
  - apply Qeq_bool_false in E.
    assert (Hs : (0 < p + r)%Q).
    { destruct (Qlt_le_dec 0 (p + r)) as [Hlt|Hle]; [exact Hlt|].
      exfalso. apply E. lra. }
    split.
    + apply Qle_shift_div_l; [exact Hs|]. nra.
    + apply Qle_shift_div_r; [exact Hs|]. nra.
Qed.

Lemma count_pairs_partition (l : list (Z * Z)) :
  Forall (fun ab => (fst ab = 0 \/ fst ab = 1) /\ (snd ab = 0 \/ snd ab = 1)) l ->
  count_pairs 1 1 l + count_pairs 0 1 l + count_pairs 0 0 l + count_pairs 1 0 l
  = Z.of_nat (length l).
Proof.
  induction 1 as [|[a b] l [Ha Hb] _ IH]; [reflexivity|].
  cbn [count_pairs length]. rewrite Nat2Z.inj_succ.
  simpl in Ha, Hb.
  destruct Ha as [-> | ->], Hb as [-> | ->]; cbn [Z.eqb Pos.eqb andb]; lia.
Qed.

Lemma binary_combine (yt yp : list Z) :
  binary yt -> binary yp ->
  Forall (fun ab => (fst ab = 0 \/ fst ab = 1) /\ (snd ab = 0 \/ snd ab = 1))
    (combine yt yp).
Proof.
  intros Ht. revert yp. induction Ht as [|a yt Ha _ IH]; intros yp Hp.
  - constructor.
  - destruct Hp as [|b yp Hb Hp]; simpl; constructor; auto.
Qed.

Lemma combine_take (sigma : list nat) (a b : list Z) :
  combine (np_take sigma a) (np_take sigma b)
  = map (fun i => (nth i a 0, nth i b 0)) sigma.
Proof.
  unfold np_take. induction sigma as [|i sigma IH]; simpl; congruence.
Qed.

Lemma combine_by_position (a b : list Z) :
  length a = length b ->
  map (fun i => (nth i a 0, nth i b 0)) (seq 0 (length a)) = combine a b.
Proof.
  revert b. induction a as [|x a IH]; intros [|y b] H; simpl in *;
    try discriminate; auto.
  f_equal. rewrite <- seq_shift, map_map. simpl. apply IH. congruence.
Qed.

(** C2: on label arrays of equal length holding only 0 and 1,
    [compute_metrics] returns, and precision, recall, F1, the true-positive
    rate and the false-positive rate all lie in [0, 1]; a ratio whose
    denominator is zero is the constant 0; F1 is 0 whenever
    precision + recall is 0; the true-positive rate is the recall. The four
    counts are the confusion counts of the paired labels and add up to the
    number of rows. *)
Theorem compute_metrics_ranges (y_true y_pred : list Z) :
  length y_true = length y_pred ->
  binary y_true -> binary y_pred ->
  exists m,
    compute_metrics y_true y_pred = Ok m /\
    tp m = count_pairs 1 1 (combine y_true y_pred) /\
    fp m = count_pairs 0 1 (combine y_true y_pred) /\
    tn m = count_pairs 0 0 (combine y_true y_pred) /\
    fn m = count_pairs 1 0 (combine y_true y_pred) /\
    tp m + fp m + tn m + fn m = Z.of_nat (length y_true) /\
    precision m = ratio (tp m) (tp m + fp m) /\
    recall m = ratio (tp m) (tp m + fn m) /\
    false_positive_rate m = ratio (fp m) (fp m + tn m) /\
    (0 <= precision m <= 1)%Q /\
    (0 <= recall m <= 1)%Q /\
    (0 <= f1 m <= 1)%Q /\
    (0 <= true_positive_rate m <= 1)%Q /\
    (0 <= false_positive_rate m <= 1)%Q /\
    (tp m + fp m = 0 -> precision m = 0%Q) /\
    (tp m + fn m = 0 -> recall m = 0%Q) /\
    (fp m + tn m = 0 -> false_positive_rate m = 0%Q) /\
    ((precision m + recall m == 0)%Q -> f1 m = 0%Q) /\
    (~ (precision m + recall m == 0)%Q ->
     f1 m = (2 * precision m * recall m / (precision m + recall m))%Q) /\
    true_positive_rate m = recall m.
Proof.
  intros Hlen Ht Hp.
  eexists. split; [apply compute_metrics_counts; exact Hlen|].
  set (l := combine y_true y_pred).
  pose proof (count_pairs_nonneg 1 1 l) as H11.
  pose proof (count_pairs_nonneg 0 0 l) as H00.
  pose proof (count_pairs_nonneg 0 1 l) as H01.
  pose proof (count_pairs_nonneg 1 0 l) as H10.
  pose proof (count_pairs_partition l (binary_combine _ _ Ht Hp)) as Hsum.
  assert (Hl : length l = length y_true).
  { unfold l. rewrite length_combine, <- Hlen. apply Nat.min_id. }
  assert (Hprec : (0 <= ratio (count_pairs 1 1 l)
                         (count_pairs 1 1 l + count_pairs 0 1 l) <= 1)%Q)
    by (apply ratio_range; lia).
  assert (Hrec : (0 <= ratio (count_pairs 1 1 l)
                        (count_pairs 1 1 l + count_pairs 1 0 l) <= 1)%Q)
    by (apply ratio_range; lia).
  assert (Hfpr : (0 <= ratio (count_pairs 0 1 l)
                        (count_pairs 0 1 l + count_pairs 0 0 l) <= 1)%Q)
    by (apply ratio_range; lia).
  unfold metrics_of_counts; cbn [tp fp tn fn precision recall f1
    true_positive_rate false_positive_rate].
  repeat split; try reflexivity; try tauto;
    try (apply f1_score_range; assumption).
  - rewrite <- Hl. lia.
  - intros E. rewrite E. reflexivity.
  - intros E. rewrite E. reflexivity.
  - intros E. rewrite E. reflexivity.
  - apply f1_score_zero.
  - intros E. unfold f1_score at 1. apply Qeq_bool_false in E. rewrite E.
    reflexivity.
Qed.

(** C8: applying one permutation of the positions to both label arrays
    leaves the result of [compute_metrics] unchanged. The function is a
    closed term of the embedding: it reads its two arguments and nothing
    else. *)
Theorem compute_metrics_permutation_invariant
    (y_true y_pred : list Z) (sigma : list nat) :
  length y_true = length y_pred ->
  Permutation sigma (seq 0 (length y_true)) ->
  compute_metrics (np_take sigma y_true) (np_take sigma y_pred)
  = compute_metrics y_true y_pred.
Proof.
  intros Hlen Hperm.
  rewrite (compute_metrics_counts y_true y_pred Hlen).
  rewrite compute_metrics_counts
    by (unfold np_take; rewrite !length_map; reflexivity).
  rewrite combine_take.
  assert (P : Permutation
                (map (fun i => (nth i y_true 0, nth i y_pred 0)) sigma)
                (combine y_true y_pred)).
  { rewrite <- (combine_by_position y_true y_pred Hlen).
    apply Permutation_map. exact Hperm. }
  rewrite !(count_pairs_perm _ _ _ _ P). reflexivity.
Qed.

Lemma np_sum_nonneg (a : list bool) : 0 <= np_sum a.
Proof.
  induction a as [|b a IH]; simpl; [lia|]. destruct b; lia.
Qed.

Lemma confusion_count_nonneg (yt yp : list Z) (t p k : Z) :
  confusion_count yt yp t p = Ok k -> 0 <= k.
Proof.
  unfold confusion_count.
  destruct (np_and (np_eq yt t) (np_eq yp p)) as [m|e]; simpl;
    [|discriminate].
  intros H. injection H as <-. apply np_sum_nonneg.
Qed.

(** Whatever the shapes, metrics that [compute_metrics] returns have
    precision and F1 in [0, 1]. *)
Lemma compute_metrics_ok_ranges (yt yp : list Z) (m : Metrics) :
  compute_metrics yt yp = Ok m ->
  (0 <= precision m <= 1)%Q /\ (0 <= f1 m <= 1)%Q.
Proof.
  unfold compute_metrics.
  destruct (confusion_count yt yp 1 1) as [k11|] eqn:E11; [|discriminate].
  destruct (confusion_count yt yp 0 0) as [k00|] eqn:E00; [|discriminate].
  destruct (confusion_count yt yp 0 1) as [k01|] eqn:E01; [|discriminate].
  destruct (confusion_count yt yp 1 0) as [k10|] eqn:E10; [|discriminate].
  cbn [rbind]. intros H. injection H as <-. cbn [precision f1].
  apply confusion_count_nonneg in E11, E00, E01, E10.
  assert (Hp : (0 <= ratio k11 (k11 + k01) <= 1)%Q) by (apply ratio_range; lia).
  assert (Hr : (0 <= ratio k11 (k11 + k10) <= 1)%Q) by (apply ratio_range; lia).
  split; [exact Hp | apply f1_score_range; assumption].
Qed.

End Evaluator.

(** ** The grid-search tuner: tune_iforest *)

Section TracedLoops.
Import train_nsl_kdd.

Lemma tbind_assoc {A B C : Type} (m : Traced A) (k : A -> Traced B)
    (k' : B -> Traced C) (t : list (Q * Z)) :
  tbind (tbind m k) k' t = tbind m (fun a => tbind (k a) k') t.
Proof.
  unfold tbind. destruct (m t) as [t' [a|e]]; reflexivity.
Qed.

Lemma tbind_ext {A B : Type} (m : Traced A) (k k' : A -> Traced B)
    (t : list (Q * Z)) :
  (forall a t', k a t' = k' a t') -> tbind m k t = tbind m k' t.
Proof.
  intros H. unfold tbind. destruct (m t) as [t' [a|e]]; [apply H | reflexivity].
Qed.

Lemma for_each_app {A S : Type} (l1 l2 : list A) (body : A -> S -> Traced S)
    (s : S) (t : list (Q * Z)) :
  for_each (l1 ++ l2) body s t
  = tbind (for_each l1 body s) (for_each l2 body) t.
Proof.
  revert s t. induction l1 as [|x l1 IH]; intros s t.
  - reflexivity.
  - cbn [app for_each]. rewrite tbind_assoc. apply tbind_ext. exact IH.
Qed.

Lemma for_each_map {A B S : Type} (f : A -> B) (l : list A)
    (body : B -> S -> Traced S) (s : S) (t : list (Q * Z)) :
  for_each (map f l) body s t = for_each l (fun a => body (f a)) s t.
Proof.
  revert s t. induction l as [|x l IH]; intros s t.
  - reflexivity.
  - cbn [map for_each]. apply tbind_ext. exact IH.
Qed.

End TracedLoops.

Section KeyOrder.
Import train_nsl_kdd.

Lemma key_gt_true (a b : Q * Q) : key_gt a b = true <-> key_lt b a.
Proof.
  unfold key_gt, key_lt. destruct a as [a1 a2], b as [b1 b2]. cbn [fst snd].
  destruct (Qeq_bool a1 b1) eqn:E1; cbn [negb].
  - apply Qeq_bool_iff in E1.
    destruct (Qeq_bool a2 b2) eqn:E2; cbn [negb].
    + apply Qeq_bool_iff in E2. split; [discriminate|].
      intros [H|[_ H]]; lra.
    + rewrite Qltb_true. split.
      * intros H. right. split; [symmetry; exact E1 | exact H].
      * intros [H|[_ H]]; [lra | exact H].
  - apply Qeq_bool_false in E1. rewrite Qltb_true. split.
    + intros H. left. exact H.
    + intros [H|[H _]]; [exact H|]. exfalso. apply E1. symmetry. exact H.
Qed.

Lemma key_gt_false (a b : Q * Q) : key_gt a b = false <-> key_le a b.
Proof.
  unfold key_gt, key_le, key_lt. destruct a as [a1 a2], b as [b1 b2].
  cbn [fst snd].
  destruct (Qeq_bool a1 b1) eqn:E1; cbn [negb].
  - apply Qeq_bool_iff in E1.
    destruct (Qeq_bool a2 b2) eqn:E2; cbn [negb].
    + apply Qeq_bool_iff in E2. split; [|reflexivity].
      intros _. right. split; assumption.
    + apply Qeq_bool_false in E2. rewrite Qltb_false. split.
      * intros H. left. right. split; [exact E1|].
        destruct (Qlt_le_dec a2 b2) as [Hlt|Hle]; [exact Hlt|].
        exfalso. apply E2. lra.
      * intros [[H|[_ H]]|[_ H]]; lra.
  - apply Qeq_bool_false in E1. rewrite Qltb_false. split.
    + intros H. left. left.
      destruct (Qlt_le_dec a1 b1) as [Hlt|Hle]; [exact Hlt|].
      exfalso. apply E1. lra.
    + intros [[H|[H _]]|[H _]]; [lra| |]; exfalso; apply E1; exact H.
Qed.

Lemma key_le_refl (a : Q * Q) : key_le a a.
Proof. right. split; reflexivity. Qed.

Lemma key_lt_le (a b : Q * Q) : key_lt a b -> key_le a b.
Proof. intros H. left. exact H. Qed.

Lemma key_le_lt_trans (a b c : Q * Q) : key_le a b -> key_lt b c -> key_lt a c.
Proof.
  unfold key_le, key_lt. destruct a as [a1 a2], b as [b1 b2], c as [c1 c2].
  cbn [fst snd].
  intros [[H|[H1 H2]]|[H1 H2]] [K|[K1 K2]];
    try (left; lra); right; split; lra.
Qed.

Lemma key_le_trans (a b c : Q * Q) : key_le a b -> key_le b c -> key_le a c.
Proof.
  intros Hab [Hbc|[E1 E2]].
  - left. apply (key_le_lt_trans a b c Hab Hbc).
  - destruct Hab as [[H|[H1 H2]]|[H1 H2]].
    + left. left. lra.
    + left. right. split; lra.
    + right. split; lra.
Qed.


Lemma key_lt_irrefl (a : Q * Q) : ~ key_lt a a.
Proof. intros [H|[_ H]]; lra. Qed.

End KeyOrder.

Section TunerProofs.
Import train_nsl_kdd.
Context {SK : Sklearn}.
Variables (X : Matrix) (validation : DataFrame) (seed : Z).

(** The two nested loops are one loop over [grid_candidates]. *)
Lemma tune_loop_flat (cg : list Q) (ng : list Z) (best : Best)
    (t : list (Q * Z)) :
  for_each cg
    (fun c b => for_each ng (fun n b' => tune_body X validation seed c n b') b)
    best t
  = for_each (grid_candidates cg ng) (flat_body X validation seed) best t.
Proof.
  revert best t. induction cg as [|c cg IH]; intros best t.
  - reflexivity.
  - cbn [for_each grid_candidates flat_map].
    rewrite for_each_app.
    change (flat_map (fun c0 => map (fun n => (c0, n)) ng) cg)
      with (grid_candidates cg ng).
    unfold tbind. rewrite for_each_map. unfold flat_body at 1. cbn [fst snd].
    destruct (for_each ng _ best t) as [t' [b'|e]].
    + apply IH.
    + reflexivity.
Qed.

Lemma flat_body_ok (cn : Q * Z) (best : Best) (t : list (Q * Z)) r :
  evaluate_candidate X validation seed (fst cn) (snd cn) = Ok r ->
  flat_body X validation seed cn best t
  = (t ++ [cn], Ok (keep_best (fst cn) (snd cn) r best)).
Proof.
  intros H. unfold flat_body, tune_body, tbind, tell, tlift, tret.
  rewrite H. destruct cn; reflexivity.
Qed.

Lemma flat_body_raise (cn : Q * Z) (best : Best) (t : list (Q * Z)) e :
  evaluate_candidate X validation seed (fst cn) (snd cn) = Raise e ->
  flat_body X validation seed cn best t = (t ++ [cn], Raise e).
Proof.
  intros H. unfold flat_body, tune_body, tbind, tell, tlift, tret.
  rewrite H. destruct cn; reflexivity.
Qed.

(** When no candidate raises, the loop enters every candidate in order and
    folds [select_step] over them. *)
Lemma flat_loop_ok (cands : list (Q * Z)) (best : Best) (t : list (Q * Z)) :
  Forall (fun cn =>
            is_ok (evaluate_candidate X validation seed (fst cn) (snd cn)) = true)
         cands ->
  for_each cands (flat_body X validation seed) best t
  = (t ++ cands, Ok (fold_left (select_step X validation seed) cands best)).
Proof.
  intros H. revert best t.
  induction H as [|cn cands Hcn _ IH]; intros best t.
  - simpl. unfold tret. rewrite app_nil_r. reflexivity.
  - cbn [for_each fold_left]. unfold tbind.
    destruct (evaluate_candidate X validation seed (fst cn) (snd cn))
      as [r|e] eqn:E; [|discriminate].
    rewrite (flat_body_ok cn best t r E), IH.
    unfold select_step. rewrite E, <- app_assoc. reflexivity.
Qed.

(** An exception that leaves the loop was raised by the evaluation of one
    of the candidates. *)
Lemma flat_loop_raise (cands : list (Q * Z)) (best : Best)
    (t t' : list (Q * Z)) (e : PyExc) :
  for_each cands (flat_body X validation seed) best t = (t', Raise e) ->
  exists cn, In cn cands /\
             evaluate_candidate X validation seed (fst cn) (snd cn) = Raise e.
Proof.
  revert best t. induction cands as [|cn cands IH]; intros best t H.
  - discriminate.
  - cbn [for_each] in H. unfold tbind in H.
    destruct (evaluate_candidate X validation seed (fst cn) (snd cn))
      as [r|e0] eqn:E.
    + rewrite (flat_body_ok cn best t r E) in H.
      destruct (IH _ _ H) as (cn' & Hin & Hr).
      exists cn'. split; [right; exact Hin | exact Hr].
    + rewrite (flat_body_raise cn best t e0 E) in H.
      exists cn. split; [left; reflexivity | congruence].
Qed.

Lemma evaluate_candidate_inv (c : Q) (n : Z) model scaler metrics :
  evaluate_candidate X validation seed c n = Ok (model, scaler, metrics) ->
  exists pred y_true,
    predict_candidate X validation seed c n = Ok (model, scaler, pred) /\
    is_attack validation = Ok y_true /\
    compute_metrics y_true (outlier_to_attack pred) = Ok metrics.
Proof.
  unfold evaluate_candidate.
  destruct (predict_candidate X validation seed c n) as [[[mo sc] pred]|];
    [|discriminate].
  cbn [rbind].
  destruct (is_attack validation) as [y_true|]; [|discriminate]. cbn [rbind].
  destruct (compute_metrics y_true (outlier_to_attack pred)) as [m|] eqn:E;
    [|discriminate].
  cbn [rbind]. intros H. injection H as <- <- <-.
  exists pred, y_true. auto.
Qed.

Lemma library_accepts_evaluates (c : Q) (n : Z) :
  library_accepts X validation seed c n ->
  is_ok (evaluate_candidate X validation seed c n) = true.
Proof.
  intros ([[model scaler] pred] & y_true & Hp & Ha & Hlen).
  unfold evaluate_candidate. rewrite Hp. cbn [rbind]. rewrite Ha. cbn [rbind].
  rewrite compute_metrics_counts; [reflexivity|].
  unfold outlier_to_attack. rewrite length_map. symmetry. exact Hlen.
Qed.

(** The key of evaluated metrics beats the initial [best_key]. *)
Lemma evaluated_key_beats_initial (c : Q) (n : Z) model scaler metrics :
  evaluate_candidate X validation seed c n = Ok (model, scaler, metrics) ->
  (0 <= precision metrics)%Q /\ (0 <= f1 metrics)%Q /\
  key_gt (key_of metrics) (best_key best_init) = true.
Proof.
  intros H. destruct (evaluate_candidate_inv _ _ _ _ _ H)
    as (pred & y_true & _ & _ & Hm).
  destruct (compute_metrics_ok_ranges _ _ _ Hm) as [[Hp _] [Hf _]].
  split; [exact Hp|]. split; [exact Hf|].
  apply key_gt_true. left. unfold key_of, best_init. cbn [fst best_key]. lra.
Qed.

Lemma recorded_first (cn : Q * Z) :
  is_ok (evaluate_candidate X validation seed (fst cn) (snd cn)) = true ->
  recorded X validation seed [cn] (select_step X validation seed best_init cn).
Proof.
  destruct cn as [c n]. unfold select_step. cbn [fst snd].
  destruct (evaluate_candidate X validation seed c n)
    as [[[model scaler] metrics]|] eqn:E; [|discriminate].
  intros _. destruct (evaluated_key_beats_initial _ _ _ _ _ E) as (_ & _ & Hgt).
  exists 0%nat, c, n, model, scaler, metrics.
  split; [reflexivity|]. split; [exact E|]. split.
  - unfold keep_best. fold (key_of metrics). rewrite Hgt. reflexivity.
  - intros [|j] c' n' model' scaler' metrics' Hj He.
    + injection Hj as <- <-. rewrite E in He. injection He as <- <- <-.
      split; [apply key_le_refl | lia].
    + destruct j; discriminate.
Qed.

Lemma recorded_step (processed : list (Q * Z)) (best : Best) (cn : Q * Z) :
  recorded X validation seed processed best ->
  is_ok (evaluate_candidate X validation seed (fst cn) (snd cn)) = true ->
  recorded X validation seed (processed ++ [cn])
    (select_step X validation seed best cn).
Proof.
  intros (i & c & n & model & scaler & metrics & Hi & He & -> & Hmax) Hok.
  destruct cn as [c1 n1]. unfold select_step. cbn [fst snd] in *.
  destruct (evaluate_candidate X validation seed c1 n1)
    as [[[model1 scaler1] metrics1]|] eqn:E1; [|discriminate].
  assert (Hi_lt : (i < length processed)%nat)
    by (apply nth_error_Some; congruence).
  unfold keep_best. fold (key_of metrics1). cbn [best_key].
  destruct (key_gt (key_of metrics1) (key_of metrics)) eqn:G.
  - apply key_gt_true in G.
    exists (length processed), c1, n1, model1, scaler1, metrics1.
    split; [rewrite nth_error_app2, Nat.sub_diag by lia; reflexivity|].
    split; [exact E1|]. split; [reflexivity|].
    intros j c' n' model' scaler' metrics' Hj He'.
    destruct (Nat.lt_ge_cases j (length processed)) as [Hlt|Hge].
    + rewrite nth_error_app1 in Hj by exact Hlt.
      destruct (Hmax _ _ _ _ _ _ Hj He') as [Hle _].
      pose proof (key_le_lt_trans _ _ _ Hle G) as Hlt'.
      split; [apply key_lt_le; exact Hlt' | intros _; exact Hlt'].
    + rewrite nth_error_app2 in Hj by exact Hge.
      destruct (j - length processed)%nat as [|k] eqn:Ek;
        [|destruct k; discriminate].
      injection Hj as <- <-. rewrite E1 in He'. injection He' as <- <- <-.
      split; [apply key_le_refl | lia].
  - apply key_gt_false in G.
    exists i, c, n, model, scaler, metrics.
    split; [rewrite nth_error_app1 by exact Hi_lt; exact Hi|].
    split; [exact He|]. split; [reflexivity|].
    intros j c' n' model' scaler' metrics' Hj He'.
    destruct (Nat.lt_ge_cases j (length processed)) as [Hlt|Hge].
    + rewrite nth_error_app1 in Hj by exact Hlt.
      apply (Hmax _ _ _ _ _ _ Hj He').
    + rewrite nth_error_app2 in Hj by exact Hge.
      destruct (j - length processed)%nat as [|k] eqn:Ek;
        [|destruct k; discriminate].
      injection Hj as <- <-. rewrite E1 in He'. injection He' as <- <- <-.
      split; [exact G | lia].
Qed.

Lemma recorded_fold (rest processed : list (Q * Z)) (best : Best) :
  recorded X validation seed processed best ->
  Forall (fun cn =>
            is_ok (evaluate_candidate X validation seed (fst cn) (snd cn)) = true)
         rest ->
  recorded X validation seed (processed ++ rest)
    (fold_left (select_step X validation seed) rest best).
Proof.
  revert processed best. induction rest as [|cn rest IH]; intros processed best Hr Hok.
  - rewrite app_nil_r. exact Hr.
  - inversion Hok as [|? ? Hcn Hrest]; subst.
    cbn [fold_left].
    replace (processed ++ cn :: rest) with ((processed ++ [cn]) ++ rest)
      by (rewrite <- app_assoc; reflexivity).
    apply IH; [apply recorded_step; assumption | exact Hrest].
Qed.

(** On a non-empty list of candidates that all evaluate, the fold of the
    selection ends with the first candidate of greatest key recorded. *)
Lemma recorded_all (cands : list (Q * Z)) :
  cands <> [] ->
  Forall (fun cn =>
            is_ok (evaluate_candidate X validation seed (fst cn) (snd cn)) = true)
         cands ->
  recorded X validation seed cands
    (fold_left (select_step X validation seed) cands best_init).
Proof.
  destruct cands as [|cn rest]; [congruence|]. intros _ Hok.
  inversion Hok as [|? ? Hcn Hrest]; subst.
  cbn [fold_left]. change (cn :: rest) with ([cn] ++ rest).
  apply recorded_fold; [apply recorded_first; exact Hcn | exact Hrest].
Qed.

Lemma in_grid_candidates (cg : list Q) (ng : list Z) (c : Q) (n : Z) :
  In (c, n) (grid_candidates cg ng) <-> In c cg /\ In n ng.
Proof.
  unfold grid_candidates. rewrite in_flat_map. split.
  - intros (c0 & Hc & Hin). apply in_map_iff in Hin.
    destruct Hin as (n0 & Heq & Hn). injection Heq as -> ->. auto.
  - intros [Hc Hn]. exists c. split; [exact Hc|].
    apply in_map_iff. exists n. auto.
Qed.

Lemma grid_candidates_nonempty (cg : list Q) (ng : list Z) :
  cg <> [] -> ng <> [] -> grid_candidates cg ng <> [].
Proof.
  destruct cg as [|c cg]; [congruence|]. destruct ng as [|n ng]; [congruence|].
  discriminate.
Qed.

Lemma grid_candidates_empty (cg : list Q) (ng : list Z) :
  grid_candidates cg ng = [] -> cg = [] \/ ng = [].
Proof.
  destruct cg as [|c cg]; [auto|]. destruct ng as [|n ng]; [auto|].
  discriminate.
Qed.

(** The candidate at position [a * len(ng) + b] pairs the [a]-th
    contamination with the [b]-th ensemble size: contamination is the outer
    loop, ensemble size the inner one. *)
Lemma grid_candidates_position (cg : list Q) (ng : list Z) (a b : nat) c n :
  nth_error cg a = Some c -> nth_error ng b = Some n ->
  nth_error (grid_candidates cg ng) (a * length ng + b) = Some (c, n).
Proof.
  revert a. induction cg as [|c0 cg IH]; intros a Ha Hb.
  - destruct a; discriminate.
  - cbn [grid_candidates flat_map].
    change (flat_map (fun c1 => map (fun n0 => (c1, n0)) ng) cg)
      with (grid_candidates cg ng).
    assert (Hbl : (b < length ng)%nat) by (apply nth_error_Some; congruence).
    destruct a as [|a].
    + injection Ha as ->. cbn [Nat.mul Nat.add].
      rewrite nth_error_app1 by (rewrite length_map; exact Hbl).
      rewrite nth_error_map, Hb. reflexivity.
    + cbn [nth_error] in Ha.
      rewrite nth_error_app2 by (rewrite length_map; simpl; lia).
      rewrite length_map.
      replace (S a * length ng + b - length ng)%nat
        with (a * length ng + b)%nat by (simpl; lia).
      apply IH; assumption.
Qed.

Lemma StronglySorted_app {A : Type} (R : A -> A -> Prop) (l1 l2 : list A) :
  StronglySorted R l1 -> StronglySorted R l2 ->
  (forall x y, In x l1 -> In y l2 -> R x y) ->
  StronglySorted R (l1 ++ l2).
Proof.
  intros H1 H2 H. induction H1 as [|x l1 Hs IH Hx]; [exact H2|].
  cbn [app]. constructor.
  - apply IH. intros a b Ha Hb. apply H; [right; exact Ha | exact Hb].
  - apply Forall_app. split; [exact Hx|].
    apply Forall_forall. intros y Hy. apply H; [left; reflexivity | exact Hy].
Qed.

(** Ascending grids give candidates in ascending lexicographic order. *)
Lemma grid_candidates_sorted (cg : list Q) (ng : list Z) :
  StronglySorted Qlt cg -> StronglySorted Z.lt ng ->
  StronglySorted cand_lt (grid_candidates cg ng).
Proof.
  intros Hc Hn. induction Hc as [|c cg Hs IH Hall]; [constructor|].
  cbn [grid_candidates flat_map]. apply StronglySorted_app.
  - clear IH Hall Hs. induction Hn as [|n ng Hs IHn Hall]; [constructor|].
    cbn [map]. constructor; [exact IHn|].
    apply Forall_forall. intros [c' n'] Hin. apply in_map_iff in Hin.
    destruct Hin as (n0 & Heq & Hin). injection Heq as <- <-.
    right. cbn [fst snd]. split; [reflexivity|].
    rewrite Forall_forall in Hall. apply Hall. exact Hin.
  - exact IH.
  - intros [c1 n1] [c2 n2] H1 H2. apply in_map_iff in H1.
    destruct H1 as (n0 & Heq & _). injection Heq as <- <-.
    apply in_grid_candidates in H2. destruct H2 as [H2 _].
    left. cbn [fst]. rewrite Forall_forall in Hall. apply Hall. exact H2.
Qed.

Lemma accepted_grid_evaluates (cg : list Q) (ng : list Z) :
  (forall c n, In c cg -> In n ng -> library_accepts X validation seed c n) ->
  Forall (fun cn =>
            is_ok (evaluate_candidate X validation seed (fst cn) (snd cn)) = true)
         (grid_candidates cg ng).
Proof.
  intros H. apply Forall_forall. intros [c n] Hin.
  apply in_grid_candidates in Hin. destruct Hin as [Hc Hn].
  apply library_accepts_evaluates. apply H; assumption.
Qed.

(** The run of the loops when every candidate evaluates. *)
Lemma tune_loop_ok (cg : list Q) (ng : list Z) (t : list (Q * Z)) :
  Forall (fun cn =>
            is_ok (evaluate_candidate X validation seed (fst cn) (snd cn)) = true)
         (grid_candidates cg ng) ->
  tune_loop X validation cg ng seed t
  = (t ++ grid_candidates cg ng,
     Ok (fold_left (select_step X validation seed) (grid_candidates cg ng)
           best_init)).
Proof.
  intros H. unfold tune_loop. rewrite tune_loop_flat. apply flat_loop_ok. exact H.
Qed.

(** C1, as the code has it: with non-empty grids and a library that accepts
    every candidate, [tune_iforest] enters the candidates in the order of
    the nested loops: the trace is [grid_candidates], contamination outer,
    ensemble size inner, each grid in the order it is given. That order is
    ascending when the two grids are, as those of [main] are, and not
    otherwise. The call returns the model, scaler, hyperparameters and
    metrics of the candidate at a position [i] whose (precision, F1) key is
    lexicographically greatest; every candidate before [i] has a strictly
    smaller key, so among tied candidates the first one is kept. *)
Theorem tune_iforest_selects_first_greatest
    (normal_train : DataFrame) (cg : list Q) (ng : list Z) :
  cg <> [] -> ng <> [] ->
  make_X normal_train = Ok X ->
  (forall c n, In c cg -> In n ng -> library_accepts X validation seed c n) ->
  (forall a b c n,
     nth_error cg a = Some c -> nth_error ng b = Some n ->
     nth_error (grid_candidates cg ng) (a * length ng + b) = Some (c, n)) /\
  (StronglySorted Qlt cg -> StronglySorted Z.lt ng ->
   StronglySorted cand_lt (grid_candidates cg ng)) /\
  exists i c n model scaler metrics,
    tune_iforest normal_train validation cg ng seed []
    = (grid_candidates cg ng, Ok (model, scaler, (c, n), metrics)) /\
    nth_error (grid_candidates cg ng) i = Some (c, n) /\
    evaluate_candidate X validation seed c n = Ok (model, scaler, metrics) /\
    forall j c' n' model' scaler' metrics',
      nth_error (grid_candidates cg ng) j = Some (c', n') ->
      evaluate_candidate X validation seed c' n' = Ok (model', scaler', metrics') ->
      key_le (key_of metrics') (key_of metrics) /\
      ((j < i)%nat -> key_lt (key_of metrics') (key_of metrics)).
Proof.
  intros Hcg Hng HX Hacc.
  split; [intros a b c n; apply grid_candidates_position|].
  split; [apply grid_candidates_sorted|].
  pose proof (accepted_grid_evaluates cg ng Hacc) as Hok.
  destruct (recorded_all _ (grid_candidates_nonempty cg ng Hcg Hng) Hok)
    as (i & c & n & model & scaler & metrics & Hi & He & Hbest & Hmax).
  exists i, c, n, model, scaler, metrics.
  split; [|split; [exact Hi|split; [exact He|exact Hmax]]].
  unfold tune_iforest, tbind, tlift. rewrite HX.
  rewrite (tune_loop_ok cg ng [] Hok), Hbest. reflexivity.
Qed.


End TunerProofs.

Section TunerFailures.
Import train_nsl_kdd.
Context {SK : Sklearn}.

Lemma flat_loop_ok_inv (X : Matrix) (validation : DataFrame) (seed : Z)
    (cands : list (Q * Z)) (best b : Best) (t t' : list (Q * Z)) :
  for_each cands (flat_body X validation seed) best t = (t', Ok b) ->
  Forall (fun cn =>
            is_ok (evaluate_candidate X validation seed (fst cn) (snd cn)) = true)
         cands.
Proof.
  revert best t. induction cands as [|cn cands IH]; intros best t H.
  - constructor.
  - cbn [for_each] in H. unfold tbind in H.
    destruct (evaluate_candidate X validation seed (fst cn) (snd cn))
      as [r|e0] eqn:E.
    + rewrite (flat_body_ok X validation seed cn best t r E) in H.
      constructor; [rewrite E; reflexivity | apply (IH _ _ H)].
    + rewrite (flat_body_raise X validation seed cn best t e0 E) in H.
      discriminate.
Qed.

Lemma assert_best_raises (best : Best) (e : PyExc) :
  assert_best best = Raise e -> e = AssertionError.
Proof.
  unfold assert_best.
  destruct (best_model best), (best_scaler best), (best_params best),
    (best_metrics best); intros H; congruence.
Qed.

(** C5, as the code has it: [tune_iforest] checks neither emptiness nor
    degeneracy of the training set and raises no exception of its own but
    the [AssertionError] of an empty grid. An exception that leaves it was
    raised by [make_X] on the training frame or by the evaluation of one
    candidate (a library call or [compute_metrics]), or is that
    [AssertionError]. *)
Theorem tune_iforest_raises_only_propagated
    (normal_train validation : DataFrame) (cg : list Q) (ng : list Z)
    (seed : Z) (t t' : list (Q * Z)) (e : PyExc) :
  tune_iforest normal_train validation cg ng seed t = (t', Raise e) ->
  make_X normal_train = Raise e \/
  (exists X c n,
     make_X normal_train = Ok X /\ In c cg /\ In n ng /\
     evaluate_candidate X validation seed c n = Raise e) \/
  (e = AssertionError /\ (cg = [] \/ ng = [])).
Proof.
  unfold tune_iforest, tbind, tlift.
  destruct (make_X normal_train) as [X|e0] eqn:EX.
  - destruct (tune_loop X validation cg ng seed t) as [t1 [best|e1]] eqn:EL.
    + intros H. injection H as _ H. right. right.
      split; [apply (assert_best_raises best e H)|].
      unfold tune_loop in EL. rewrite tune_loop_flat in EL.
      pose proof (flat_loop_ok_inv _ _ _ _ _ _ _ _ EL) as Hok.
      destruct (grid_candidates cg ng) as [|cn rest] eqn:Eg;
        [apply grid_candidates_empty; exact Eg|].
      exfalso.
      assert (Hne : cn :: rest <> []) by discriminate.
      destruct (recorded_all X validation seed _ Hne Hok)
        as (i & c & n & model & scaler & metrics & _ & _ & Hbest & _).
      rewrite (flat_loop_ok X validation seed _ best_init t Hok) in EL.
      injection EL as _ EL. cbn [fold_left] in Hbest.
      rewrite Hbest in EL. subst best. discriminate.
    + intros H. injection H as _ <-. right. left.
      unfold tune_loop in EL. rewrite tune_loop_flat in EL.
      destruct (flat_loop_raise _ _ _ _ _ _ _ _ EL) as ([c n] & Hin & He).
      apply in_grid_candidates in Hin. destruct Hin as [Hc Hn].
      exists X, c, n. auto.
  - intros H. injection H as _ <-. left. reflexivity.
Qed.

End TunerFailures.

Section Determinism.
Import train_nsl_kdd.
Variables SK1 SK2 : Sklearn.
Variables (validation : DataFrame) (seed : Z).
Variable same_scaler : @Scaler SK1 -> @Scaler SK2 -> Prop.
Variable same_forest : @Forest SK1 -> @Forest SK2 -> Prop.
Hypothesis alike : seeded_alike SK1 SK2 seed same_scaler same_forest.

Lemma same_selection_init : same_selection (@best_init SK1) (@best_init SK2).
Proof. repeat split; auto. Qed.

Lemma to_numpy_float_alike (c : Column) :
  to_numpy_float (@float_of_str SK1) c = to_numpy_float (@float_of_str SK2) c.
Proof.
  destruct c as [v|v]; cbn [to_numpy_float]; [reflexivity|].
  induction v as [|x v IH]; cbn [rmapM]; [reflexivity|].
  rewrite (alike_float _ _ _ _ _ alike x), IH. reflexivity.
Qed.

Lemma to_numpy_int_alike (c : Column) :
  to_numpy_int (@int_of_str SK1) c = to_numpy_int (@int_of_str SK2) c.
Proof.
  destruct c as [v|v]; cbn [to_numpy_int]; [reflexivity|].
  induction v as [|x v IH]; cbn [rmapM]; [reflexivity|].
  rewrite (alike_int _ _ _ _ _ alike x), IH. reflexivity.
Qed.

Lemma make_X_alike (df : DataFrame) : @make_X SK1 df = @make_X SK2 df.
Proof.
  unfold make_X. destruct (select df RETINA_FEATURE_COLUMNS) as [sub|e];
    [|reflexivity].
  cbn [rbind].
  assert (H : rmapM (fun kc => to_numpy_float (@float_of_str SK1) (snd kc))
                (columns sub)
              = rmapM (fun kc => to_numpy_float (@float_of_str SK2) (snd kc))
                  (columns sub)).
  { induction (columns sub) as [|kc l IH]; cbn [rmapM]; [reflexivity|].
    rewrite to_numpy_float_alike, IH. reflexivity. }
  rewrite H.
  destruct (rmapM (fun kc => to_numpy_float (@float_of_str SK2) (snd kc))
              (columns sub)) as [X|e]; [|reflexivity].
  cbn [rbind]. f_equal. apply map_ext. intros row. apply map_ext.
  apply (alike_log1p _ _ _ _ _ alike).
Qed.

Lemma is_attack_alike (df : DataFrame) : @is_attack SK1 df = @is_attack SK2 df.
Proof.
  unfold is_attack. destruct (get_col df "is_attack"); [|reflexivity].
  apply to_numpy_int_alike.
Qed.

(** The two runs label the validation rows alike for every candidate: each
    call of the loop body is covered by what the libraries promise, the
    forest being built with the seed. *)
Lemma predict_candidate_alike (X : Matrix) (c : Q) (n : Z) :
  rmap snd (@predict_candidate SK1 X validation seed c n)
  = rmap snd (@predict_candidate SK2 X validation seed c n).
Proof.
  unfold predict_candidate, rmap.
  pose proof (alike_fit_transform _ _ _ _ _ alike X) as Hfit.
  destruct (@fit_transform SK1 X) as [[s1 X1]|e1];
  destruct (@fit_transform SK2 X) as [[s2 X2]|e2];
    cbn [result_rel fst snd] in Hfit; try contradiction;
    [|subst; reflexivity].
  destruct Hfit as [Hs <-]. cbn [rbind].
  pose proof (alike_forest_fit _ _ _ _ _ alike n c X1) as Hforest.
  destruct (@forest_fit SK1 n c seed X1) as [f1|e1];
  destruct (@forest_fit SK2 n c seed X1) as [f2|e2];
    cbn [result_rel] in Hforest; try contradiction;
    [|subst; reflexivity].
  cbn [rbind]. rewrite make_X_alike.
  destruct (@make_X SK2 validation) as [Xv|e]; [|reflexivity]. cbn [rbind].
  rewrite (alike_transform _ _ _ _ _ alike s1 s2 Xv Hs).
  destruct (@transform SK2 s2 Xv) as [Xs|e]; [|reflexivity]. cbn [rbind].
  rewrite (alike_predict _ _ _ _ _ alike f1 f2 Xs Hforest).
  destruct (@predict SK2 f2 Xs); reflexivity.
Qed.

Lemma evaluate_agrees (X : Matrix) (c : Q) (n : Z) :
  rmap snd (@evaluate_candidate SK1 X validation seed c n)
  = rmap snd (@evaluate_candidate SK2 X validation seed c n).
Proof.
  pose proof (predict_candidate_alike X c n) as H.
  unfold evaluate_candidate, rmap in *. rewrite is_attack_alike.
  destruct (@predict_candidate SK1 X validation seed c n)
    as [[[m1 s1] p1]|e1];
  destruct (@predict_candidate SK2 X validation seed c n)
    as [[[m2 s2] p2]|e2]; cbn [rbind snd] in *; try discriminate.
  - injection H as ->.
    destruct (@is_attack SK2 validation) as [y|e]; cbn [rbind]; [|reflexivity].
    destruct (compute_metrics y (outlier_to_attack p2)); reflexivity.
  - injection H as ->. reflexivity.
Qed.

Lemma flat_body_agrees (X : Matrix) (cn : Q * Z)
    (b1 : @Best SK1) (b2 : @Best SK2) (t : list (Q * Z)) :
  same_selection b1 b2 ->
  same_run (@flat_body SK1 X validation seed cn b1 t)
           (@flat_body SK2 X validation seed cn b2 t).
Proof.
  intros Hb. pose proof (evaluate_agrees X (fst cn) (snd cn)) as Hp.
  destruct (@evaluate_candidate SK1 X validation seed (fst cn) (snd cn))
    as [[[m1 s1] r1]|e1] eqn:E1;
  destruct (@evaluate_candidate SK2 X validation seed (fst cn) (snd cn))
    as [[[m2 s2] r2]|e2] eqn:E2; cbn in Hp; try discriminate.
  - injection Hp as ->.
    rewrite (flat_body_ok X validation seed cn b1 t _ E1).
    rewrite (flat_body_ok X validation seed cn b2 t _ E2).
    split; [reflexivity|]. cbn [snd].
    pose proof Hb as (Hk & _).
    unfold keep_best. rewrite Hk.
    destruct (key_gt (precision r2, f1 r2) (best_key b2)).
    + unfold same_selection. cbn.
      repeat split; try reflexivity; intros; discriminate.
    + exact Hb.
  - injection Hp as ->.
    rewrite (flat_body_raise X validation seed cn b1 t _ E1).
    rewrite (flat_body_raise X validation seed cn b2 t _ E2).
    split; reflexivity.
Qed.

Lemma flat_loop_agrees (X : Matrix) (cands : list (Q * Z))
    (b1 : @Best SK1) (b2 : @Best SK2) (t : list (Q * Z)) :
  same_selection b1 b2 ->
  same_run (for_each cands (@flat_body SK1 X validation seed) b1 t)
           (for_each cands (@flat_body SK2 X validation seed) b2 t).
Proof.
  revert b1 b2 t. induction cands as [|cn cands IH]; intros b1 b2 t Hb.
  - split; [reflexivity | exact Hb].
  - cbn [for_each]. unfold tbind.
    pose proof (flat_body_agrees X cn b1 b2 t Hb) as Hrun.
    destruct (@flat_body SK1 X validation seed cn b1 t) as [t1 [b1'|e1]];
    destruct (@flat_body SK2 X validation seed cn b2 t) as [t2 [b2'|e2]];
      destruct Hrun as [Ht Hr]; cbn [fst snd] in Ht, Hr; subst;
      try contradiction.
    + apply IH. exact Hr.
    + split; reflexivity.
Qed.

Lemma assert_best_agrees (b1 : @Best SK1) (b2 : @Best SK2) :
  same_selection b1 b2 ->
  rmap (fun r => (snd (fst r), snd r)) (assert_best b1)
  = rmap (fun r => (snd (fst r), snd r)) (assert_best b2).
Proof.
  intros (_ & Hpar & Hmet & Hmod & Hsc). unfold assert_best.
  rewrite Hpar, Hmet.
  destruct (best_model b1) as [m1|], (best_model b2) as [m2|];
    try (exfalso; destruct Hmod as [H1 H2];
         (discriminate (H1 eq_refl) || discriminate (H2 eq_refl)));
    [|reflexivity].
  destruct (best_scaler b1) as [s1|], (best_scaler b2) as [s2|];
    try (exfalso; destruct Hsc as [H1 H2];
         (discriminate (H1 eq_refl) || discriminate (H2 eq_refl)));
    [|reflexivity].
  destruct (best_params b2), (best_metrics b2); reflexivity.
Qed.

End Determinism.

(** C9: two runs of [tune_iforest] with the same seed, the same training
    and validation frames and the same grids enter the same candidates and
    return the same hyperparameters and the same validation metrics, or
    raise the same exception. The two runs are two executions of the
    libraries, whose fitted objects are different objects; of the libraries
    only their call-by-call guarantee is used: numpy computes the same
    numbers, a scaler fitted on the same matrix transforms alike, and a
    forest built with the integer random state [seed] and fitted on the
    same matrix predicts alike. That the runs agree then rests on the code:
    every forest is built with the seed, every candidate gets a fresh
    scaler, and the selection reads the metrics only. *)
Theorem tune_iforest_deterministic
    (SK1 SK2 : train_nsl_kdd.Sklearn) (seed : Z)
    (same_scaler : @train_nsl_kdd.Scaler SK1 -> @train_nsl_kdd.Scaler SK2 -> Prop)
    (same_forest : @train_nsl_kdd.Forest SK1 -> @train_nsl_kdd.Forest SK2 -> Prop)
    (normal_train validation : DataFrame) (cg : list Q) (ng : list Z) :
  train_nsl_kdd.seeded_alike SK1 SK2 seed same_scaler same_forest ->
  train_nsl_kdd.observable
    (@train_nsl_kdd.tune_iforest SK1 normal_train validation cg ng seed [])
  = train_nsl_kdd.observable
      (@train_nsl_kdd.tune_iforest SK2 normal_train validation cg ng seed []).
Proof.
  intros alike.
  unfold train_nsl_kdd.observable, train_nsl_kdd.tune_iforest,
    train_nsl_kdd.tbind, train_nsl_kdd.tlift.
  rewrite (make_X_alike SK1 SK2 seed same_scaler same_forest alike).
  destruct (@train_nsl_kdd.make_X SK2 normal_train) as [X|e]; [|reflexivity].
  unfold train_nsl_kdd.tune_loop. rewrite !tune_loop_flat.
  pose proof (flat_loop_agrees SK1 SK2 validation seed same_scaler same_forest
                alike X (train_nsl_kdd.grid_candidates cg ng)
                train_nsl_kdd.best_init train_nsl_kdd.best_init []
                (same_selection_init SK1 SK2)) as Hrun.
  destruct (train_nsl_kdd.for_each (train_nsl_kdd.grid_candidates cg ng)
              (@train_nsl_kdd.flat_body SK1 X validation seed)
              train_nsl_kdd.best_init []) as [t1 [b1|e1]];
  destruct (train_nsl_kdd.for_each (train_nsl_kdd.grid_candidates cg ng)
              (@train_nsl_kdd.flat_body SK2 X validation seed)
              train_nsl_kdd.best_init []) as [t2 [b2|e2]];
    destruct Hrun as [Ht Hr]; cbn [fst snd] in Ht, Hr; subst;
    try contradiction.
  - cbn [fst snd]. f_equal. apply (assert_best_agrees SK1 SK2). exact Hr.
  - reflexivity.
Qed.


(** ** The evaluator and the tuner on concrete inputs *)

Section Runs.
Import train_nsl_kdd.

Ltac in_cases H :=
  simpl in H; repeat (destruct H as [<- | H]); try contradiction.

Ltac demo_accepts :=
  let c := fresh "c" in
  let n := fresh "n" in
  let Hc := fresh "Hc" in
  let Hn := fresh "Hn" in
  intros c n Hc Hn; in_cases Hc; in_cases Hn;
  (eexists; eexists;
   split; [vm_compute; reflexivity
          | split; [vm_compute; reflexivity | reflexivity]]).

Lemma compute_metrics_ranges_witness :
  exists m,
    compute_metrics [1; 0; 1; 0; 1] [1; 1; 0; 0; 1] = Ok m /\
    (0 <= precision m <= 1)%Q /\ (0 <= recall m <= 1)%Q /\
    (0 <= f1 m <= 1)%Q /\ true_positive_rate m = recall m.
Proof.
  assert (Ht : binary [1; 0; 1; 0; 1])
    by (unfold binary; repeat (apply Forall_cons; [lia|]); apply Forall_nil).
  assert (Hp : binary [1; 1; 0; 0; 1])
    by (unfold binary; repeat (apply Forall_cons; [lia|]); apply Forall_nil).
  destruct (compute_metrics_ranges [1; 0; 1; 0; 1] [1; 1; 0; 0; 1]
              eq_refl Ht Hp)
    as (m & Hm & _ & _ & _ & _ & _ & _ & _ & _ & Hprec & Hrec & Hf & _ & _ & _
        & _ & _ & _ & _ & Htpr).
  exists m. repeat split; tauto.
Defined.

Example compute_metrics_example :
  compute_metrics [1; 0; 1; 0; 1] [1; 1; 0; 0; 1]
  = Ok (mkMetrics 2 1 1 1 (2 # 3) (2 # 3) (72 # 108) (2 # 3) (1 # 2)).
Proof. vm_compute. reflexivity. Qed.

Lemma compute_metrics_permutation_invariant_witness :
  compute_metrics (np_take [2; 0; 4; 1; 3]%nat [1; 0; 1; 0; 1])
                  (np_take [2; 0; 4; 1; 3]%nat [1; 1; 0; 0; 1])
  = compute_metrics [1; 0; 1; 0; 1] [1; 1; 0; 0; 1].
Proof.
  apply (compute_metrics_permutation_invariant [1; 0; 1; 0; 1] [1; 1; 0; 0; 1]
           [2; 0; 4; 1; 3]%nat).
  - reflexivity.
  - simpl.
    apply (Permutation_cons_app [0; 1]%nat [3; 4]%nat 2%nat).
    apply perm_skip.
    apply (Permutation_cons_app [1; 3]%nat [] 4%nat).
    apply Permutation_refl.
Defined.

(** The run of the tuner on the demonstration frames with the grids of
    [main]: the candidates (0.01, 100), (0.01, 200) and (0.01, 400) tie on
    the greatest key, and the first of them is returned. *)
Example tune_iforest_demo_run :
  observable
    (tune_iforest (SK := demo.library) demo.normal_train demo.validation
       contamination_grid n_estimators_grid 42 [])
  = (grid_candidates contamination_grid n_estimators_grid,
     Ok (((1 # 100)%Q, 100),
         mkMetrics 2 0 2 0 (2 # 2) (2 # 2) (32 # 32) (2 # 2) (0 # 2))).
Proof. vm_compute. reflexivity. Qed.

(** The grids of [main] are ascending, and so is the order in which their
    candidates are entered. *)
Example main_grids_ascending :
  StronglySorted Qlt contamination_grid /\
  StronglySorted Z.lt n_estimators_grid /\
  StronglySorted cand_lt (grid_candidates contamination_grid n_estimators_grid).
Proof.
  assert (Hc : StronglySorted Qlt contamination_grid)
    by (unfold contamination_grid;
        repeat (constructor; [|repeat (constructor; [reflexivity|]);
                                constructor]); constructor).
  assert (Hn : StronglySorted Z.lt n_estimators_grid)
    by (unfold n_estimators_grid;
        repeat (constructor; [|repeat (constructor; [reflexivity|]);
                                constructor]); constructor).
  split; [exact Hc|]. split; [exact Hn|].
  apply grid_candidates_sorted; assumption.
Qed.

Lemma tune_iforest_selects_first_greatest_witness :
  exists i c n model scaler metrics,
    tune_iforest (SK := demo.library) demo.normal_train demo.validation
      contamination_grid n_estimators_grid 42 []
    = (grid_candidates contamination_grid n_estimators_grid,
       Ok (model, scaler, (c, n), metrics)) /\
    nth_error (grid_candidates contamination_grid n_estimators_grid) i
    = Some (c, n) /\
    evaluate_candidate (SK := demo.library) demo.X_train_raw demo.validation 42 c n
    = Ok (model, scaler, metrics) /\
    forall j c' n' model' scaler' metrics',
      nth_error (grid_candidates contamination_grid n_estimators_grid) j
      = Some (c', n') ->
      evaluate_candidate (SK := demo.library) demo.X_train_raw demo.validation 42 c' n'
      = Ok (model', scaler', metrics') ->
      key_le (key_of metrics') (key_of metrics) /\
      ((j < i)%nat -> key_lt (key_of metrics') (key_of metrics)).
Proof.
  refine (proj2 (proj2 (tune_iforest_selects_first_greatest
            (SK := demo.library) demo.X_train_raw demo.validation 42
            demo.normal_train contamination_grid n_estimators_grid
            _ _ _ _))).
  - discriminate.
  - discriminate.
  - reflexivity.
  - demo_accepts.
Defined.

(** C1 as the spec words it fails on the code: the grids are walked as
    given, so on a descending contamination grid the candidates are entered
    with the greater contamination first. *)
Lemma tune_iforest_descending_grid_counterexample :
  fst (tune_iforest (SK := demo.library) demo.normal_train demo.validation
         [2 # 100; 1 # 1000]%Q [100; 200] 42 [])
  = [((2 # 100)%Q, 100); ((2 # 100)%Q, 200);
     ((1 # 1000)%Q, 100); ((1 # 1000)%Q, 200)] /\
  is_ok (snd (tune_iforest (SK := demo.library) demo.normal_train
                demo.validation [2 # 100; 1 # 1000]%Q [100; 200] 42 []))
  = true /\
  ~ StronglySorted cand_lt
      [((2 # 100)%Q, 100); ((2 # 100)%Q, 200);
       ((1 # 1000)%Q, 100); ((1 # 1000)%Q, 200)].
Proof.
  split; [vm_compute; reflexivity|]. split; [vm_compute; reflexivity|].
  intros H. inversion H as [|a l _ Hall]; subst.
  rewrite Forall_forall in Hall.
  destruct (Hall ((1 # 1000)%Q, 100)) as [Hb|[Hb _]];
    [cbn; tauto | |]; cbn in Hb; discriminate Hb.
Qed.


(** C5 fails on the code: on a training set with a single unique value the
    tuner returns a model, and on a training set without rows the only
    exception is the one the scaler raises, a [ValueError]. *)
Lemma tune_iforest_degenerate_counterexample :
  demo.single_unique_value demo.degenerate_train = true /\
  (exists result,
     snd (tune_iforest (SK := demo.library) demo.degenerate_train
            demo.validation contamination_grid n_estimators_grid 42 [])
     = Ok result) /\
  len demo.empty_train = 0%nat /\
  snd (tune_iforest (SK := demo.library) demo.empty_train demo.validation
         contamination_grid n_estimators_grid 42 [])
  = Raise demo.no_rows /\
  exc_class demo.no_rows <> "InsufficientDataError"%string.
Proof.
  split; [reflexivity|]. split; [eexists; vm_compute; reflexivity|].
  split; [reflexivity|]. split; [vm_compute; reflexivity | discriminate].
Qed.

Lemma tune_iforest_raises_only_propagated_witness :
  make_X (SK := demo.library) demo.empty_train = Raise demo.no_rows \/
  (exists X c n,
     make_X (SK := demo.library) demo.empty_train = Ok X /\
     In c contamination_grid /\ In n n_estimators_grid /\
     evaluate_candidate (SK := demo.library) X demo.validation 42 c n = Raise demo.no_rows) \/
  (demo.no_rows = AssertionError /\
   (contamination_grid = [] \/ n_estimators_grid = [])).
Proof.
  apply (tune_iforest_raises_only_propagated (SK := demo.library)
           demo.empty_train demo.validation contamination_grid
           n_estimators_grid 42 [] [((1 # 1000)%Q, 100)] demo.no_rows).
  vm_compute. reflexivity.
Defined.

Lemma tune_iforest_deterministic_witness :
  observable
    (tune_iforest (SK := demo.library) demo.normal_train demo.validation
       contamination_grid n_estimators_grid 42 [])
  = observable
      (tune_iforest (SK := demo.library') demo.normal_train demo.validation
         contamination_grid n_estimators_grid 42 []).
Proof.
  apply (tune_iforest_deterministic demo.library demo.library' 42
           eq (fun threshold forest => threshold = fst forest)).
  constructor.
  - intros x. reflexivity.
  - intros s. reflexivity.
  - intros s. reflexivity.
  - intros X. destruct X as [|row X]; cbn; auto.
  - intros s1 s2 X ->. reflexivity.
  - intros n c X. destruct X as [|row X]; cbn; reflexivity.
  - intros f1 f2 X ->. reflexivity.
Defined.

End Runs.

(** ** The flow preprocessor: prepare_features *)

Section PrepareFeatures.
Import preprocessing.
Variable dtypes : string -> Dtype.

Lemma has_column_assoc (df : DataFrame) (name : string) :
  has_column df name = true <-> exists c, assoc name (columns df) = Some c.
Proof.
  unfold has_column, column_names.
  induction (columns df) as [|[k v] l IH]; cbn [map existsb assoc fst].
  - split; [discriminate | intros [c H]; discriminate].
  - destruct (String.eqb name k); cbn [orb].
    + split; [intros _; exists v; reflexivity | reflexivity].
    + exact IH.
Qed.

Lemma has_column_get_col (df : DataFrame) (name : string) :
  has_column df name = true <-> exists c, get_col df name = Ok c.
Proof.
  rewrite has_column_assoc. unfold get_col.
  destruct (assoc name (columns df)) as [c|].
  - split; intros _; exists c; reflexivity.
  - split; intros [c H]; discriminate.
Qed.

Lemma filter_nil_forall {A : Type} (f : A -> bool) (l : list A) :
  filter f l = [] <-> forall x, In x l -> f x = false.
Proof.
  induction l as [|a l IH]; cbn [filter].
  - split; [intros _ x [] | reflexivity].
  - destruct (f a) eqn:E.
    + split; [discriminate|]. intros H.
      specialize (H a (or_introl eq_refl)). congruence.
    + rewrite IH. split.
      * intros H x [<-|Hx]; [exact E | apply H; exact Hx].
      * intros H x Hx. apply H. right. exact Hx.
Qed.

(** With the eight columns present, [prepare_features] is the selection of
    the eight columns, the encoding of the protocol and the two calls of
    [abs]. *)
Lemma prepare_features_present (df : DataFrame)
    (bi bo pi po du sp dp pr : Column) :
  get_col df "bytes_in" = Ok bi -> get_col df "bytes_out" = Ok bo ->
  get_col df "packets_in" = Ok pi -> get_col df "packets_out" = Ok po ->
  get_col df "duration" = Ok du -> get_col df "src_port" = Ok sp ->
  get_col df "dst_port" = Ok dp -> get_col df "protocol" = Ok pr ->
  prepare_features dtypes df
  = (sp' <- series_abs (dtypes "src_port"%string) sp ;;
     dp' <- series_abs (dtypes "dst_port"%string) dp ;;
     Ok (mkFrame (index df)
           [("bytes_in", bi); ("bytes_out", bo); ("packets_in", pi);
            ("packets_out", po); ("duration", du); ("src_port", sp');
            ("dst_port", dp'); ("protocol", encode_protocol pr)]%string,
         feature_columns)).
Proof.
  intros Hbi Hbo Hpi Hpo Hdu Hsp Hdp Hpr.
  unfold prepare_features.
  assert (Hnone : filter (fun col => negb (has_column df col)) feature_columns
                  = []).
  { apply filter_nil_forall. intros x Hx. apply negb_false_iff.
    apply has_column_get_col. cbn in Hx.
    repeat (destruct Hx as [<-|Hx]; [eexists; eassumption|]). contradiction. }
  rewrite Hnone. unfold select. rewrite Hnone. unfold feature_columns.
  cbn [rmapM]. rewrite Hbi, Hbo, Hpi, Hpo, Hdu, Hsp, Hdp, Hpr. cbn [rbind].
  change (has_column _ "protocol") with true. cbv iota.
  change (get_col _ "protocol") with (Ok pr) at 1. cbn [rbind].
  assert (Hen : fillna 5 (series_map protocol_map pr) = encode_protocol pr).
  { destruct pr as [v|v]; unfold fillna, series_map, encode_protocol;
      rewrite map_map; reflexivity. }
  rewrite Hen.
  destruct sp as [v|[|x v]]; destruct dp as [w|[|y w]]; reflexivity.
Qed.


Lemma absent_column_filter (df : DataFrame) :
  (exists col, In col feature_columns /\ has_column df col = false) <->
  filter (fun col => negb (has_column df col)) feature_columns <> [].
Proof.
  split.
  - intros (col & Hin & Hcol) Hnil.
    rewrite filter_nil_forall in Hnil. specialize (Hnil col Hin).
    rewrite Hcol in Hnil. discriminate.
  - intros H.
    destruct (filter (fun col => negb (has_column df col)) feature_columns)
      as [|col l] eqn:E; [congruence|].
    assert (Hin : In col (filter (fun col => negb (has_column df col))
                            feature_columns)) by (rewrite E; left; reflexivity).
    apply filter_In in Hin. destruct Hin as [Hin Hc].
    exists col. split; [exact Hin | apply negb_true_iff; exact Hc].
Qed.



End PrepareFeatures.

Section PrepareFeaturesRuns.
Import preprocessing.



Example prepare_features_example :
  prepare_features (fun _ => int64) demo.flows
  = Ok (mkFrame [0; 1; 2; 3]
          [("bytes_in", NumCol [100; 2000; 30; 4]);
           ("bytes_out", NumCol [10; 20; 30; 40]);
           ("packets_in", NumCol [1; 2; 3; 4]);
           ("packets_out", NumCol [4; 3; 2; 1]);
           ("duration", NumCol [1 # 2; 3 # 2; 5; 7]);
           ("src_port", NumCol [80; 443; 53; 1]);
           ("dst_port", NumCol [8080; 22; 0; 65535]);
           ("protocol", NumCol [1; 5; 5; 3])]%string%Q,
        feature_columns).
Proof. vm_compute. reflexivity. Qed.

End PrepareFeaturesRuns.

(** ** The flow preprocessor: detect_feature_outliers *)

Section Outliers.
Import preprocessing.

Lemma mask_filter_length {A : Type} (mask : list bool) (a : list A) :
  (length (mask_filter mask a) <= length a)%nat.
Proof.
  revert a. induction mask as [|m mask IH]; intros [|x a]; cbn; try lia.
  specialize (IH a). destruct m; cbn; lia.
Qed.

Lemma row_filter_len (mask : list bool) (df : DataFrame) :
  (len (row_filter mask df) <= len df)%nat.
Proof. unfold len, row_filter. cbn. apply mask_filter_length. Qed.

Lemma outlier_step_len (threshold : Q)
    (st : DataFrame * list (string * FeatureOutliers)) (column : string) :
  (len (fst (outlier_step threshold st column)) <= len (fst st))%nat.
Proof.
  destruct st as [df acc]. unfold outlier_step. cbn [fst].
  destruct (assoc column (columns df)) as [[v|v]|]; cbn [fst]; try lia.
  destruct (Qle_bool 3 threshold); cbn [fst]; [apply row_filter_len | lia].
Qed.

Lemma outlier_fold_len (threshold : Q) (names : list string)
    (st : DataFrame * list (string * FeatureOutliers)) :
  (len (fst (fold_left (outlier_step threshold) names st)) <= len (fst st))%nat.
Proof.
  revert st. induction names as [|c names IH]; intros st; cbn [fold_left].
  - lia.
  - specialize (IH (outlier_step threshold st c)).
    pose proof (outlier_step_len threshold st c). lia.
Qed.

Lemma outlier_step_below (threshold : Q)
    (st : DataFrame * list (string * FeatureOutliers)) (column : string) :
  Qle_bool 3 threshold = false ->
  fst (outlier_step threshold st column) = fst st.
Proof.
  intros H. destruct st as [df acc]. unfold outlier_step. cbn [fst].
  destruct (assoc column (columns df)) as [[v|v]|]; cbn [fst]; try reflexivity.
  rewrite H. reflexivity.
Qed.

Lemma outlier_fold_below (threshold : Q) (names : list string)
    (st : DataFrame * list (string * FeatureOutliers)) :
  Qle_bool 3 threshold = false ->
  fst (fold_left (outlier_step threshold) names st) = fst st.
Proof.
  intros H. revert st. induction names as [|c names IH]; intros st;
    cbn [fold_left]; [reflexivity|].
  rewrite IH. apply outlier_step_below. exact H.
Qed.

(** At a threshold of 3 or more, one iteration on a numeric column keeps
    exactly the rows whose value lies within the bounds computed from the
    frame as it is at that iteration. *)
Lemma outlier_step_removes (threshold : Q) (df : DataFrame)
    (acc : list (string * FeatureOutliers)) (column : string) (v : list Q)
    (lower upper : Q) :
  (3 <= threshold)%Q ->
  assoc column (columns df) = Some (NumCol v) ->
  bounds threshold v = Some (lower, upper) ->
  fst (outlier_step threshold (df, acc) column)
  = row_filter (map (fun x => Qle_bool lower x && Qle_bool x upper) v) df.
Proof.
  intros Ht Hc Hb. unfold outlier_step. rewrite Hc.
  apply Qle_bool_iff in Ht. rewrite Ht. cbn [fst].
  unfold outlier_mask. rewrite Hb. rewrite map_map. f_equal.
  apply map_ext. intros x. unfold Qltb.
  rewrite negb_orb, !negb_involutive. reflexivity.
Qed.

(** On a frame with at least one row, [detect_feature_outliers] returns a
    frame with no more rows than its input, the very input when the
    threshold is below 3, and reports the number of removed rows. *)
Lemma detect_feature_outliers_rows (df : DataFrame) (threshold : Q) :
  len df <> 0%nat ->
  exists cleaned stats,
    detect_feature_outliers df threshold = Ok (cleaned, stats) /\
    cleaned = fst (fold_left (outlier_step threshold) (column_names df) (df, [])) /\
    (len cleaned <= len df)%nat /\
    ((threshold < 3)%Q -> cleaned = df) /\
    total_outliers stats = Z.of_nat (len df) - Z.of_nat (len cleaned).
Proof.
  intros Hne. unfold detect_feature_outliers.
  pose proof (outlier_fold_len threshold (column_names df) (df, [])) as Hlen.
  pose proof (outlier_fold_below threshold (column_names df) (df, [])) as Hbelow.
  destruct (fold_left (outlier_step threshold) (column_names df) (df, []))
    as [cleaned acc].
  cbn [fst] in Hlen, Hbelow.
  apply Nat.eqb_neq in Hne. rewrite Hne.
  eexists. eexists. split; [reflexivity|].
  split; [reflexivity|]. split; [exact Hlen|]. split; [|reflexivity].
  intros Hlt. apply Hbelow.
  destruct (Qle_bool 3 threshold) eqn:E; [|reflexivity].
  apply Qle_bool_iff in E. lra.
Qed.

Lemma detect_feature_outliers_zero_rows (df : DataFrame) (threshold : Q) :
  len df = 0%nat ->
  detect_feature_outliers df threshold = Raise ZeroDivisionError.
Proof.
  intros H. unfold detect_feature_outliers. rewrite H.
  destruct (fold_left (outlier_step threshold) (column_names df) (df, []))
    as [cleaned acc].
  reflexivity.
Qed.

(** C3, where the code departs from it: on a frame without rows the
    function returns no frame at all; the quotient by [initial_rows] that
    computes [removal_percentage] raises [ZeroDivisionError], at any
    threshold. *)
Theorem detect_feature_outliers_no_rows (threshold : Q) :
  len demo.no_flows = 0%nat /\
  detect_feature_outliers demo.no_flows threshold = Raise ZeroDivisionError.
Proof.
  split; [reflexivity|].
  apply detect_feature_outliers_zero_rows. reflexivity.
Qed.

Example detect_feature_outliers_example :
  rmap (fun r => (fst r, total_outliers (snd r)))
    (detect_feature_outliers demo.flows_with_outlier 3)
  = Ok (mkFrame [0; 1; 2; 3; 4]
          [("bytes_in", NumCol [10; 12; 11; 13; 12]);
           ("duration", NumCol [1; 2; 1; 2; 1])]%string%Q, 1) /\
  rmap (fun r => (fst r, total_outliers (snd r)))
    (detect_feature_outliers demo.flows_with_outlier (5 # 2))
  = Ok (demo.flows_with_outlier, 0).
Proof. split; vm_compute; reflexivity. Qed.

End Outliers.

(** ** The flow preprocessor: tune_contamination_parameter *)

Section ContaminationTuning.
Import preprocessing.
Context {CV : CrossVal}.
Variables (cfg : Config) (df : DataFrame).

Lemma tune_step_skips (st : Q * Q * list (Q * Q)) (c : Q) (e : PyExc) :
  score_candidate cfg df c = Raise e -> tune_step cfg df st c = st.
Proof.
  intros H. unfold tune_step. destruct st as [[bc bs] sc]. rewrite H.
  reflexivity.
Qed.

(** The loop over all candidates is the loop over those whose scoring does
    not raise. *)
Lemma tune_fold_skips (values : list Q) (st : Q * Q * list (Q * Q)) :
  fold_left (tune_step cfg df) values st
  = fold_left (tune_step cfg df)
      (filter (fun c => is_ok (score_candidate cfg df c)) values) st.
Proof.
  revert st. induction values as [|c values IH]; intros st; [reflexivity|].
  cbn [fold_left filter].
  destruct (score_candidate cfg df c) as [m|e] eqn:E; cbn [is_ok].
  - cbn [fold_left]. apply IH.
  - rewrite (tune_step_skips st c e E). apply IH.
Qed.

(** What the loop maintains: the best contamination is the range minimum
    with the initial score 0, or a candidate whose score is the best score
    and is positive. *)
Lemma tune_fold_invariant (lo : Q) (values seen : list Q)
    (st : Q * Q * list (Q * Q)) :
  (forall c, In c seen -> In c values) ->
  (fst (fst st) = lo /\ snd (fst st) = 0%Q \/
   In (fst (fst st)) values /\
   score_candidate cfg df (fst (fst st)) = Ok (snd (fst st)) /\
   (0 < snd (fst st))%Q) ->
  let st' := fold_left (tune_step cfg df) seen st in
  fst (fst st') = lo /\ snd (fst st') = 0%Q \/
  In (fst (fst st')) values /\
  score_candidate cfg df (fst (fst st')) = Ok (snd (fst st')) /\
  (0 < snd (fst st'))%Q.
Proof.
  revert st. induction seen as [|c seen IH]; intros st Hin Hst;
    cbn [fold_left]; [exact Hst|].
  apply IH; [intros c' Hc'; apply Hin; right; exact Hc'|].
  destruct st as [[bc bs] sc]. cbn [fst snd] in Hst. unfold tune_step.
  destruct (score_candidate cfg df c) as [m|e] eqn:E; [|exact Hst].
  destruct (Qltb bs m) eqn:L; cbn [fst snd]; [|exact Hst].
  apply Qltb_true in L. right.
  split; [apply Hin; left; reflexivity|]. split; [exact E|].
  destruct Hst as [[_ ->]|(_ & _ & Hpos)]; lra.
Qed.

(** When no score is positive the loop leaves the initial pair alone. *)
Lemma tune_fold_never_beaten (values : list Q) (lo : Q) (sc : list (Q * Q)) :
  (forall c m, In c values -> score_candidate cfg df c = Ok m -> (m <= 0)%Q) ->
  exists sc', fold_left (tune_step cfg df) values (lo, 0%Q, sc) = (lo, 0%Q, sc').
Proof.
  revert sc. induction values as [|c values IH]; intros sc H; cbn [fold_left].
  - exists sc. reflexivity.
  - assert (Hrest : forall c m, In c values ->
                      score_candidate cfg df c = Ok m -> (m <= 0)%Q)
      by (intros c' m' Hc'; apply H; right; exact Hc').
    unfold tune_step at 2.
    destruct (score_candidate cfg df c) as [m|e] eqn:E.
    + assert (Hm : (m <= 0)%Q) by (apply (H c m); [left; reflexivity | exact E]).
      apply Qltb_false in Hm. rewrite Hm. apply IH. exact Hrest.
    + apply IH. exact Hrest.
Qed.

Lemma linspace_point_range (a b s : Q) (k : Z) :
  (0 <= s)%Q -> (9 * s == b - a)%Q -> 0 <= k <= 9 ->
  (a <= inject_Z k * s + a <= b)%Q.
Proof.
  intros Hs H9 [Hk0 Hk9].
  assert (H0 : (0 <= inject_Z k)%Q)
    by (change 0%Q with (inject_Z 0); rewrite <- Zle_Qle; exact Hk0).
  assert (H1 : (inject_Z k <= 9)%Q)
    by (change 9%Q with (inject_Z 9); rewrite <- Zle_Qle; exact Hk9).
  split; nra.
Qed.

Lemma np_linspace_10_range (a b x : Q) :
  (a <= b)%Q -> In x (np_linspace a b 10) -> (a <= x <= b)%Q.
Proof.
  intros Hab Hx. unfold np_linspace in Hx. cbn [seq map app] in Hx.
  remember ((b - a) / inject_Z (Z.of_nat 9))%Q as s eqn:Es.
  assert (H9 : (9 * s == b - a)%Q).
  { rewrite Es. change (inject_Z (Z.of_nat 9)) with 9%Q. field. }
  assert (Hs : (0 <= s)%Q) by lra.
  cbn [In] in Hx.
  repeat (destruct Hx as [<-|Hx];
          [first [apply linspace_point_range; [exact Hs | exact H9 | cbn; lia]
                 | lra]|]).
  contradiction.
Qed.

Lemma linspace_point_range_down (a b s : Q) (k : Z) :
  (s <= 0)%Q -> (9 * s == b - a)%Q -> 0 <= k <= 9 ->
  (b <= inject_Z k * s + a <= a)%Q.
Proof.
  intros Hs H9 [Hk0 Hk9].
  assert (H0 : (0 <= inject_Z k)%Q)
    by (change 0%Q with (inject_Z 0); rewrite <- Zle_Qle; exact Hk0).
  assert (H1 : (inject_Z k <= 9)%Q)
    by (change 9%Q with (inject_Z 9); rewrite <- Zle_Qle; exact Hk9).
  split; nra.
Qed.

(** On a range given with its ends exchanged the samples descend from the
    first end to the second. *)
Lemma np_linspace_10_range_down (a b x : Q) :
  (b <= a)%Q -> In x (np_linspace a b 10) -> (b <= x <= a)%Q.
Proof.
  intros Hab Hx. unfold np_linspace in Hx. cbn [seq map app] in Hx.
  remember ((b - a) / inject_Z (Z.of_nat 9))%Q as s eqn:Es.
  assert (H9 : (9 * s == b - a)%Q).
  { rewrite Es. change (inject_Z (Z.of_nat 9)) with 9%Q. field. }
  assert (Hs : (s <= 0)%Q) by lra.
  cbn [In] in Hx.
  repeat (destruct Hx as [<-|Hx];
          [first [apply linspace_point_range_down;
                    [exact Hs | exact H9 | cbn; lia]
                 | lra]|]).
  contradiction.
Qed.

Lemma tune_result_fold :
  fst (tune_contamination_parameter cfg df)
  = fst (fst (tune_over cfg df
                (np_linspace (fst (contamination_range cfg))
                   (snd (contamination_range cfg)) 10))).
Proof.
  unfold tune_contamination_parameter.
  destruct (contamination_range cfg) as [lo hi] eqn:E. cbn [fst snd].
  destruct (tune_over cfg df (np_linspace lo hi 10)) as [[bc bs] sc].
  reflexivity.
Qed.

Lemma tune_step_score_grows (st : Q * Q * list (Q * Q)) (c : Q) :
  (snd (fst st) <= snd (fst (tune_step cfg df st c)))%Q /\
  (forall m, score_candidate cfg df c = Ok m ->
             (m <= snd (fst (tune_step cfg df st c)))%Q).
Proof.
  destruct st as [[bc bs] sc]. unfold tune_step. cbn [fst snd].
  destruct (score_candidate cfg df c) as [m|e]; cbn [fst snd].
  - destruct (Qltb bs m) eqn:E; cbn [fst snd].
    + apply Qltb_true in E. split; [lra|]. intros m' H. injection H as <-.
      apply Qle_refl.
    + apply Qltb_false in E. split; [apply Qle_refl|].
      intros m' H. injection H as <-. exact E.
  - split; [apply Qle_refl | discriminate].
Qed.

Lemma tune_fold_score_grows (values : list Q) (st : Q * Q * list (Q * Q)) :
  (snd (fst st) <= snd (fst (fold_left (tune_step cfg df) values st)))%Q.
Proof.
  revert st. induction values as [|c values IH]; intros st; cbn [fold_left].
  - apply Qle_refl.
  - apply Qle_trans with (snd (fst (tune_step cfg df st c))).
    + apply (proj1 (tune_step_score_grows st c)).
    + apply IH.
Qed.

Lemma tune_fold_highest (values : list Q) (st : Q * Q * list (Q * Q)) :
  forall c m, In c values -> score_candidate cfg df c = Ok m ->
              (m <= snd (fst (fold_left (tune_step cfg df) values st)))%Q.
Proof.
  revert st. induction values as [|c0 values IH]; intros st c m Hin Hs;
    [destruct Hin|].
  cbn [fold_left]. destruct Hin as [->|Hin].
  - apply Qle_trans with (snd (fst (tune_step cfg df st c))).
    + apply (proj2 (tune_step_score_grows st c) m Hs).
    + apply tune_fold_score_grows.
  - apply (IH _ c m Hin Hs).
Qed.

Lemma tune_result_state :
  exists sc,
    tune_over cfg df
      (np_linspace (fst (contamination_range cfg))
         (snd (contamination_range cfg)) 10)
    = (fst (tune_contamination_parameter cfg df),
       best_score (snd (tune_contamination_parameter cfg df)), sc) /\
    best_contamination (snd (tune_contamination_parameter cfg df))
    = fst (tune_contamination_parameter cfg df) /\
    scores (snd (tune_contamination_parameter cfg df)) = sc.
Proof.
  unfold tune_contamination_parameter.
  destruct (contamination_range cfg) as [lo hi]. cbn [fst snd].
  destruct (tune_over cfg df (np_linspace lo hi 10)) as [[bc bs] sc].
  exists sc. cbn. auto.
Qed.

(** Assignments to the dictionary of scores: the key written is the
    candidate, up to the equality of floats; the other entries keep their
    keys. *)
Lemma dict_set_In (c v k m : Q) (d : list (Q * Q)) :
  In (k, m) (dict_set c v d) -> ((k == c)%Q /\ m = v) \/ In (k, m) d.
Proof.
  induction d as [|[k' v'] d IH]; cbn [dict_set].
  - intros [H|[]]. injection H as <- <-. left. split; reflexivity.
  - destruct (Qeq_bool c k') eqn:E.
    + intros [H|H].
      * injection H as <- <-. left. apply Qeq_bool_iff in E.
        split; [symmetry; exact E | reflexivity].
      * right. right. exact H.
    + intros [H|H]; [right; left; exact H|].
      destruct (IH H) as [Hl|Hr]; [left; exact Hl | right; right; exact Hr].
Qed.

Lemma dict_set_has (c v : Q) (d : list (Q * Q)) :
  exists k, In (k, v) (dict_set c v d) /\ (k == c)%Q.
Proof.
  induction d as [|[k' v'] d IH]; cbn [dict_set].
  - exists c. split; [left; reflexivity | reflexivity].
  - destruct (Qeq_bool c k') eqn:E.
    + exists k'. apply Qeq_bool_iff in E.
      split; [left; reflexivity | symmetry; exact E].
    + destruct IH as (k & Hin & Hk). exists k. split; [right; exact Hin | exact Hk].
Qed.

Lemma dict_set_keeps (c v k m : Q) (d : list (Q * Q)) :
  In (k, m) d -> exists m', In (k, m') (dict_set c v d).
Proof.
  induction d as [|[k' v'] d IH]; cbn [dict_set]; [intros []|].
  destruct (Qeq_bool c k') eqn:E.
  - intros [H|H].
    + injection H as <- <-. exists v. left. reflexivity.
    + exists m. right. exact H.
  - intros [H|H].
    + exists m. left. exact H.
    + destruct (IH H) as [m' Hm']. exists m'. right. exact Hm'.
Qed.

(** One iteration keeps the dictionary of scores in step with the
    candidates seen: its entries are scores of candidates that were scored,
    and every candidate that was scored has an entry. *)
Lemma tune_step_scores (seen : list Q) (st : Q * Q * list (Q * Q)) (c : Q) :
  ((forall k m, In (k, m) (snd st) ->
      exists c', In c' seen /\ (k == c')%Q /\
                 score_candidate cfg df c' = Ok m) /\
   (forall c' m, In c' seen -> score_candidate cfg df c' = Ok m ->
      exists k m', In (k, m') (snd st) /\ (k == c')%Q)) ->
  (forall k m, In (k, m) (snd (tune_step cfg df st c)) ->
     exists c', In c' (seen ++ [c]) /\ (k == c')%Q /\
                score_candidate cfg df c' = Ok m) /\
  (forall c' m, In c' (seen ++ [c]) -> score_candidate cfg df c' = Ok m ->
     exists k m', In (k, m') (snd (tune_step cfg df st c)) /\ (k == c')%Q).
Proof.
  destruct st as [[bc bs] sc]. cbn [snd]. intros [H1 H2]. unfold tune_step.
  destruct (score_candidate cfg df c) as [m0|e] eqn:E.
  - assert (Hsc : snd (if Qltb bs m0
                       then (c, m0, dict_set c m0 sc)
                       else (bc, bs, dict_set c m0 sc))
                  = dict_set c m0 sc)
      by (destruct (Qltb bs m0); reflexivity).
    rewrite Hsc. split.
    + intros k m Hin. apply dict_set_In in Hin.
      destruct Hin as [[Hk ->]|Hin].
      * exists c. split; [apply in_or_app; right; left; reflexivity|].
        split; [exact Hk | exact E].
      * destruct (H1 k m Hin) as (c' & Hc' & Hk & Hs).
        exists c'. split; [apply in_or_app; left; exact Hc'|]. auto.
    + intros c' m Hin Hs. apply in_app_or in Hin.
      destruct Hin as [Hin|[<-|[]]].
      * destruct (H2 c' m Hin Hs) as (k & m' & Hk & Hkc).
        destruct (dict_set_keeps c m0 k m' sc Hk) as [m'' Hm''].
        exists k, m''. split; [exact Hm'' | exact Hkc].
      * destruct (dict_set_has c m0 sc) as (k & Hk & Hkc).
        exists k, m0. split; [exact Hk | exact Hkc].
  - cbn [snd]. split.
    + intros k m Hin. destruct (H1 k m Hin) as (c' & Hc' & Hk & Hs).
      exists c'. split; [apply in_or_app; left; exact Hc'|]. auto.
    + intros c' m Hin Hs. apply in_app_or in Hin.
      destruct Hin as [Hin|[<-|[]]]; [exact (H2 c' m Hin Hs) | congruence].
Qed.

Lemma tune_fold_scores (values seen : list Q) (st : Q * Q * list (Q * Q)) :
  ((forall k m, In (k, m) (snd st) ->
      exists c', In c' seen /\ (k == c')%Q /\
                 score_candidate cfg df c' = Ok m) /\
   (forall c' m, In c' seen -> score_candidate cfg df c' = Ok m ->
      exists k m', In (k, m') (snd st) /\ (k == c')%Q)) ->
  (forall k m, In (k, m) (snd (fold_left (tune_step cfg df) values st)) ->
     exists c', In c' (seen ++ values) /\ (k == c')%Q /\
                score_candidate cfg df c' = Ok m) /\
  (forall c' m, In c' (seen ++ values) -> score_candidate cfg df c' = Ok m ->
     exists k m', In (k, m') (snd (fold_left (tune_step cfg df) values st)) /\
                  (k == c')%Q).
Proof.
  revert seen st. induction values as [|c values IH]; intros seen st H;
    cbn [fold_left].
  - rewrite app_nil_r. exact H.
  - replace (seen ++ c :: values) with ((seen ++ [c]) ++ values)
      by (rewrite <- app_assoc; reflexivity).
    apply IH. apply tune_step_scores. exact H.
Qed.

(** C6: [tune_contamination_parameter] skips a candidate whose scoring
    raises and goes on with the remaining ones: every sampled candidate
    whose scoring returns takes part, wherever it stands among those that
    raise: its score is recorded and none exceeds the best score that is
    reported; the recorded scores are scores of candidates that were
    scored, a raise leaving no entry. A best score above the initial 0.0 is
    the score of the returned candidate. When no candidate scores above
    0.0 the function returns the minimum of the configured range. The
    returned value is that minimum or a sampled candidate that scored above
    0.0, and it lies between the two ends of the configured range,
    whichever of them is the smaller. *)
Theorem tune_contamination_parameter_fallback :
  let lo := fst (contamination_range cfg) in
  let hi := snd (contamination_range cfg) in
  let values := np_linspace lo hi 10 in
  let best := fst (tune_contamination_parameter cfg df) in
  let stats := snd (tune_contamination_parameter cfg df) in
  (forall c m, In c values -> score_candidate cfg df c = Ok m ->
     (m <= best_score stats)%Q /\
     exists k m', In (k, m') (scores stats) /\ (k == c)%Q) /\
  (forall k m, In (k, m) (scores stats) ->
     exists c, In c values /\ (k == c)%Q /\ score_candidate cfg df c = Ok m) /\
  ((0 < best_score stats)%Q ->
   In best values /\ score_candidate cfg df best = Ok (best_score stats)) /\
  ((forall c m, In c values -> score_candidate cfg df c = Ok m -> (m <= 0)%Q) ->
   best = lo) /\
  (best = lo \/
   exists m, In best values /\ score_candidate cfg df best = Ok m /\ (0 < m)%Q) /\
  ((lo <= hi)%Q -> (lo <= best <= hi)%Q) /\
  ((hi <= lo)%Q -> (hi <= best <= lo)%Q).
Proof.
  intros lo hi values best stats.
  destruct tune_result_state as (sc & Hstate & _ & Hsc).
  fold lo hi values best stats in Hstate, Hsc. unfold tune_over in Hstate.
  fold lo in Hstate.
  pose proof (tune_fold_highest values (lo, 0%Q, [])) as Hhigh.
  pose proof (tune_fold_scores values [] (lo, 0%Q, [])) as Hrec.
  pose proof (tune_fold_invariant lo values values (lo, 0%Q, [])
                (fun _ H => H) (or_introl (conj eq_refl eq_refl))) as Hinv.
  cbv zeta in Hinv. rewrite Hstate in Hhigh, Hrec, Hinv.
  cbn [fst snd app] in Hhigh, Hrec, Hinv. rewrite Hsc.
  destruct Hrec as [Hrec1 Hrec2].
  { split; [intros k m []|intros c' m []]. }
  assert (Hcase : best = lo \/
            exists m, In best values /\ score_candidate cfg df best = Ok m /\
                      (0 < m)%Q).
  { destruct Hinv as [[H _]|(H1 & H2 & H3)]; [left; exact H|].
    right. eexists. split; [exact H1|]. split; [exact H2 | exact H3]. }
  split; [|split; [exact Hrec1|split; [|split; [|split; [exact Hcase|split]]]]].
  - intros c m Hin Hs. split; [exact (Hhigh c m Hin Hs)|].
    exact (Hrec2 c m Hin Hs).
  - intros Hpos. destruct Hinv as [[_ H0]|(H1 & H2 & _)].
    + rewrite H0 in Hpos. exfalso. revert Hpos. apply Qlt_irrefl.
    + split; assumption.
  - intros Hnone. destruct Hinv as [[H _]|(H1 & H2 & H3)]; [exact H|].
    exfalso. apply (Qlt_not_le _ _ H3). apply (Hnone best _ H1 H2).
  - intros Hrange. destruct Hcase as [->|(m & Hin & _ & _)].
    + split; [apply Qle_refl | exact Hrange].
    + apply np_linspace_10_range; assumption.
  - intros Hrange. destruct Hcase as [->|(m & Hin & _ & _)].
    + split; [exact Hrange | apply Qle_refl].
    + apply np_linspace_10_range_down; assumption.
Qed.

End ContaminationTuning.

Section ContaminationRuns.
Import preprocessing.

Lemma tune_contamination_parameter_fallback_witness :
  fst (tune_contamination_parameter (CV := demo.failing_cross_val) demo.cfg
         demo.flows)
  = (1 # 100)%Q /\
  ((1 # 100)
   <= fst (tune_contamination_parameter (CV := demo.scoring_cross_val) demo.cfg
             demo.flows)
   <= (1 # 10))%Q /\
  score_candidate (CV := demo.late_cross_val) demo.cfg demo.flows
    (fst (tune_contamination_parameter (CV := demo.late_cross_val) demo.cfg
            demo.flows))
  = Ok (best_score
          (snd (tune_contamination_parameter (CV := demo.late_cross_val)
                  demo.cfg demo.flows))).
Proof.
  split; [|split].
  - apply (proj1 (proj2 (proj2 (proj2
             (tune_contamination_parameter_fallback
                (CV := demo.failing_cross_val) demo.cfg demo.flows))))).
    intros c m Hin Hs. cbn in Hin.
    repeat (destruct Hin as [<-|Hin];
            [vm_compute in Hs;
             first [discriminate Hs
                   | injection Hs as <-; unfold Qle; simpl; lia]|]).
    contradiction.
  - apply (proj1 (proj2 (proj2 (proj2 (proj2 (proj2
             (tune_contamination_parameter_fallback
                (CV := demo.scoring_cross_val) demo.cfg demo.flows))))))).
    unfold Qle. simpl. lia.
  - apply (proj1 (proj2 (proj2
             (tune_contamination_parameter_fallback
                (CV := demo.late_cross_val) demo.cfg demo.flows)))).
    vm_compute. reflexivity.
Defined.

(** The first candidates raise and the loop goes on: the greatest of the
    scores that follow is selected, here that of the range maximum, and
    only the candidates that were scored are recorded. *)
Example tune_contamination_parameter_continues :
  (fst (tune_contamination_parameter (CV := demo.late_cross_val) demo.cfg
          demo.flows)
   == 1 # 10)%Q /\
  length (scores (snd (tune_contamination_parameter
                         (CV := demo.late_cross_val) demo.cfg demo.flows)))
  = 6%nat.
Proof. vm_compute. split; reflexivity. Qed.

(** With scores above zero the candidate of greatest score is returned:
    here the sampled point 0.05. *)
Example tune_contamination_parameter_example :
  fst (tune_contamination_parameter (CV := demo.scoring_cross_val) demo.cfg
         demo.flows)
  == 1 # 20.
Proof. vm_compute. reflexivity. Qed.

End ContaminationRuns.

(** ** The explainer: explain_anomaly *)

Section Explainer.
Import model_manager.

Lemma insert_ranked_perm (x : string * Q) (l : list (string * Q)) :
  Permutation (insert_ranked x l) (x :: l).
Proof.
  induction l as [|y l IH]; cbn [insert_ranked]; [apply Permutation_refl|].
  destruct (Qltb (Qabs (snd x)) (Qabs (snd y))).
  - apply perm_trans with (y :: x :: l); [apply perm_skip; exact IH|].
    apply perm_swap.
  - apply Permutation_refl.
Qed.

Lemma rank_perm (l : list (string * Q)) : Permutation (rank l) l.
Proof.
  unfold rank. induction l as [|x l IH]; cbn [fold_right]; [constructor|].
  apply perm_trans with (x :: fold_right insert_ranked [] l).
  - apply insert_ranked_perm.
  - apply perm_skip. exact IH.
Qed.

Lemma insert_ranked_sorted (x : string * Q) (l : list (string * Q)) :
  StronglySorted ranked_before l ->
  StronglySorted ranked_before (insert_ranked x l).
Proof.
  induction 1 as [|y l Hs IH Hy]; cbn [insert_ranked].
  - constructor; constructor.
  - destruct (Qltb (Qabs (snd x)) (Qabs (snd y))) eqn:E.
    + apply Qltb_true in E. constructor; [exact IH|].
      apply (Permutation_Forall (Permutation_sym (insert_ranked_perm x l))).
      constructor; [unfold ranked_before; lra | exact Hy].
    + apply Qltb_false in E. constructor.
      * constructor; assumption.
      * constructor; [exact E|].
        apply Forall_impl with (P := ranked_before y); [|exact Hy].
        intros z Hz. unfold ranked_before in *. lra.
Qed.

Lemma rank_sorted (l : list (string * Q)) : StronglySorted ranked_before (rank l).
Proof.
  unfold rank. induction l as [|x l IH]; cbn [fold_right]; [constructor|].
  apply insert_ranked_sorted. exact IH.
Qed.

(** The z-scores are those of the features that the scaler and the record
    share. *)
Lemma z_scores_in (features : list string) (mean scale : list Q) (record : Flow)
    (f : string) (z : Q) :
  In (f, z) (z_scores features mean scale record) <->
  exists i value m s,
    nth_error features i = Some f /\ nth_error mean i = Some m /\
    nth_error scale i = Some s /\ assoc f record = Some value /\
    z = ((value - m) / s)%Q.
Proof.
  revert mean scale.
  induction features as [|g features IH]; intros mean scale.
  - cbn. split; [intros [] | intros ([|i] & ? & ? & ? & H & _); discriminate].
  - destruct mean as [|m0 mean];
      [cbn; split; [intros [] | intros (i & ? & ? & ? & _ & H & _);
                                destruct i; discriminate]|].
    destruct scale as [|s0 scale];
      [cbn; split; [intros [] | intros (i & ? & ? & ? & _ & _ & H & _);
                                destruct i; discriminate]|].
    cbn [z_scores]. split.
    + intros H.
      assert (Htail : In (f, z) (z_scores features mean scale record) ->
                exists i value m s,
                  nth_error (g :: features) i = Some f /\
                  nth_error (m0 :: mean) i = Some m /\
                  nth_error (s0 :: scale) i = Some s /\
                  assoc f record = Some value /\ z = ((value - m) / s)%Q).
      { intros Hin. apply IH in Hin.
        destruct Hin as (i & value & m & s & H1 & H2 & H3 & H4 & H5).
        exists (S i), value, m, s. auto. }
      destruct (assoc g record) as [value|] eqn:E; [|exact (Htail H)].
      destruct H as [H|H]; [|exact (Htail H)].
      injection H as <- <-. exists 0%nat, value, m0, s0. auto.
    + intros (i & value & m & s & H1 & H2 & H3 & H4 & H5).
      destruct i as [|i].
      * cbn in H1, H2, H3. injection H1 as ->. injection H2 as ->.
        injection H3 as ->. rewrite H4. left. rewrite H5. reflexivity.
      * cbn [nth_error] in H1, H2, H3.
        assert (Hin : In (f, z) (z_scores features mean scale record))
          by (apply IH; exists i, value, m, s; auto).
        destruct (assoc g record); [right; exact Hin | exact Hin].
Qed.

Lemma z_scores_nothing_shared (features : list string) (mean scale : list Q)
    (record : Flow) :
  (forall f, In f features -> assoc f record = None) ->
  z_scores features mean scale record = [].
Proof.
  revert mean scale. induction features as [|g features IH];
    intros mean scale H; [reflexivity|].
  destruct mean as [|m mean]; [reflexivity|].
  destruct scale as [|s scale]; [reflexivity|].
  cbn [z_scores]. rewrite (H g (or_introl eq_refl)).
  apply IH. intros f Hf. apply H. right. exact Hf.
Qed.

(** C7: without a scaler [explain_anomaly] returns the one sentinel line;
    with a scaler it formats the first [top_k] of the z-scores of the shared
    features ranked by descending absolute value, so it returns at most
    [top_k] lines, and none when the record shares no feature with the
    scaler. The runs of tests/aegis/test_xai.py come out as the tests
    expect. *)
Theorem explain_anomaly_ranks (mm : ModelManager) (record : Flow) (top_k : nat) :
  (scaler mm = None ->
   explain_anomaly mm record top_k = [no_scaler_sentinel]) /\
  (forall st, scaler mm = Some st ->
     let zs := z_scores (feature_columns mm) (mean_ st) (scale_ st) record in
     (forall f z,
        In (f, z) zs <->
        exists i value m s,
          nth_error (feature_columns mm) i = Some f /\
          nth_error (mean_ st) i = Some m /\ nth_error (scale_ st) i = Some s /\
          assoc f record = Some value /\ z = ((value - m) / s)%Q) /\
     exists ranked,
       Permutation ranked zs /\
       StronglySorted ranked_before ranked /\
       explain_anomaly mm record top_k
       = map format_deviation (firstn top_k ranked) /\
       length (explain_anomaly mm record top_k) = Nat.min top_k (length zs) /\
       (length (explain_anomaly mm record top_k) <= top_k)%nat /\
       ((forall f, In f (feature_columns mm) -> assoc f record = None) ->
        explain_anomaly mm record top_k = [])) /\
  (forall feature z,
     format_deviation (feature, z)
     = (feature ++ " (" ++ (if Qltb z 0 then "-" else "+")
          ++ decimal (round_half_even (Qabs z * 10) / 10) ++ "."
          ++ decimal (round_half_even (Qabs z * 10) mod 10) ++ "σ)")%string) /\
  explain_anomaly demo.manager3
    [("F1", 10); ("F2", -(20)); ("F3", 5)]%string%Q 3
  = ["F2 (-20.0σ)"; "F1 (+10.0σ)"; "F3 (+5.0σ)"]%string /\
  explain_anomaly demo.manager [("test_feature", 14)]%string%Q 1
  = ["test_feature (+2.0σ)"]%string /\
  explain_anomaly demo.manager [("test_feature", 4)]%string%Q 1
  = ["test_feature (-3.0σ)"]%string.
Proof.
  split; [|split; [|split; [|split; [|split]]]];
    try (vm_compute; reflexivity); try (intros feature z; reflexivity).
  - intros H. unfold explain_anomaly. rewrite H. reflexivity.
  - intros st H zs. split; [apply z_scores_in|].
    exists (rank zs).
    assert (Hlen : length (explain_anomaly mm record top_k)
                   = Nat.min top_k (length zs)).
    { unfold explain_anomaly. rewrite H. fold zs.
      rewrite length_map, length_firstn.
      rewrite (Permutation_length (rank_perm zs)). reflexivity. }
    split; [apply rank_perm|]. split; [apply rank_sorted|].
    split; [unfold explain_anomaly; rewrite H; reflexivity|].
    split; [exact Hlen|]. split; [rewrite Hlen; apply Nat.le_min_l|].
    intros Hnone. unfold explain_anomaly. rewrite H.
    rewrite (z_scores_nothing_shared _ _ _ _ Hnone).
    destruct top_k; reflexivity.
Qed.

Lemma explain_anomaly_ranks_witness :
  explain_anomaly demo.manager_without_scaler [("F1", 10)]%string%Q 3
  = [no_scaler_sentinel] /\
  explain_anomaly demo.manager [("other_feature", 100)]%string%Q 3 = [].
Proof.
  split.
  - apply (proj1 (explain_anomaly_ranks demo.manager_without_scaler
                    [("F1", 10)]%string%Q 3)).
    reflexivity.
  - destruct (proj1 (proj2 (explain_anomaly_ranks demo.manager
                              [("other_feature", 100)]%string%Q 3))
                (mkScalerStats [10%Q] [2%Q]) eq_refl)
      as (_ & ranked & _ & _ & _ & _ & _ & Hnone).
    apply Hnone. intros f Hf. cbn in Hf. destruct Hf as [<-|[]]. reflexivity.
Defined.

End Explainer.

(** * Further properties of the code *)

(** ** Frames *)

Section Frames.

Lemma get_col_absent (df : DataFrame) (name : string) :
  has_column df name = false -> get_col df name = Raise (KeyError name).
Proof.
  intros H. unfold get_col.
  destruct (assoc name (columns df)) as [c|] eqn:E; [|reflexivity].
  assert (Ht : has_column df name = true)
    by (apply has_column_assoc; exists c; exact E).
  congruence.
Qed.

Lemma get_col_present (df : DataFrame) (name : string) :
  has_column df name = true -> exists c, get_col df name = Ok c.
Proof. apply has_column_get_col. Qed.

Lemma assoc_set_same {B : Type} (name : string) (v : B) (l : list (string * B)) :
  assoc name (assoc_set name v l) = Some v.
Proof.
  induction l as [|[k w] l IH]; cbn [assoc_set assoc].
  - rewrite String.eqb_refl. reflexivity.
  - destruct (String.eqb name k) eqn:E; cbn [assoc]; rewrite E; auto.
Qed.

Lemma assoc_set_other {B : Type} (name other : string) (v : B)
    (l : list (string * B)) :
  other <> name -> assoc other (assoc_set name v l) = assoc other l.
Proof.
  intros Hne. induction l as [|[k w] l IH]; cbn [assoc_set assoc].
  - apply String.eqb_neq in Hne. rewrite Hne. reflexivity.
  - destruct (String.eqb name k) eqn:E; cbn [assoc].
    + apply String.eqb_eq in E. subst k.
      apply String.eqb_neq in Hne. rewrite Hne. reflexivity.
    + rewrite IH. reflexivity.
Qed.

Lemma get_col_set_same (df : DataFrame) (name : string) (c : Column) :
  get_col (set_col df name c) name = Ok c.
Proof. unfold get_col, set_col. cbn [columns]. rewrite assoc_set_same. reflexivity. Qed.

Lemma get_col_set_other (df : DataFrame) (name other : string) (c : Column) :
  other <> name -> get_col (set_col df name c) other = get_col df other.
Proof.
  intros H. unfold get_col, set_col. cbn [columns].
  rewrite assoc_set_other by exact H. reflexivity.
Qed.

Lemma assoc_filter_other {B : Type} (name other : string) (l : list (string * B)) :
  other <> name ->
  assoc other (filter (fun kc => negb (String.eqb name (fst kc))) l)
  = assoc other l.
Proof.
  intros Hne. induction l as [|[k w] l IH]; cbn [filter assoc fst]; [reflexivity|].
  destruct (String.eqb name k) eqn:E; cbn [negb assoc].
  - apply String.eqb_eq in E. subst k.
    apply String.eqb_neq in Hne. rewrite Hne. exact IH.
  - rewrite IH. reflexivity.
Qed.

Lemma assoc_filter_same {B : Type} (name : string) (l : list (string * B)) :
  assoc name (filter (fun kc => negb (String.eqb name (fst kc))) l) = None.
Proof.
  induction l as [|[k w] l IH]; cbn [filter assoc fst]; [reflexivity|].
  destruct (String.eqb name k) eqn:E; cbn [negb assoc]; [exact IH|].
  rewrite E. exact IH.
Qed.

Lemma get_col_drop_other (df : DataFrame) (name other : string) :
  other <> name -> get_col (drop_col df name) other = get_col df other.
Proof.
  intros H. unfold get_col, drop_col. cbn [columns].
  rewrite assoc_filter_other by exact H. reflexivity.
Qed.

Lemma get_col_drop_same (df : DataFrame) (name : string) :
  get_col (drop_col df name) name = Raise (KeyError name).
Proof.
  unfold get_col, drop_col. cbn [columns]. rewrite assoc_filter_same.
  reflexivity.
Qed.

Lemma has_column_false_get_col (df : DataFrame) (name : string) :
  get_col df name = Raise (KeyError name) -> has_column df name = false.
Proof.
  intros H. destruct (has_column df name) eqn:E; [|reflexivity].
  apply get_col_present in E. destruct E as [c E]. congruence.
Qed.

Lemma has_column_same (df df' : DataFrame) (name : string) :
  get_col df name = get_col df' name ->
  has_column df name = has_column df' name.
Proof.
  intros H. destruct (has_column df' name) eqn:E.
  - apply has_column_get_col. apply has_column_get_col in E.
    destruct E as [c E]. exists c. congruence.
  - apply has_column_false_get_col. rewrite H. apply get_col_absent. exact E.
Qed.

(** With every name a column, [df[names]] is the named columns. *)
Lemma select_present (df : DataFrame) (names : list string) :
  filter (fun n => negb (has_column df n)) names = [] ->
  select df names
  = (cols <- rmapM (fun n => c <- get_col df n ;; Ok (n, c)) names ;;
     Ok (mkFrame (index df) cols)).
Proof. intros H. unfold select. rewrite H. reflexivity. Qed.

(** With a name that is no column, [df[names]] raises the [KeyError] that
    names the missing ones. *)
Lemma select_absent (df : DataFrame) (names : list string) :
  filter (fun n => negb (has_column df n)) names <> [] ->
  select df names
  = Raise (not_in_index names (filter (fun n => negb (has_column df n)) names)).
Proof.
  intros H. unfold select.
  destruct (filter (fun n => negb (has_column df n)) names);
    [congruence | reflexivity].
Qed.

Lemma not_in_index_class (names missing : list string) :
  exc_class (not_in_index names missing) = "KeyError"%string.
Proof.
  unfold not_in_index.
  destruct (Nat.eqb (length missing) (length names)); reflexivity.
Qed.

(** [df[names]] reads the named columns and nothing else. *)
Lemma select_columns_ext (df df' : DataFrame) (names : list string) :
  (forall n, In n names -> get_col df n = get_col df' n) ->
  rmap columns (select df names) = rmap columns (select df' names).
Proof.
  intros H. unfold select.
  assert (Hf : filter (fun n => negb (has_column df n)) names
               = filter (fun n => negb (has_column df' n)) names).
  { apply filter_ext_in. intros n Hn.
    rewrite (has_column_same df df' n (H n Hn)). reflexivity. }
  rewrite Hf.
  destruct (filter (fun n => negb (has_column df' n)) names);
    [|reflexivity].
  assert (Hm : rmapM (fun n => c <- get_col df n ;; Ok (n, c)) names
               = rmapM (fun n => c <- get_col df' n ;; Ok (n, c)) names).
  { clear Hf. induction names as [|n names IH]; cbn [rmapM]; [reflexivity|].
    rewrite (H n (or_introl eq_refl)), IH; [reflexivity|].
    intros n' Hn'. apply H. right. exact Hn'. }
  rewrite Hm.
  destruct (rmapM (fun n => c <- get_col df' n ;; Ok (n, c)) names);
    reflexivity.
Qed.

End Frames.

(** ** to_retina_features *)

Section RetinaFeatures.
Import train_nsl_kdd.
Variable parse_number : string -> option Q.

Ltac column_case df name :=
  let E := fresh "E" in
  let H := fresh "H" in
  let c := fresh "c" in
  destruct (has_column df name) eqn:E;
  [ destruct (get_col_present df name E) as [c H]; rewrite H
  | rewrite (get_col_absent df name E) ];
  cbn [negb rbind].

(** X1: [to_retina_features] raises only for a missing source column: a
    [KeyError] for the first of count, src_bytes, dst_bytes, duration and
    label that the frame lacks. With the five columns present it returns,
    whatever the cells hold. *)
Theorem to_retina_features_missing_column (df : DataFrame) :
  match find (fun name => negb (has_column df name))
          ["count"; "src_bytes"; "dst_bytes"; "duration"; "label"]%string with
  | Some name => to_retina_features parse_number df = Raise (KeyError name)
  | None => exists r, to_retina_features parse_number df = Ok r
  end.
Proof.
  unfold to_retina_features. cbn [find].
  column_case df "count"%string; [|reflexivity].
  column_case df "src_bytes"%string; [|reflexivity].
  column_case df "dst_bytes"%string; [|reflexivity].
  column_case df "duration"%string; [|reflexivity].
  column_case df "label"%string; [|reflexivity].
  eexists. reflexivity.
Qed.

Lemma to_retina_features_inv (df r : DataFrame) :
  to_retina_features parse_number df = Ok r ->
  exists count src dst duration label,
    get_col df "count" = Ok count /\ get_col df "src_bytes" = Ok src /\
    get_col df "dst_bytes" = Ok dst /\ get_col df "duration" = Ok duration /\
    get_col df "label" = Ok label /\
    r = mkFrame (index df)
          [("packet_count", NumCol (numeric_or_zero parse_number count));
           ("byte_count",
            NumCol (series_add (numeric_or_zero parse_number src)
                      (numeric_or_zero parse_number dst)));
           ("duration_seconds", NumCol (numeric_or_zero parse_number duration));
           ("rate_bps",
            NumCol (series_div
                      (series_add (numeric_or_zero parse_number src)
                         (numeric_or_zero parse_number dst))
                      (clip_lower (1 # 1000)
                         (numeric_or_zero parse_number duration))));
           ("is_attack", NumCol (map inject_Z (label_is_attack label)))]%string.
Proof.
  unfold to_retina_features.
  destruct (get_col df "count") as [count|]; [|discriminate].
  destruct (get_col df "src_bytes") as [src|]; [|discriminate].
  destruct (get_col df "dst_bytes") as [dst|]; [|discriminate].
  destruct (get_col df "duration") as [duration|]; [|discriminate].
  destruct (get_col df "label") as [label|]; [|discriminate].
  cbn [rbind]. intros H. injection H as <-.
  exists count, src, dst, duration, label. repeat split; reflexivity.
Qed.

Lemma Qtrunc_inject_Z (z : Z) : Qtrunc (inject_Z z) = z.
Proof. unfold Qtrunc, inject_Z. cbn [Qnum Qden]. apply Z.quot_1_r. Qed.

Lemma label_is_attack_binary (label : Column) : binary (label_is_attack label).
Proof.
  unfold binary. destruct label as [v|v]; cbn [label_is_attack];
    apply Forall_forall; intros x Hx; apply in_map_iff in Hx;
    destruct Hx as (s & <- & _); [right; reflexivity|].
  destruct (String.eqb (lower s) "normal"); [left | right]; reflexivity.
Qed.

Lemma rows_of_shape (n : nat) (cols : list (list Q)) :
  length (rows_of n cols) = n /\
  Forall (fun row => length row = length cols) (rows_of n cols).
Proof.
  unfold rows_of. split.
  - rewrite length_map, length_seq. reflexivity.
  - apply Forall_forall. intros row Hrow. apply in_map_iff in Hrow.
    destruct Hrow as (i & <- & _). apply length_map.
Qed.

(** X2: the frame that [to_retina_features] returns is what the tuner
    consumes: it keeps the row labels, holds the four feature columns and
    is_attack, [make_X] turns it into one row of four features per row
    label, and its labels are 0 or 1, 0 exactly on the rows whose label
    reads "normal" in any letter case. *)
Theorem to_retina_features_feeds_tuner {SK : Sklearn} (df r : DataFrame) :
  to_retina_features parse_number df = Ok r ->
  index r = index df /\
  column_names r = (RETINA_FEATURE_COLUMNS ++ ["is_attack"%string])%list /\
  (exists X, make_X r = Ok X /\ length X = len df /\
             Forall (fun row => length row = 4%nat) X) /\
  (exists y label,
     is_attack r = Ok y /\ get_col df "label" = Ok label /\
     y = label_is_attack label /\ binary y /\
     forall v, label = StrCol v ->
       y = map (fun s => if String.eqb (lower s) "normal" then 0 else 1) v).
Proof.
  intros H. apply to_retina_features_inv in H.
  destruct H as (count & src & dst & duration & label & _ & _ & _ & _ & Hl & ->).
  split; [reflexivity|]. split; [reflexivity|]. split.
  - eexists. split; [reflexivity|].
    rewrite !length_map.
    destruct (rows_of_shape (len (mkFrame (index df) [
      ("packet_count"%string, NumCol (numeric_or_zero parse_number count));
      ("byte_count"%string,
        NumCol (series_add (numeric_or_zero parse_number src)
                  (numeric_or_zero parse_number dst)));
      ("duration_seconds"%string,
        NumCol (numeric_or_zero parse_number duration));
      ("rate_bps"%string,
        NumCol (series_div
                  (series_add (numeric_or_zero parse_number src)
                     (numeric_or_zero parse_number dst))
                  (clip_lower (1 # 1000)
                     (numeric_or_zero parse_number duration))));
      ("is_attack"%string, NumCol (map inject_Z (label_is_attack label)))]))
      [numeric_or_zero parse_number count;
       series_add (numeric_or_zero parse_number src)
         (numeric_or_zero parse_number dst);
       numeric_or_zero parse_number duration;
       series_div
         (series_add (numeric_or_zero parse_number src)
            (numeric_or_zero parse_number dst))
         (clip_lower (1 # 1000) (numeric_or_zero parse_number duration))])
      as [Hn Hrows].
    split; [exact Hn|].
    apply Forall_forall. intros row Hrow. apply in_map_iff in Hrow.
    destruct Hrow as (row0 & <- & Hin). rewrite length_map.
    rewrite Forall_forall in Hrows. apply (Hrows row0 Hin).
  - exists (label_is_attack label), label.
    split.
    + unfold is_attack, get_col. cbn. f_equal. rewrite map_map.
      rewrite <- (map_id (label_is_attack label)) at 2.
      apply map_ext. apply Qtrunc_inject_Z.
    + split; [exact Hl|]. split; [reflexivity|].
      split; [apply label_is_attack_binary|].
      intros v ->. reflexivity.
Qed.

Lemma combine_map_r {A B C : Type} (g : B -> C) (a : list A) (b : list B) :
  combine a (map g b) = map (fun p => (fst p, g (snd p))) (combine a b).
Proof.
  revert b. induction a as [|x a IH]; intros [|y b]; cbn; try reflexivity.
  rewrite IH. reflexivity.
Qed.

(** X3: the rate of [to_retina_features] is the byte count over the duration
    raised to 0.001 where it is smaller. The divisor is at least 0.001,
    hence never zero, it is the duration itself from 0.001 on, and the rate
    of a non-negative byte count is non-negative. *)
Theorem to_retina_features_rate (df r : DataFrame) :
  to_retina_features parse_number df = Ok r ->
  exists bytes durations,
    get_col r "byte_count" = Ok (NumCol bytes) /\
    get_col r "duration_seconds" = Ok (NumCol durations) /\
    get_col r "rate_bps"
    = Ok (NumCol (map (fun bd =>
                         (fst bd / (if Qltb (snd bd) (1 # 1000) then 1 # 1000
                                    else snd bd))%Q)
                    (combine bytes durations))) /\
    forall b d,
      let safe := if Qltb d (1 # 1000) then (1 # 1000)%Q else d in
      ((1 # 1000) <= safe)%Q /\ ~ (safe == 0)%Q /\
      ((0 <= b)%Q -> (0 <= b / safe)%Q) /\
      (((1 # 1000) <= d)%Q -> safe = d).
Proof.
  intros H. apply to_retina_features_inv in H.
  destruct H as (count & src & dst & duration & label & _ & _ & _ & _ & _ & ->).
  eexists. eexists. split; [reflexivity|]. split; [reflexivity|]. split.
  - cbn. f_equal. f_equal. unfold series_div, clip_lower.
    rewrite combine_map_r, map_map. reflexivity.
  - intros b d safe.
    assert (Hsafe : ((1 # 1000) <= safe)%Q).
    { unfold safe. destruct (Qltb d (1 # 1000)) eqn:E.
      - apply Qle_refl.
      - apply Qltb_false in E. exact E. }
    split; [exact Hsafe|]. split; [|split].
    + intros E0. rewrite E0 in Hsafe. revert Hsafe. apply Qlt_not_le.
      reflexivity.
    + intros Hb. apply Qle_shift_div_l; [|rewrite Qmult_0_l; exact Hb].
      apply Qlt_le_trans with (1 # 1000)%Q; [reflexivity | exact Hsafe].
    + intros Hd. unfold safe. destruct (Qltb d (1 # 1000)) eqn:E;
        [|reflexivity].
      apply Qltb_true in E. exfalso. apply (Qlt_not_le _ _ E Hd).
Qed.

End RetinaFeatures.

Section RetinaRuns.
Import train_nsl_kdd.

(** A text cell that is no number counts as 0, a zero duration is raised to
    0.001, and "Normal" is a normal label. *)
Example to_retina_features_example :
  to_retina_features demo.parse_number demo.raw
  = Ok (mkFrame [0; 1; 2; 3]
          [("packet_count", NumCol [1; 2; 3; 4]);
           ("byte_count", NumCol [215 + 45; 0 + 100; 0 + 0; 215 + 5]);
           ("duration_seconds", NumCol [0; 2; 0; 1 # 2]);
           ("rate_bps",
            NumCol [(215 + 45) / (1 # 1000); (0 + 100) / 2;
                    (0 + 0) / (1 # 1000); (215 + 5) / (1 # 2)]);
           ("is_attack", NumCol [0; 1; 0; 1])]%string%Q).
Proof. reflexivity. Qed.

Lemma to_retina_features_feeds_tuner_witness :
  exists r X y,
    to_retina_features demo.parse_number demo.raw = Ok r /\
    make_X (SK := demo.library) r = Ok X /\ length X = 4%nat /\
    is_attack (SK := demo.library) r = Ok y /\ binary y.
Proof.
  destruct (to_retina_features_feeds_tuner (SK := demo.library)
              demo.parse_number demo.raw _ eq_refl)
    as (_ & _ & (X & HX & Hlen & _) & (y & label & Hy & _ & _ & Hb & _)).
  eexists. exists X, y.
  split; [reflexivity|]. split; [exact HX|]. split; [exact Hlen|].
  split; [exact Hy | exact Hb].
Defined.

Lemma to_retina_features_rate_witness :
  exists r bytes durations,
    to_retina_features demo.parse_number demo.raw = Ok r /\
    get_col r "byte_count" = Ok (NumCol bytes) /\
    get_col r "duration_seconds" = Ok (NumCol durations) /\
    get_col r "rate_bps"
    = Ok (NumCol (map (fun bd =>
                         (fst bd / (if Qltb (snd bd) (1 # 1000) then 1 # 1000
                                    else snd bd))%Q)
                    (combine bytes durations))).
Proof.
  destruct (to_retina_features_rate demo.parse_number demo.raw _ eq_refl)
    as (bytes & durations & Hb & Hd & Hr & _).
  eexists. exists bytes, durations.
  split; [reflexivity|]. split; [exact Hb|]. split; [exact Hd | exact Hr].
Defined.

End RetinaRuns.

(** ** make_X and the split of main *)

Section FeatureMatrix.
Import train_nsl_kdd.
Context {SK : Sklearn}.

(** X4: [make_X] reads the four feature columns and the number of rows and
    nothing else: two frames that agree on them give the same matrix or the
    same exception. In particular the label column never reaches the
    features. *)
Theorem make_X_reads_features_only (df df' : DataFrame) :
  len df = len df' ->
  (forall name, In name RETINA_FEATURE_COLUMNS ->
                get_col df name = get_col df' name) ->
  make_X df = make_X df'.
Proof.
  intros Hlen H. unfold make_X.
  pose proof (select_columns_ext df df' RETINA_FEATURE_COLUMNS H) as Hsel.
  destruct (select df RETINA_FEATURE_COLUMNS) as [sub|e];
  destruct (select df' RETINA_FEATURE_COLUMNS) as [sub'|e'];
    cbn [rmap rbind] in Hsel; try discriminate.
  - injection Hsel as Hsel. cbn [rbind]. rewrite Hsel, Hlen. reflexivity.
  - injection Hsel as ->. reflexivity.
Qed.

(** What [to_numpy(dtype=float)] does to one column: it returns one number
    per cell, or the column holds a text cell that does not read as a
    number and the [ValueError] for the first such cell is raised. *)
Lemma to_numpy_float_cases (c : Column) :
  (exists v, to_numpy_float float_of_str c = Ok v /\
             length v = column_length c) \/
  (exists v s,
     c = StrCol v /\ In s v /\ float_of_str s = None /\
     to_numpy_float float_of_str c
     = Raise (ValueError ("could not convert string to float: '" ++ s ++ "'"))).
Proof.
  destruct c as [v|v]; cbn [to_numpy_float column_length].
  - left. exists v. auto.
  - induction v as [|x v IH]; cbn [rmapM].
    + left. exists []. auto.
    + destruct (float_of_str x) as [q|] eqn:Ex.
      * cbn [rbind]. destruct IH as [(w & Hw & Hl)|(v' & s & Hv & Hs & Hn & Hr)].
        -- left. exists (q :: w). rewrite Hw. cbn. auto.
        -- right. injection Hv as <-. exists (x :: v), s.
           split; [reflexivity|]. split; [right; exact Hs|].
           split; [exact Hn|]. rewrite Hr. reflexivity.
      * right. exists (x :: v), x. split; [reflexivity|].
        split; [left; reflexivity|]. split; [exact Ex | reflexivity].
Qed.

Lemma make_X_shape (a b c d : list Q) (n : nat) :
  length (map (map log1p) (rows_of n [a; b; c; d])) = n /\
  Forall (fun row => length row = 4%nat)
    (map (map log1p) (rows_of n [a; b; c; d])).
Proof.
  destruct (rows_of_shape n [a; b; c; d]) as [Hn Hr].
  split; [rewrite length_map; exact Hn|].
  apply Forall_forall. intros row Hrow. apply in_map_iff in Hrow.
  destruct Hrow as (row0 & <- & Hin). rewrite length_map.
  rewrite Forall_forall in Hr. apply (Hr row0 Hin).
Qed.

(** X5: when feature columns are missing, [make_X] raises one [KeyError]
    that names the missing ones. With the four columns present it returns
    one row of four values per row label, or it raises the [ValueError] of
    a text cell of these columns that does not read as a number; it returns
    whenever every text cell of the four columns reads as a number. *)
Theorem make_X_shape_or_error (df : DataFrame) :
  let missing :=
    filter (fun name => negb (has_column df name)) RETINA_FEATURE_COLUMNS in
  (missing <> [] ->
   make_X df = Raise (not_in_index RETINA_FEATURE_COLUMNS missing) /\
   exc_class (not_in_index RETINA_FEATURE_COLUMNS missing) = "KeyError"%string) /\
  (missing = [] ->
   (exists X, make_X df = Ok X /\ length X = len df /\
              Forall (fun row => length row = 4%nat) X) \/
   (exists name v s,
      In name RETINA_FEATURE_COLUMNS /\ get_col df name = Ok (StrCol v) /\
      In s v /\ float_of_str s = None /\
      make_X df
      = Raise (ValueError
                 ("could not convert string to float: '" ++ s ++ "'")))) /\
  (missing = [] ->
   (forall name v s,
      In name RETINA_FEATURE_COLUMNS -> get_col df name = Ok (StrCol v) ->
      In s v -> float_of_str s <> None) ->
   exists X, make_X df = Ok X /\ length X = len df /\
             Forall (fun row => length row = 4%nat) X).
Proof.
  intros missing.
  assert (Hcases : missing = [] ->
    (exists X, make_X df = Ok X /\ length X = len df /\
               Forall (fun row => length row = 4%nat) X) \/
    (exists name v s,
       In name RETINA_FEATURE_COLUMNS /\ get_col df name = Ok (StrCol v) /\
       In s v /\ float_of_str s = None /\
       make_X df
       = Raise (ValueError
                  ("could not convert string to float: '" ++ s ++ "'")))).
  { intros Hnone. unfold make_X. rewrite (select_present df _ Hnone).
    assert (Hall : forall name, In name RETINA_FEATURE_COLUMNS ->
                                exists c, get_col df name = Ok c).
    { intros name Hin. apply has_column_get_col.
      apply (proj1 (filter_nil_forall _ _) Hnone) in Hin.
      apply negb_false_iff. exact Hin. }
    destruct (Hall "packet_count"%string) as [c1 H1]; [cbn; tauto|].
    destruct (Hall "byte_count"%string) as [c2 H2]; [cbn; tauto|].
    destruct (Hall "duration_seconds"%string) as [c3 H3]; [cbn; tauto|].
    destruct (Hall "rate_bps"%string) as [c4 H4]; [cbn; tauto|].
    unfold RETINA_FEATURE_COLUMNS. cbn [rmapM].
    rewrite H1, H2, H3, H4. cbn [rbind columns rmapM snd].
    destruct (to_numpy_float_cases c1) as [(v1 & E1 & _)|(v & s & -> & Hs & Hn & Hr)];
      [rewrite E1; cbn [rbind]
      |right; exists "packet_count"%string, v, s; rewrite Hr;
       repeat split; try assumption; cbn; tauto].
    destruct (to_numpy_float_cases c2) as [(v2 & E2 & _)|(v & s & -> & Hs & Hn & Hr)];
      [rewrite E2; cbn [rbind]
      |right; exists "byte_count"%string, v, s; rewrite Hr;
       repeat split; try assumption; cbn; tauto].
    destruct (to_numpy_float_cases c3) as [(v3 & E3 & _)|(v & s & -> & Hs & Hn & Hr)];
      [rewrite E3; cbn [rbind]
      |right; exists "duration_seconds"%string, v, s; rewrite Hr;
       repeat split; try assumption; cbn; tauto].
    destruct (to_numpy_float_cases c4) as [(v4 & E4 & _)|(v & s & -> & Hs & Hn & Hr)];
      [rewrite E4; cbn [rbind]
      |right; exists "rate_bps"%string, v, s; rewrite Hr;
       repeat split; try assumption; cbn; tauto].
    left. eexists. split; [reflexivity|]. apply make_X_shape. }
  split; [|split; [exact Hcases|]].
  - intros Hsome. split; [|apply not_in_index_class].
    unfold make_X. rewrite (select_absent df _ Hsome). reflexivity.
  - intros Hnone Hread.
    destruct (Hcases Hnone) as [H|(name & v & s & Hin & Hc & Hs & Hn & _)];
      [exact H|].
    exfalso. apply (Hread name v s Hin Hc Hs Hn).
Qed.

End FeatureMatrix.

Section FeatureMatrixRuns.
Import train_nsl_kdd.

(** Text cells that read as numbers are converted; the first cell that
    does not, in column order, is the one the [ValueError] names; missing
    columns are named together. *)
Example make_X_examples :
  make_X (SK := demo.library) demo.text_features
  = Ok [[215; 100; 1; 100]; [0; 200; 2; 100]]%Q /\
  make_X (SK := demo.library) demo.unread_features
  = Raise (ValueError "could not convert string to float: 'n/a'") /\
  make_X (SK := demo.library) demo.half_features
  = Raise (KeyError "['duration_seconds', 'rate_bps'] not in index").
Proof. repeat split; reflexivity. Qed.

End FeatureMatrixRuns.

Section LabelSplit.
Import train_nsl_kdd.

Lemma make_X_reads_features_only_witness :
  make_X (SK := demo.library) demo.validation
  = make_X (SK := demo.library)
      (set_col demo.validation "is_attack" (NumCol [1; 1; 1; 1]%Q)).
Proof.
  apply (make_X_reads_features_only (SK := demo.library)).
  - reflexivity.
  - intros name Hin. cbn in Hin.
    repeat (destruct Hin as [<-|Hin]; [reflexivity|]). contradiction.
Defined.

Lemma assoc_map_columns (name : string) (f : Column -> Column)
    (l : list (string * Column)) :
  assoc name (map (fun kc => (fst kc, f (snd kc))) l)
  = option_map f (assoc name l).
Proof.
  induction l as [|[k c] l IH]; cbn [map assoc fst snd]; [reflexivity|].
  destruct (String.eqb name k); [reflexivity | exact IH].
Qed.

Lemma get_col_row_filter (mask : list bool) (df : DataFrame) (name : string) :
  get_col (row_filter mask df) name = rmap (column_filter mask) (get_col df name).
Proof.
  unfold get_col, row_filter. cbn [columns]. rewrite assoc_map_columns.
  destruct (assoc name (columns df)); reflexivity.
Qed.

Lemma mask_filter_map_self {A : Type} (f : A -> bool) (l : list A) :
  mask_filter (map f l) l = filter f l.
Proof.
  induction l as [|x l IH]; cbn [map mask_filter filter]; [reflexivity|].
  destruct (f x); rewrite IH; reflexivity.
Qed.

Lemma label_masks_partition {A : Type} (labels : list Q) (rows : list A) :
  length labels = length rows ->
  Forall (fun x => x == 0 \/ x == 1)%Q labels ->
  (length (mask_filter (map (fun x => Qeq_bool x 0) labels) rows)
   + length (mask_filter (map (fun x => Qeq_bool x 1) labels) rows)
   = length rows)%nat.
Proof.
  intros Hlen Hall. revert rows Hlen.
  induction Hall as [|x labels Hx _ IH]; intros [|r rows] Hlen;
    cbn in Hlen; try discriminate; [reflexivity|].
  cbn [map mask_filter]. specialize (IH rows (eq_add_S _ _ Hlen)).
  destruct Hx as [Hx|Hx].
  - assert (E0 : Qeq_bool x 0 = true) by (apply Qeq_bool_iff; exact Hx).
    assert (E1 : Qeq_bool x 1 = false)
      by (apply Qeq_bool_false; rewrite Hx; discriminate).
    rewrite E0, E1. cbn [length]. lia.
  - assert (E0 : Qeq_bool x 0 = false)
      by (apply Qeq_bool_false; rewrite Hx; discriminate).
    assert (E1 : Qeq_bool x 1 = true) by (apply Qeq_bool_iff; exact Hx).
    rewrite E0, E1. cbn [length]. lia.
Qed.

(** X6: the two selections by which [main] splits the training frame, the
    rows labelled 0 and the rows labelled 1, partition a frame whose labels
    are 0 or 1: their row counts add up to the frame's, the first holds only
    label 0 and the second only label 1, and both are renumbered from 0. *)
Theorem rows_with_label_partition (df : DataFrame) (labels : list Q) :
  get_col df "is_attack" = Ok (NumCol labels) ->
  length labels = len df ->
  Forall (fun x => x == 0 \/ x == 1)%Q labels ->
  exists normal attack,
    rows_with_label df 0 = Ok normal /\
    rows_with_label df 1 = Ok attack /\
    (len normal + len attack = len df)%nat /\
    get_col normal "is_attack"
    = Ok (NumCol (filter (fun x => Qeq_bool x 0) labels)) /\
    get_col attack "is_attack"
    = Ok (NumCol (filter (fun x => Qeq_bool x 1) labels)) /\
    index normal = map Z.of_nat (seq 0 (len normal)) /\
    index attack = map Z.of_nat (seq 0 (len attack)).
Proof.
  intros Hc Hlen Hall. unfold rows_with_label. rewrite Hc. cbn [rbind].
  eexists. eexists. split; [reflexivity|]. split; [reflexivity|].
  split; [|split; [|split; [|split]]].
  - unfold len. cbn [index]. rewrite !length_map, !length_seq.
    unfold len, row_filter. cbn [index].
    apply label_masks_partition; [exact Hlen | exact Hall].
  - change (get_col (row_filter (map (fun x => Qeq_bool x 0) labels) df)
              "is_attack"
            = Ok (NumCol (filter (fun x => Qeq_bool x 0) labels))).
    rewrite get_col_row_filter, Hc. cbn. rewrite mask_filter_map_self.
    reflexivity.
  - change (get_col (row_filter (map (fun x => Qeq_bool x 1) labels) df)
              "is_attack"
            = Ok (NumCol (filter (fun x => Qeq_bool x 1) labels))).
    rewrite get_col_row_filter, Hc. cbn. rewrite mask_filter_map_self.
    reflexivity.
  - cbn [index]. unfold len at 2. cbn [index].
    rewrite length_map, length_seq. reflexivity.
  - cbn [index]. unfold len at 2. cbn [index].
    rewrite length_map, length_seq. reflexivity.
Qed.

Lemma rows_with_label_partition_witness :
  exists normal attack,
    rows_with_label demo.validation 0 = Ok normal /\
    rows_with_label demo.validation 1 = Ok attack /\
    (len normal + len attack = len demo.validation)%nat.
Proof.
  destruct (rows_with_label_partition demo.validation [0; 1; 0; 1]%Q)
    as (normal & attack & Hn & Ha & Hlen & _).
  - reflexivity.
  - reflexivity.
  - repeat (apply Forall_cons;
            [first [left; reflexivity | right; reflexivity]|]).
    apply Forall_nil.
  - exists normal, attack. auto.
Defined.

End LabelSplit.

(** ** tune_iforest: what happens before and at a failure *)

Section TunerEdges.
Import train_nsl_kdd.
Context {SK : Sklearn}.

Lemma grid_candidates_nil_r (cg : list Q) : grid_candidates cg [] = [].
Proof. induction cg as [|c cg IH]; [reflexivity | exact IH]. Qed.

Lemma tune_loop_no_candidate (X : Matrix) (validation : DataFrame)
    (cg : list Q) (ng : list Z) (seed : Z) (t : list (Q * Z)) :
  cg = [] \/ ng = [] ->
  tune_loop X validation cg ng seed t = (t, Ok best_init).
Proof.
  intros H. unfold tune_loop. rewrite tune_loop_flat.
  assert (E : grid_candidates cg ng = [])
    by (destruct H as [-> | ->]; [reflexivity | apply grid_candidates_nil_r]).
  rewrite E. reflexivity.
Qed.

(** X7: when [make_X] raises on the training frame, [tune_iforest] raises
    that exception before any candidate is entered; when a grid is empty
    it enters no candidate either and fails its first assertion with an
    [AssertionError]. *)
Theorem tune_iforest_without_candidates
    (normal_train validation : DataFrame) (cg : list Q) (ng : list Z)
    (seed : Z) (t : list (Q * Z)) :
  (forall e, make_X normal_train = Raise e ->
     tune_iforest normal_train validation cg ng seed t = (t, Raise e)) /\
  (forall X, make_X normal_train = Ok X -> cg = [] \/ ng = [] ->
     tune_iforest normal_train validation cg ng seed t
     = (t, Raise AssertionError)).
Proof.
  split.
  - intros e H. unfold tune_iforest, tbind, tlift. rewrite H. reflexivity.
  - intros X HX Hgrid. unfold tune_iforest, tbind, tlift. rewrite HX.
    rewrite (tune_loop_no_candidate X validation cg ng seed t Hgrid).
    reflexivity.
Qed.

(** X8: [tune_iforest] stops at the first candidate, in grid order, whose
    evaluation raises: that exception leaves the call, the candidates up to
    and including the failing one were entered, and none after it. *)
Theorem tune_iforest_stops_at_first_failure
    (normal_train validation : DataFrame) (cg : list Q) (ng : list Z)
    (seed : Z) (X : Matrix) (k : nat) (c : Q) (n : Z) (e : PyExc) :
  make_X normal_train = Ok X ->
  nth_error (grid_candidates cg ng) k = Some (c, n) ->
  evaluate_candidate X validation seed c n = Raise e ->
  (forall j c' n',
     (j < k)%nat -> nth_error (grid_candidates cg ng) j = Some (c', n') ->
     is_ok (evaluate_candidate X validation seed c' n') = true) ->
  tune_iforest normal_train validation cg ng seed []
  = (firstn (S k) (grid_candidates cg ng), Raise e).
Proof.
  intros HX Hk He Hbefore.
  destruct (nth_error_split _ _ Hk) as (l1 & l2 & Hsplit & Hlen).
  assert (Hok : Forall (fun cn =>
             is_ok (evaluate_candidate X validation seed (fst cn) (snd cn))
             = true) l1).
  { apply Forall_forall. intros [c' n'] Hin.
    destruct (In_nth_error _ _ Hin) as [j Hj].
    assert (Hjk : (j < k)%nat)
      by (rewrite <- Hlen; apply nth_error_Some; congruence).
    apply (Hbefore j c' n' Hjk). rewrite Hsplit.
    rewrite nth_error_app1 by (rewrite Hlen; exact Hjk). exact Hj. }
  unfold tune_iforest, tbind, tlift. rewrite HX.
  unfold tune_loop. rewrite tune_loop_flat, Hsplit, for_each_app.
  unfold tbind. rewrite (flat_loop_ok X validation seed l1 best_init [] Hok).
  cbn [for_each app]. unfold tbind.
  rewrite (flat_body_raise X validation seed (c, n) _ l1 e He).
  f_equal.
  replace (S k) with (length (l1 ++ [(c, n)]))
    by (rewrite length_app, Hlen; cbn; lia).
  replace (l1 ++ (c, n) :: l2) with ((l1 ++ [(c, n)]) ++ l2)
    by (rewrite <- app_assoc; reflexivity).
  rewrite firstn_app, Nat.sub_diag, firstn_all. cbn [firstn].
  rewrite app_nil_r. reflexivity.
Qed.

End TunerEdges.

Section TunerEdgeRuns.
Import train_nsl_kdd.

Lemma tune_iforest_without_candidates_witness :
  tune_iforest (SK := demo.library) demo.empty_train demo.validation
    contamination_grid [] 42 []
  = ([], Raise AssertionError) /\
  tune_iforest (SK := demo.library) demo.normal_train demo.validation
    [] n_estimators_grid 42 []
  = ([], Raise AssertionError) /\
  tune_iforest (SK := demo.library) demo.flows demo.validation
    contamination_grid n_estimators_grid 42 []
  = ([], Raise (KeyError
                  "None of [Index(['packet_count', 'byte_count', 'duration_seconds', 'rate_bps'], dtype='object')] are in the [columns]")).
Proof.
  split; [|split].
  - apply (proj2 (tune_iforest_without_candidates (SK := demo.library)
                    demo.empty_train demo.validation contamination_grid []
                    42 []) []).
    + reflexivity.
    + right. reflexivity.
  - apply (proj2 (tune_iforest_without_candidates (SK := demo.library)
                    demo.normal_train demo.validation [] n_estimators_grid
                    42 []) demo.X_train_raw).
    + reflexivity.
    + left. reflexivity.
  - apply (proj1 (tune_iforest_without_candidates (SK := demo.library)
                    demo.flows demo.validation contamination_grid
                    n_estimators_grid 42 [])).
    reflexivity.
Defined.

Lemma tune_iforest_stops_at_first_failure_witness :
  tune_iforest (SK := demo.brittle_library) demo.normal_train demo.validation
    contamination_grid n_estimators_grid 42 []
  = ([((1 # 1000)%Q, 100); ((1 # 1000)%Q, 200); ((1 # 1000)%Q, 400)],
     Raise demo.out_of_memory).
Proof.
  apply (tune_iforest_stops_at_first_failure (SK := demo.brittle_library)
           demo.normal_train demo.validation contamination_grid
           n_estimators_grid 42 demo.X_train_raw 2 (1 # 1000)%Q 400
           demo.out_of_memory).
  - reflexivity.
  - reflexivity.
  - reflexivity.
  - intros j c' n' Hj Hnth.
    destruct j as [|[|j]]; [| |lia]; cbn in Hnth; injection Hnth as <- <-;
      vm_compute; reflexivity.
Defined.

End TunerEdgeRuns.

(** ** compute_metrics: shapes, symmetry, agreement, the harmonic mean *)

Section EvaluatorMore.
Import train_nsl_kdd.

Lemma compute_metrics_ok_counts (yt yp : list Z) (m : Metrics) :
  compute_metrics yt yp = Ok m ->
  0 <= tp m /\ 0 <= fp m /\ 0 <= tn m /\ 0 <= fn m /\
  precision m = ratio (tp m) (tp m + fp m) /\
  recall m = ratio (tp m) (tp m + fn m) /\
  f1 m = f1_score (precision m) (recall m).
Proof.
  unfold compute_metrics.
  destruct (confusion_count yt yp 1 1) as [k11|] eqn:E11; [|discriminate].
  destruct (confusion_count yt yp 0 0) as [k00|] eqn:E00; [|discriminate].
  destruct (confusion_count yt yp 0 1) as [k01|] eqn:E01; [|discriminate].
  destruct (confusion_count yt yp 1 0) as [k10|] eqn:E10; [|discriminate].
  cbn [rbind]. intros H. injection H as <-.
  cbn [tp fp tn fn precision recall f1].
  apply confusion_count_nonneg in E11, E00, E01, E10.
  repeat split; try assumption; reflexivity.
Qed.

(** X9: on label arrays of different lengths, neither of which has exactly
    one element, [compute_metrics] raises the [ValueError] of numpy's
    broadcasting and returns no metrics. *)
Theorem compute_metrics_shape_mismatch (y_true y_pred : list Z) :
  length y_true <> length y_pred ->
  length y_true <> 1%nat -> length y_pred <> 1%nat ->
  compute_metrics y_true y_pred
  = Raise (ValueError "operands could not be broadcast together").
Proof.
  intros Hne H1 H2. unfold compute_metrics, confusion_count, np_and, np_eq.
  rewrite !length_map.
  apply Nat.eqb_neq in Hne, H1, H2. rewrite Hne, H1, H2. reflexivity.
Qed.

Lemma count_pairs_swap (t p : Z) (a b : list Z) :
  count_pairs t p (combine a b) = count_pairs p t (combine b a).
Proof.
  revert b. induction a as [|x a IH]; intros [|y b]; cbn; try reflexivity.
  rewrite IH, andb_comm. reflexivity.
Qed.

Lemma f1_score_comm (p r : Q) : (f1_score p r == f1_score r p)%Q.
Proof.
  unfold f1_score.
  destruct (Qeq_bool (p + r) 0) eqn:E; destruct (Qeq_bool (r + p) 0) eqn:E'.
  - reflexivity.
  - apply Qeq_bool_iff in E. apply Qeq_bool_false in E'. exfalso. apply E'. lra.
  - apply Qeq_bool_iff in E'. apply Qeq_bool_false in E. exfalso. apply E. lra.
  - apply Qeq_bool_false in E. field. intros H0; apply E; lra.
Qed.

(** X10: exchanging the roles of the two label arrays exchanges false
    positives with false negatives and precision with recall, and leaves
    the true positives, the true negatives and F1 as they were. *)
Theorem compute_metrics_swap (y_true y_pred : list Z) :
  length y_true = length y_pred ->
  exists m m',
    compute_metrics y_true y_pred = Ok m /\
    compute_metrics y_pred y_true = Ok m' /\
    tp m' = tp m /\ tn m' = tn m /\ fp m' = fn m /\ fn m' = fp m /\
    precision m' = recall m /\ recall m' = precision m /\
    (f1 m' == f1 m)%Q.
Proof.
  intros Hlen.
  rewrite (compute_metrics_counts y_true y_pred Hlen).
  rewrite (compute_metrics_counts y_pred y_true (eq_sym Hlen)).
  eexists. eexists. split; [reflexivity|]. split; [reflexivity|].
  unfold metrics_of_counts. cbn [tp tn fp fn precision recall f1].
  rewrite !(count_pairs_swap _ _ y_pred y_true).
  repeat split; try reflexivity. apply f1_score_comm.
Qed.

Lemma count_pairs_self_off (t p : Z) (y : list Z) :
  t <> p -> count_pairs t p (combine y y) = 0.
Proof.
  intros Hne. induction y as [|a y IH]; cbn; [reflexivity|].
  rewrite IH. destruct (a =? t) eqn:Et; cbn [andb]; [|reflexivity].
  apply Z.eqb_eq in Et. subst a.
  apply Z.eqb_neq in Hne. rewrite Hne. reflexivity.
Qed.

Lemma count_pairs_self_pos (t : Z) (y : list Z) :
  In t y -> 0 < count_pairs t t (combine y y).
Proof.
  induction y as [|a y IH]; [intros []|].
  intros [->|Hin]; cbn.
  - rewrite Z.eqb_refl. cbn [andb].
    pose proof (count_pairs_nonneg t t (combine y y)). lia.
  - specialize (IH Hin). destruct ((a =? t) && (a =? t)); lia.
Qed.

Lemma count_pairs_self_zero (t : Z) (y : list Z) :
  ~ In t y -> count_pairs t t (combine y y) = 0.
Proof.
  induction y as [|a y IH]; [reflexivity|]. intros Hn. cbn.
  rewrite IH by (intros H; apply Hn; right; exact H).
  destruct (a =? t) eqn:E; [|reflexivity].
  apply Z.eqb_eq in E. exfalso. apply Hn. left. exact E.
Qed.

(** X11: when the predictions agree with the truth everywhere there is no
    false positive and no false negative. Precision, recall and F1 are then
    1 if some row is an attack, and all three are 0.0 if none is: with no
    attack at all the zero denominators report 0.0, not 1. *)
Theorem compute_metrics_agreement (y : list Z) :
  exists m,
    compute_metrics y y = Ok m /\ fp m = 0 /\ fn m = 0 /\
    (false_positive_rate m == 0)%Q /\
    (In 1 y ->
     (precision m == 1)%Q /\ (recall m == 1)%Q /\ (f1 m == 1)%Q) /\
    (~ In 1 y -> precision m = 0%Q /\ recall m = 0%Q /\ f1 m = 0%Q).
Proof.
  rewrite (compute_metrics_counts y y eq_refl).
  eexists. split; [reflexivity|].
  unfold metrics_of_counts. cbn [tp tn fp fn precision recall f1
    false_positive_rate].
  rewrite (count_pairs_self_off 0 1 y) by discriminate.
  rewrite (count_pairs_self_off 1 0 y) by discriminate.
  rewrite Z.add_0_r.
  split; [reflexivity|]. split; [reflexivity|]. split; [|split].
  - unfold ratio. cbn [Z.add].
    destruct (count_pairs 0 0 (combine y y) =? 0) eqn:E; [reflexivity|].
    apply Z.eqb_neq in E. unfold Qdiv. rewrite Qmult_0_l. reflexivity.
  - intros Hin. pose proof (count_pairs_self_pos 1 y Hin) as Hpos.
    assert (Hp : (ratio (count_pairs 1 1 (combine y y))
                    (count_pairs 1 1 (combine y y)) == 1)%Q).
    { unfold ratio.
      destruct (count_pairs 1 1 (combine y y) =? 0) eqn:E;
        [apply Z.eqb_eq in E; lia|].
      field. intros H0.
      assert (Hq : (inject_Z 0 < inject_Z (count_pairs 1 1 (combine y y)))%Q)
        by (rewrite <- Zlt_Qlt; exact Hpos).
      rewrite H0 in Hq. revert Hq. apply Qlt_irrefl. }
    split; [exact Hp|]. split; [exact Hp|].
    set (p := ratio (count_pairs 1 1 (combine y y))
                (count_pairs 1 1 (combine y y))) in *.
    unfold f1_score.
    destruct (Qeq_bool (p + p) 0) eqn:E.
    + apply Qeq_bool_iff in E. exfalso. lra.
    + rewrite Hp. reflexivity.
  - intros Hn. rewrite (count_pairs_self_zero 1 y Hn). repeat split; reflexivity.
Qed.

Lemma ratio_positive (num extra : Z) :
  0 < num -> 0 <= extra -> (0 < ratio num (num + extra))%Q.
Proof.
  intros Hn He. unfold ratio.
  destruct (num + extra =? 0) eqn:E; [apply Z.eqb_eq in E; lia|].
  apply Qlt_shift_div_l.
  - change 0%Q with (inject_Z 0). rewrite <- Zlt_Qlt. lia.
  - rewrite Qmult_0_l. change 0%Q with (inject_Z 0). rewrite <- Zlt_Qlt.
    exact Hn.
Qed.

Lemma ratio_zero_num (den : Z) : (ratio 0 den == 0)%Q.
Proof.
  unfold ratio. destruct (den =? 0); [reflexivity|].
  unfold Qdiv. rewrite Qmult_0_l. reflexivity.
Qed.

Lemma f1_score_positive (p r : Q) :
  (0 < p)%Q -> (0 < r)%Q -> (0 < f1_score p r)%Q.
Proof.
  intros Hp Hr. unfold f1_score.
  destruct (Qeq_bool (p + r) 0) eqn:E.
  - apply Qeq_bool_iff in E. lra.
  - apply Qlt_shift_div_l; [lra | nra].
Qed.

Lemma f1_score_zero_iff (p r : Q) :
  (0 <= p)%Q -> (0 <= r)%Q ->
  (f1_score p r == 0 <-> p == 0 \/ r == 0)%Q.
Proof.
  intros Hp Hr. unfold f1_score.
  destruct (Qeq_bool (p + r) 0) eqn:E.
  - apply Qeq_bool_iff in E. split; [intros _; left; lra | reflexivity].
  - apply Qeq_bool_false in E.
    assert (Hs : (0 < p + r)%Q).
    { destruct (Qlt_le_dec 0 (p + r)) as [H|H]; [exact H|].
      exfalso. apply E. lra. }
    split.
    + intros H0.
      assert (Hprod : (2 * p * r == 0)%Q).
      { rewrite <- (Qmult_div_r (2 * p * r) (p + r)) by exact E.
        rewrite H0. ring. }
      destruct (Qlt_le_dec 0 p) as [Hp'|Hp']; [|left; lra].
      right. nra.
    + intros [H0|H0]; rewrite H0; unfold Qdiv; ring.
Qed.

(** X12: in metrics that [compute_metrics] returns, F1 is 0 exactly when
    there is no true positive. Without a true positive precision and recall
    are 0 as well; with one, precision, recall and F1 are all above 0. *)
Theorem compute_metrics_f1_vanishes (y_true y_pred : list Z) (m : Metrics) :
  compute_metrics y_true y_pred = Ok m ->
  ((f1 m == 0)%Q <-> tp m = 0) /\
  (tp m = 0 -> (precision m == 0)%Q /\ (recall m == 0)%Q) /\
  (tp m <> 0 -> (0 < precision m)%Q /\ (0 < recall m)%Q /\ (0 < f1 m)%Q).
Proof.
  intros H.
  destruct (compute_metrics_ok_counts _ _ _ H)
    as (Htp & Hfp & Htn & Hfn & Hprec & Hrec & Hf).
  assert (Hp0 : (0 <= precision m)%Q)
    by (rewrite Hprec; apply ratio_range; lia).
  assert (Hr0 : (0 <= recall m)%Q)
    by (rewrite Hrec; apply ratio_range; lia).
  assert (Hpos : tp m <> 0 -> (0 < precision m)%Q /\ (0 < recall m)%Q).
  { intros Hne. assert (Hlt : 0 < tp m) by lia. split.
    - rewrite Hprec. apply ratio_positive; assumption.
    - rewrite Hrec. apply ratio_positive; assumption. }
  split; [|split].
  - rewrite Hf, (f1_score_zero_iff _ _ Hp0 Hr0). split.
    + intros Hz. destruct (Z.eq_dec (tp m) 0) as [E|E]; [exact E|].
      exfalso. destruct (Hpos E) as [Hp Hr].
      destruct Hz as [Hz|Hz]; [rewrite Hz in Hp | rewrite Hz in Hr];
        [revert Hp | revert Hr]; apply Qlt_irrefl.
    + intros E. left. rewrite Hprec, E. apply ratio_zero_num.
  - intros E. split.
    + rewrite Hprec, E. apply ratio_zero_num.
    + rewrite Hrec, E. apply ratio_zero_num.
  - intros Hne. destruct (Hpos Hne) as [Hp Hr].
    split; [exact Hp|]. split; [exact Hr|].
    rewrite Hf. apply f1_score_positive; assumption.
Qed.

End EvaluatorMore.

Section EvaluatorMoreRuns.
Import train_nsl_kdd.

Lemma compute_metrics_shape_mismatch_witness :
  compute_metrics [1; 0; 1] [1; 0]
  = Raise (ValueError "operands could not be broadcast together").
Proof.
  apply compute_metrics_shape_mismatch; cbn; lia.
Defined.

Lemma compute_metrics_swap_witness :
  exists m m',
    compute_metrics [1; 0; 1; 0; 1] [1; 1; 0; 0; 1] = Ok m /\
    compute_metrics [1; 1; 0; 0; 1] [1; 0; 1; 0; 1] = Ok m' /\
    fp m' = fn m /\ fn m' = fp m /\
    precision m' = recall m /\ recall m' = precision m.
Proof.
  destruct (compute_metrics_swap [1; 0; 1; 0; 1] [1; 1; 0; 0; 1] eq_refl)
    as (m & m' & H & H' & _ & _ & Hfp & Hfn & Hp & Hr & _).
  exists m, m'. repeat split; assumption.
Defined.

Lemma compute_metrics_agreement_witness :
  (exists m, compute_metrics [0; 1; 0] [0; 1; 0] = Ok m /\ (f1 m == 1)%Q) /\
  (exists m, compute_metrics [0; 0; 0] [0; 0; 0] = Ok m /\ f1 m = 0%Q).
Proof.
  split.
  - destruct (compute_metrics_agreement [0; 1; 0])
      as (m & H & _ & _ & _ & Hsome & _).
    exists m. split; [exact H|]. apply Hsome. cbn. tauto.
  - destruct (compute_metrics_agreement [0; 0; 0])
      as (m & H & _ & _ & _ & _ & Hnone).
    exists m. split; [exact H|]. apply Hnone. cbn. intros [H0|[H0|[H0|[]]]];
      discriminate.
Defined.

Lemma compute_metrics_f1_vanishes_witness :
  exists m,
    compute_metrics [1; 0; 1; 1; 1] [1; 1; 0; 0; 1] = Ok m /\
    ((f1 m == 0)%Q <-> tp m = 0) /\ (0 < f1 m)%Q.
Proof.
  eexists. split; [reflexivity|].
  destruct (compute_metrics_f1_vanishes [1; 0; 1; 1; 1] [1; 1; 0; 0; 1] _
              eq_refl) as (H1 & _ & H3).
  split; [exact H1|]. apply H3. discriminate.
Defined.

End EvaluatorMoreRuns.

(** ** apply_log_transform *)

Section LogTransformProofs.
Import preprocessing.
Variable log1p : Q -> Q.

Lemma string_length_append (a b : string) :
  String.length (a ++ b) = (String.length a + String.length b)%nat.
Proof. induction a as [|c a IH]; cbn; [reflexivity | rewrite IH; reflexivity]. Qed.

Lemma string_append_cancel_r (a b s : string) :
  (a ++ s = b ++ s)%string -> a = b.
Proof.
  revert b. induction a as [|c a IH]; intros [|c' b] H; cbn in H.
  - reflexivity.
  - exfalso. apply (f_equal String.length) in H. cbn in H.
    rewrite string_length_append in H. lia.
  - exfalso. apply (f_equal String.length) in H. cbn in H.
    rewrite string_length_append in H. lia.
  - injection H as -> H. f_equal. apply IH. exact H.
Qed.

Lemma string_append_log_neq (f : string) : (f ++ "_log")%string <> f.
Proof.
  intros H. apply (f_equal String.length) in H.
  rewrite string_length_append in H. cbn in H. lia.
Qed.

Lemma log_loop_raise_stays (features : list string) (e : PyExc) :
  (transformed <- Raise e ;; log_loop log1p features transformed) = Raise e.
Proof. reflexivity. Qed.

(** X13: [apply_log_transform] skips the configured features that are no
    column of the frame: when none of them is, the frame comes back as it
    was, and nothing is raised. *)
Theorem apply_log_transform_skips_absent
    (cfg : PreprocessingConfig) (df : DataFrame) :
  (forall feature, In feature (log_transform_features cfg) ->
                   has_column df feature = false) ->
  apply_log_transform log1p cfg df = Ok df.
Proof.
  unfold apply_log_transform.
  induction (log_transform_features cfg) as [|f features IH]; intros H.
  - reflexivity.
  - cbn [log_loop]. unfold log_step.
    rewrite (H f (or_introl eq_refl)). cbn [rbind].
    apply IH. intros g Hg. apply H. right. exact Hg.
Qed.

(** The frame after one feature was transformed. *)
Lemma log_step_present (df : DataFrame) (f : string) (v : list Q) :
  get_col df f = Ok (NumCol v) ->
  let df1 := drop_col (set_col df (f ++ "_log") (NumCol (map log1p v))) f in
  log_step log1p df f = Ok df1 /\
  index df1 = index df /\
  get_col df1 f = Raise (KeyError f) /\
  get_col df1 (f ++ "_log") = Ok (NumCol (map log1p v)) /\
  forall name, name <> f -> name <> (f ++ "_log")%string ->
               get_col df1 name = get_col df name.
Proof.
  intros H df1. split; [|split; [|split; [|split]]].
  - unfold log_step.
    assert (Hh : has_column df f = true)
      by (apply has_column_get_col; eexists; exact H).
    rewrite Hh, H. reflexivity.
  - reflexivity.
  - apply get_col_drop_same.
  - unfold df1. rewrite get_col_drop_other by apply string_append_log_neq.
    apply get_col_set_same.
  - intros name Hf Hlog. unfold df1.
    rewrite get_col_drop_other by exact Hf.
    apply get_col_set_other. exact Hlog.
Qed.

Lemma has_column_of_get_col (df df' : DataFrame) (name : string) :
  get_col df' name = get_col df name ->
  has_column df' name = has_column df name.
Proof.
  intros H. destruct (has_column df name) eqn:E.
  - apply has_column_get_col. apply has_column_get_col in E.
    destruct E as [c E]. exists c. congruence.
  - apply has_column_false_get_col. rewrite H. apply get_col_absent. exact E.
Qed.

Lemma log_loop_effect (features : list string) (df : DataFrame) :
  (forall f g, In f features -> In g features -> g <> (f ++ "_log")%string) ->
  (forall f c, In f features -> get_col df f = Ok c -> exists v, c = NumCol v) ->
  exists out,
    log_loop log1p features df = Ok out /\
    index out = index df /\
    (forall f v,
       In f features -> get_col df f = Ok (NumCol v) ->
       get_col out (f ++ "_log") = Ok (NumCol (map log1p v)) /\
       has_column out f = false) /\
    (forall name,
       (In name features -> has_column df name = false) ->
       (forall g, In g features -> has_column df g = true ->
                  name <> (g ++ "_log")%string) ->
       get_col out name = get_col df name).
Proof.
  revert df. induction features as [|f0 features IH]; intros df Hclash Hnum.
  - exists df. split; [reflexivity|]. split; [reflexivity|].
    split; [intros f v []|]. intros name _ _. reflexivity.
  - assert (Hclash' : forall f g, In f features -> In g features ->
                                  g <> (f ++ "_log")%string)
      by (intros f g Hf Hg; apply Hclash; right; assumption).
    cbn [log_loop].
    destruct (has_column df f0) eqn:Ef0.
    + (* the feature is a column: it is transformed *)
      destruct (get_col_present df f0 Ef0) as [c0 Hc0].
      destruct (Hnum f0 c0 (or_introl eq_refl) Hc0) as [v0 ->].
      destruct (log_step_present df f0 v0 Hc0)
        as (Hstep & Hidx & Hgone & Hlog & Hother).
      set (df1 := drop_col (set_col df (f0 ++ "_log")
                              (NumCol (map log1p v0))) f0) in *.
      rewrite Hstep. cbn [rbind].
      assert (Hkeep : forall g, In g features -> g <> f0 ->
                                get_col df1 g = get_col df g).
      { intros g Hg Hne. apply Hother; [exact Hne|].
        apply (Hclash f0 g); [left; reflexivity | right; exact Hg]. }
      assert (Hnum' : forall f c, In f features -> get_col df1 f = Ok c ->
                                  exists v, c = NumCol v).
      { intros f c Hf Hc. destruct (string_dec f f0) as [->|Hne].
        - rewrite Hgone in Hc. discriminate.
        - rewrite (Hkeep f Hf Hne) in Hc.
          apply (Hnum f c); [right; exact Hf | exact Hc]. }
      destruct (IH df1 Hclash' Hnum') as (out & Hout & Hoidx & Hdone & Hrest).
      exists out. split; [exact Hout|]. split; [congruence|]. split.
      * intros f v Hf Hv. destruct (string_dec f f0) as [->|Hne].
        -- assert (Ev : v = v0) by congruence. subst v. split.
           ++ rewrite <- Hlog. apply Hrest.
              ** intros Hin. exfalso.
                 apply (Hclash f0 (f0 ++ "_log")%string);
                   [left; reflexivity | right; exact Hin | reflexivity].
              ** intros g Hg Hpresent Heq.
                 apply string_append_cancel_r in Heq. subst g.
                 apply has_column_false_get_col in Hgone. congruence.
           ++ apply has_column_false_get_col.
              rewrite <- Hgone. apply Hrest.
              ** intros _. apply has_column_false_get_col. exact Hgone.
              ** intros g Hg _.
                 apply (Hclash g f0); [right; exact Hg | left; reflexivity].
        -- destruct Hf as [Hf|Hf]; [congruence|].
           apply Hdone; [exact Hf|]. rewrite (Hkeep f Hf Hne). exact Hv.
      * intros name Habsent Hnew.
        assert (Hn0 : name <> f0).
        { intros ->. rewrite (Habsent (or_introl eq_refl)) in Ef0.
          discriminate. }
        assert (Hnl : name <> (f0 ++ "_log")%string)
          by (apply Hnew; [left; reflexivity | exact Ef0]).
        rewrite <- (Hother name Hn0 Hnl). apply Hrest.
        -- intros Hin.
           rewrite (has_column_of_get_col df df1 name (Hother name Hn0 Hnl)).
           apply Habsent. right. exact Hin.
        -- intros g Hg Hpresent. apply Hnew; [right; exact Hg|].
           destruct (string_dec g f0) as [->|Hne].
           ++ apply has_column_false_get_col in Hgone. congruence.
           ++ rewrite <- (has_column_of_get_col df df1 g (Hkeep g Hg Hne)).
              exact Hpresent.
    + (* the feature is no column: it is skipped *)
      unfold log_step. rewrite Ef0. cbn [rbind].
      assert (Hnum' : forall f c, In f features -> get_col df f = Ok c ->
                                  exists v, c = NumCol v)
        by (intros f c Hf; apply Hnum; right; exact Hf).
      destruct (IH df Hclash' Hnum') as (out & Hout & Hoidx & Hdone & Hrest).
      exists out. split; [exact Hout|]. split; [exact Hoidx|]. split.
      * intros f v [->|Hf] Hv.
        -- apply get_col_absent in Ef0. congruence.
        -- apply Hdone; assumption.
      * intros name Habsent Hnew. apply Hrest.
        -- intros Hin. apply Habsent. right. exact Hin.
        -- intros g Hg. apply Hnew. right. exact Hg.
Qed.

(** X14: when no configured feature is named like the log column of
    another and the configured columns are numeric, [apply_log_transform]
    returns; it keeps the row labels; each configured column [f] is gone
    and a column [f_log] holds log1p of its values; every column that is
    neither configured nor such a log column is as it was. *)
Theorem apply_log_transform_effect (cfg : PreprocessingConfig) (df : DataFrame) :
  (forall f g, In f (log_transform_features cfg) ->
               In g (log_transform_features cfg) -> g <> (f ++ "_log")%string) ->
  (forall f c, In f (log_transform_features cfg) -> get_col df f = Ok c ->
               exists v, c = NumCol v) ->
  exists out,
    apply_log_transform log1p cfg df = Ok out /\
    index out = index df /\
    (forall f v,
       In f (log_transform_features cfg) -> get_col df f = Ok (NumCol v) ->
       get_col out (f ++ "_log") = Ok (NumCol (map log1p v)) /\
       has_column out f = false) /\
    (forall name,
       (In name (log_transform_features cfg) -> has_column df name = false) ->
       (forall g, In g (log_transform_features cfg) ->
                  has_column df g = true -> name <> (g ++ "_log")%string) ->
       get_col out name = get_col df name).
Proof. apply log_loop_effect. Qed.

End LogTransformProofs.

(** ** detect_feature_outliers: quantiles and what the filter keeps *)

Section Quantiles.
Import preprocessing.

Lemma insert_sorted_perm (x : Q) (l : list Q) :
  Permutation (insert_sorted x l) (x :: l).
Proof.
  induction l as [|y l IH]; cbn [insert_sorted]; [apply Permutation_refl|].
  destruct (Qle_bool x y); [apply Permutation_refl|].
  apply perm_trans with (y :: x :: l); [apply perm_skip; exact IH|].
  apply perm_swap.
Qed.

Lemma sort_values_perm (l : list Q) : Permutation (sort_values l) l.
Proof.
  unfold sort_values. induction l as [|x l IH]; cbn [fold_right]; [constructor|].
  apply perm_trans with (x :: fold_right insert_sorted [] l).
  - apply insert_sorted_perm.
  - apply perm_skip. exact IH.
Qed.

Lemma insert_sorted_sorted (x : Q) (l : list Q) :
  StronglySorted Qle l -> StronglySorted Qle (insert_sorted x l).
Proof.
  induction 1 as [|y l Hs IH Hy]; cbn [insert_sorted].
  - constructor; constructor.
  - destruct (Qle_bool x y) eqn:E.
    + apply Qle_bool_iff in E. constructor; [constructor; assumption|].
      constructor; [exact E|].
      apply Forall_impl with (P := Qle y); [|exact Hy].
      intros z Hz. apply Qle_trans with y; assumption.
    + assert (Hyx : (y <= x)%Q).
      { destruct (Qlt_le_dec y x) as [H|H]; [apply Qlt_le_weak; exact H|].
        apply Qle_bool_iff in H. congruence. }
      constructor; [exact IH|].
      apply (Permutation_Forall (Permutation_sym (insert_sorted_perm x l))).
      constructor; assumption.
Qed.

Lemma sort_values_sorted (l : list Q) : StronglySorted Qle (sort_values l).
Proof.
  unfold sort_values. induction l as [|x l IH]; cbn [fold_right]; [constructor|].
  apply insert_sorted_sorted. exact IH.
Qed.

Lemma sorted_nth_le (s : list Q) (i j : nat) :
  StronglySorted Qle s -> (i <= j)%nat -> (j < length s)%nat ->
  (nth i s 0 <= nth j s 0)%Q.
Proof.
  intros Hs. revert i j. induction Hs as [|x s Hs IH Hx]; intros i j Hij Hj.
  - cbn in Hj. lia.
  - destruct j as [|j].
    + assert (i = 0)%nat by lia. subst i. apply Qle_refl.
    + cbn in Hj. destruct i as [|i].
      * cbn [nth]. rewrite Forall_forall in Hx. apply Hx. apply nth_In. lia.
      * cbn [nth]. apply IH; lia.
Qed.

Lemma quantile_interpolate (v : list Q) (q : Q) :
  v <> [] -> quantile v q = Some (interpolate (sort_values v) q).
Proof.
  intros Hv. unfold quantile, interpolate.
  destruct (sort_values v) as [|x s] eqn:E; [|reflexivity].
  exfalso. apply Hv.
  apply Permutation_nil. rewrite <- E. apply sort_values_perm.
Qed.

Lemma interpolate_between (s : list Q) (q : Q) :
  StronglySorted Qle s -> s <> [] -> (0 <= q <= 1)%Q ->
  let last := Z.of_nat (length s) - 1 in
  let lo := Qfloor (q * inject_Z last) in
  let hi := Z.min (lo + 1) last in
  0 <= lo <= last /\
  (nth (Z.to_nat lo) s 0 <= interpolate s q <= nth (Z.to_nat hi) s 0)%Q.
Proof.
  intros Hs Hne [Hq0 Hq1] last lo hi.
  assert (Hlen : (0 < length s)%nat) by (destruct s; [congruence | cbn; lia]).
  assert (Hlast : 0 <= last) by (unfold last; lia).
  assert (HlastQ : (0 <= inject_Z last)%Q)
    by (change 0%Q with (inject_Z 0); rewrite <- Zle_Qle; exact Hlast).
  assert (Hpos0 : (0 <= q * inject_Z last)%Q) by nra.
  assert (Hpos1 : (q * inject_Z last <= inject_Z last)%Q) by nra.
  assert (Hlo : 0 <= lo <= last).
  { unfold lo. split.
    - change 0 with (Qfloor 0). apply Qfloor_resp_le. exact Hpos0.
    - apply Z.le_trans with (Qfloor (inject_Z last));
        [apply Qfloor_resp_le; exact Hpos1 | rewrite Qfloor_Z; lia]. }
  split; [exact Hlo|].
  pose proof (Qfloor_le (q * inject_Z last)) as Hf0.
  pose proof (Qlt_floor (q * inject_Z last)) as Hf1.
  fold lo in Hf0, Hf1.
  assert (Hone : (inject_Z (lo + 1) == inject_Z lo + 1)%Q)
    by (rewrite inject_Z_plus; reflexivity).
  rewrite Hone in Hf1.
  assert (Hab : (nth (Z.to_nat lo) s 0 <= nth (Z.to_nat hi) s 0)%Q).
  { apply sorted_nth_le; [exact Hs | unfold hi; lia | unfold hi, last in *; lia]. }
  unfold interpolate. fold last. fold lo. fold hi.
  set (a := nth (Z.to_nat lo) s 0%Q) in *.
  set (b := nth (Z.to_nat hi) s 0%Q) in *.
  set (f := (q * inject_Z last - inject_Z lo)%Q).
  assert (Hfr : (0 <= f <= 1)%Q) by (unfold f; split; lra).
  split; nra.
Qed.

End Quantiles.

Section OutlierBounds.
Import preprocessing.

Lemma interpolate_one (x : Q) :
  (interpolate [x] (1 # 4) == x)%Q /\ (interpolate [x] (3 # 4) == x)%Q.
Proof. split; unfold interpolate; simpl; ring. Qed.

Lemma interpolate_two (x y : Q) :
  (interpolate [x; y] (1 # 4) == x + (y - x) * (1 # 4))%Q /\
  (interpolate [x; y] (3 # 4) == x + (y - x) * (3 # 4))%Q.
Proof.
  split; unfold interpolate; simpl.
  - change (1 / 4) with 0. ring.
  - change (3 / 4) with 0. ring.
Qed.

(** Some value of the sorted list lies between the two quartiles when there
    are three values or more. *)
Lemma quartiles_enclose_a_value (s : list Q) :
  StronglySorted Qle s -> (3 <= length s)%nat ->
  exists x, In x s /\
            (interpolate s (1 # 4) <= x <= interpolate s (3 # 4))%Q.
Proof.
  intros Hs Hlen.
  assert (Hne : s <> []) by (destruct s; [cbn in Hlen; lia | discriminate]).
  assert (Hq1 : (0 <= 1 # 4 <= 1)%Q) by (split; discriminate).
  assert (Hq3 : (0 <= 3 # 4 <= 1)%Q) by (split; discriminate).
  destruct (interpolate_between s (1 # 4) Hs Hne Hq1) as [Hlo1 [_ Hb1]].
  destruct (interpolate_between s (3 # 4) Hs Hne Hq3) as [Hlo3 [Ha3 _]].
  set (last := Z.of_nat (length s) - 1) in *.
  set (lo1 := Qfloor ((1 # 4) * inject_Z last)) in *.
  set (lo3 := Qfloor ((3 # 4) * inject_Z last)) in *.
  assert (Hlast : 2 <= last) by (unfold last; lia).
  assert (HlastQ : (2 <= inject_Z last)%Q)
    by (change 2%Q with (inject_Z 2); rewrite <- Zle_Qle; exact Hlast).
  assert (Hlt : lo1 < lo3).
  { pose proof (Qfloor_le ((1 # 4) * inject_Z last)) as H1.
    pose proof (Qlt_floor ((3 # 4) * inject_Z last)) as H3.
    fold lo1 in H1. fold lo3 in H3.
    rewrite inject_Z_plus in H3. change (inject_Z 1) with 1%Q in H3.
    rewrite Zlt_Qlt. lra. }
  exists (nth (Z.to_nat (Z.min (lo1 + 1) last)) s 0%Q).
  split.
  - apply nth_In. unfold last in *. lia.
  - split; [exact Hb1|].
    apply Qle_trans with (nth (Z.to_nat lo3) s 0%Q); [|exact Ha3].
    apply sorted_nth_le; [exact Hs | lia | unfold last in *; lia].
Qed.

(** Whatever the values, one of them lies within the bounds of a threshold
    of one half or more. *)
Lemma bounds_keep_a_value (threshold : Q) (v : list Q) :
  v <> [] -> ((1 # 2) <= threshold)%Q ->
  exists lower upper x,
    bounds threshold v = Some (lower, upper) /\
    In x v /\ (lower <= x <= upper)%Q.
Proof.
  intros Hv Ht. unfold bounds.
  rewrite !(quantile_interpolate v _ Hv).
  pose proof (sort_values_sorted v) as Hs.
  pose proof (sort_values_perm v) as Hperm.
  set (s := sort_values v) in *.
  assert (Hin : forall x, In x s -> In x v)
    by (intros x Hx; apply (Permutation_in x Hperm Hx)).
  assert (Hx : exists x, In x s /\
            (interpolate s (1 # 4)
               - threshold * (interpolate s (3 # 4) - interpolate s (1 # 4))
             <= x
             <= interpolate s (3 # 4)
                + threshold * (interpolate s (3 # 4) - interpolate s (1 # 4)))%Q).
  { clearbody s.
    destruct s as [|x0 [|x1 [|x2 s']]].
    - exfalso. apply Hv. apply Permutation_nil. exact Hperm.
    - destruct (interpolate_one x0) as [E1 E3].
      exists x0. split; [left; reflexivity|]. rewrite E1, E3. split; nra.
    - destruct (interpolate_two x0 x1) as [E1 E3].
      assert (H01 : (x0 <= x1)%Q).
      { inversion Hs as [|? ? _ Hall]; subst.
        inversion Hall; subst. assumption. }
      exists x0. split; [left; reflexivity|]. rewrite E1, E3. split; nra.
    - destruct (quartiles_enclose_a_value (x0 :: x1 :: x2 :: s') Hs)
        as (x & Hx & Hx1 & Hx3); [cbn; lia|].
      exists x. split; [exact Hx|]. split; nra. }
  destruct Hx as (x & Hx & Hb).
  eexists. eexists. exists x.
  split; [reflexivity|]. split; [apply Hin; exact Hx | exact Hb].
Qed.

End OutlierBounds.

Section OutlierInvariants.
Import preprocessing.

Lemma mask_filter_same_length {A B : Type} (mask : list bool)
    (a : list A) (b : list B) :
  length a = length b ->
  length (mask_filter mask a) = length (mask_filter mask b).
Proof.
  revert a b. induction mask as [|m mask IH]; intros [|x a] [|y b] H;
    cbn in *; try discriminate; try reflexivity.
  destruct m; cbn; rewrite (IH a b) by congruence; reflexivity.
Qed.

Lemma column_filter_length (mask : list bool) (c : Column) (idx : list Z) :
  column_length c = length idx ->
  column_length (column_filter mask c) = length (mask_filter mask idx).
Proof.
  destruct c as [v|v]; cbn; apply mask_filter_same_length.
Qed.

Lemma row_filter_well_formed (mask : list bool) (df : DataFrame) :
  well_formed df -> well_formed (row_filter mask df).
Proof.
  unfold well_formed, row_filter, len. cbn [columns index]. intros H.
  apply Forall_forall. intros [k c] Hin. apply in_map_iff in Hin.
  destruct Hin as ([k0 c0] & Heq & Hin). injection Heq as <- <-. cbn [snd fst].
  apply column_filter_length.
  rewrite Forall_forall in H. apply (H (k0, c0) Hin).
Qed.

Lemma row_filter_column_names (mask : list bool) (df : DataFrame) :
  column_names (row_filter mask df) = column_names df.
Proof.
  unfold column_names, row_filter. cbn [columns]. rewrite map_map.
  apply map_ext. intros [k c]. reflexivity.
Qed.

Lemma assoc_In {B : Type} (name : string) (l : list (string * B)) (v : B) :
  assoc name l = Some v -> In (name, v) l.
Proof.
  induction l as [|[k w] l IH]; cbn [assoc]; [discriminate|].
  destruct (String.eqb name k) eqn:E.
  - intros H. injection H as ->. apply String.eqb_eq in E. subst k.
    left. reflexivity.
  - intros H. right. apply IH. exact H.
Qed.

Lemma mask_filter_keeps {A : Type} (f : Q -> bool) (v : list Q) (rows : list A)
    (x : Q) :
  length v = length rows -> In x v -> f x = true ->
  mask_filter (map f v) rows <> [].
Proof.
  revert rows. induction v as [|y v IH]; intros [|r rows] Hlen Hin Hf;
    cbn in Hlen; try discriminate; [destruct Hin|].
  cbn [map mask_filter]. destruct (f y) eqn:E; [discriminate|].
  destruct Hin as [->|Hin]; [congruence|].
  apply IH; [congruence | exact Hin | exact Hf].
Qed.

Lemma outlier_step_invariant (threshold : Q) (df : DataFrame)
    (acc : list (string * FeatureOutliers)) (column : string) :
  well_formed df ->
  well_formed (fst (outlier_step threshold (df, acc) column)) /\
  column_names (fst (outlier_step threshold (df, acc) column))
  = column_names df.
Proof.
  intros Hwf. unfold outlier_step.
  destruct (assoc column (columns df)) as [[v|v]|]; cbn [fst]; auto.
  destruct (Qle_bool 3 threshold); cbn [fst]; auto.
  split; [apply row_filter_well_formed; exact Hwf
         | apply row_filter_column_names].
Qed.

Lemma outlier_step_keeps_a_row (threshold : Q) (df : DataFrame)
    (acc : list (string * FeatureOutliers)) (column : string) :
  well_formed df -> len df <> 0%nat ->
  len (fst (outlier_step threshold (df, acc) column)) <> 0%nat.
Proof.
  intros Hwf Hne. unfold outlier_step.
  destruct (assoc column (columns df)) as [[v|v]|] eqn:Ec; cbn [fst]; auto.
  destruct (Qle_bool 3 threshold) eqn:Et; cbn [fst]; auto.
  apply Qle_bool_iff in Et.
  assert (Hlen : length v = len df).
  { apply assoc_In in Ec. unfold well_formed in Hwf.
    rewrite Forall_forall in Hwf. apply (Hwf _ Ec). }
  assert (Hv : v <> []) by (intros ->; cbn in Hlen; congruence).
  assert (Hhalf : ((1 # 2) <= threshold)%Q) by lra.
  destruct (bounds_keep_a_value threshold v Hv Hhalf)
    as (lower & upper & x & Hb & Hx & Hlo & Hup).
  unfold len, row_filter. cbn [index]. unfold outlier_mask. rewrite Hb.
  rewrite map_map. intros H0. apply length_zero_iff_nil in H0. revert H0.
  apply (mask_filter_keeps _ v (index df) x Hlen Hx).
  apply negb_true_iff. apply orb_false_iff.
  split; apply Qltb_false; assumption.
Qed.

Lemma outlier_fold_invariant (threshold : Q) (names : list string)
    (df : DataFrame) (acc : list (string * FeatureOutliers)) :
  well_formed df ->
  let cleaned := fst (fold_left (outlier_step threshold) names (df, acc)) in
  well_formed cleaned /\ column_names cleaned = column_names df /\
  (len df <> 0%nat -> len cleaned <> 0%nat).
Proof.
  revert df acc. induction names as [|c names IH]; intros df acc Hwf;
    cbn [fold_left].
  - cbn. auto.
  - destruct (outlier_step_invariant threshold df acc c Hwf) as [Hwf1 Hn1].
    pose proof (outlier_step_keeps_a_row threshold df acc c Hwf) as Hk1.
    destruct (outlier_step threshold (df, acc) c) as [df1 acc1] eqn:E.
    cbn [fst] in *.
    destruct (IH df1 acc1 Hwf1) as (Hwf2 & Hn2 & Hk2).
    split; [exact Hwf2|]. split; [congruence|].
    intros Hne. apply Hk2. apply Hk1. exact Hne.
Qed.

Lemma detect_feature_outliers_inv (df cleaned : DataFrame) (threshold : Q)
    (stats : OutlierStats) :
  detect_feature_outliers df threshold = Ok (cleaned, stats) ->
  len df <> 0%nat /\
  cleaned = fst (fold_left (outlier_step threshold) (column_names df) (df, [])) /\
  total_outliers stats = Z.of_nat (len df) - Z.of_nat (len cleaned) /\
  outliers_by_feature stats
  = snd (fold_left (outlier_step threshold) (column_names df) (df, [])) /\
  removal_percentage stats
  = (inject_Z (Z.of_nat (len df) - Z.of_nat (len cleaned))
     / inject_Z (Z.of_nat (len df)) * 100)%Q.
Proof.
  unfold detect_feature_outliers.
  destruct (fold_left (outlier_step threshold) (column_names df) (df, []))
    as [c a].
  destruct (Nat.eqb (len df) 0) eqn:E; [discriminate|].
  apply Nat.eqb_neq in E. intros H. injection H as <- <-.
  cbn [fst snd total_outliers outliers_by_feature removal_percentage].
  repeat split; auto.
Qed.

(** X15: the frame that [detect_feature_outliers] returns is a frame: each
    column still has one value per row label, and the columns are those of
    the input, in the same order. *)
Theorem detect_feature_outliers_keeps_shape (df cleaned : DataFrame)
    (threshold : Q) (stats : OutlierStats) :
  well_formed df ->
  detect_feature_outliers df threshold = Ok (cleaned, stats) ->
  well_formed cleaned /\ column_names cleaned = column_names df.
Proof.
  intros Hwf H. apply detect_feature_outliers_inv in H.
  destruct H as (_ & -> & _).
  destruct (outlier_fold_invariant threshold (column_names df) df [] Hwf)
    as (H1 & H2 & _).
  split; assumption.
Qed.

(** X16: [detect_feature_outliers] never removes every row: on a frame
    with one value per row label in every column and at least one row it
    returns a frame with at least one row, at any threshold, and reports a
    removal percentage below 100. *)
Theorem detect_feature_outliers_keeps_a_row (df : DataFrame) (threshold : Q) :
  well_formed df -> len df <> 0%nat ->
  exists cleaned stats,
    detect_feature_outliers df threshold = Ok (cleaned, stats) /\
    len cleaned <> 0%nat /\
    (removal_percentage stats < 100)%Q.
Proof.
  intros Hwf Hne.
  destruct (detect_feature_outliers_rows df threshold Hne)
    as (cleaned & stats & H & _ & Hle & _ & _).
  exists cleaned, stats. split; [exact H|].
  destruct (detect_feature_outliers_inv _ _ _ _ H)
    as (_ & Hc & _ & _ & Hrp).
  destruct (outlier_fold_invariant threshold (column_names df) df [] Hwf)
    as (_ & _ & Hk).
  rewrite <- Hc in Hk. specialize (Hk Hne).
  split; [exact Hk|]. rewrite Hrp.
  assert (Hn : (0 < inject_Z (Z.of_nat (len df)))%Q)
    by (change 0%Q with (inject_Z 0); rewrite <- Zlt_Qlt; lia).
  assert (Hr : (inject_Z (Z.of_nat (len df) - Z.of_nat (len cleaned))
                < inject_Z (Z.of_nat (len df)))%Q)
    by (rewrite <- Zlt_Qlt; lia).
  assert (Hq : (inject_Z (Z.of_nat (len df) - Z.of_nat (len cleaned))
                / inject_Z (Z.of_nat (len df)) < 1)%Q).
  { apply Qlt_shift_div_r; [exact Hn|]. rewrite Qmult_1_l. exact Hr. }
  lra.
Qed.

End OutlierInvariants.

Section OutlierReport.
Import preprocessing.

Lemma assoc_set_In {B : Type} (name k : string) (v w : B)
    (l : list (string * B)) :
  In (k, w) (assoc_set name v l) -> (k = name /\ w = v) \/ In (k, w) l.
Proof.
  induction l as [|[k0 w0] l IH]; cbn [assoc_set].
  - intros [H|[]]. injection H as <- <-. left. auto.
  - destruct (String.eqb name k0) eqn:E.
    + apply String.eqb_eq in E. subst k0.
      intros [H|H]; [injection H as <- <-; left; auto | right; right; exact H].
    + intros [H|H]; [right; left; exact H|].
      destruct (IH H) as [Hl|Hr]; [left; exact Hl | right; right; exact Hr].
Qed.

Lemma numeric_column_row_filter (mask : list bool) (df : DataFrame)
    (name : string) :
  numeric_column (row_filter mask df) name -> numeric_column df name.
Proof.
  unfold numeric_column, row_filter. cbn [columns].
  rewrite assoc_map_columns. intros [v H].
  destruct (assoc name (columns df)) as [[w|w]|]; cbn in H; try discriminate.
  exists w. reflexivity.
Qed.

Lemma outlier_fold_report (threshold : Q) (names : list string)
    (df0 df : DataFrame) (acc : list (string * FeatureOutliers)) :
  (forall name, numeric_column df name -> numeric_column df0 name) ->
  (forall k fo, In (k, fo) acc -> numeric_column df0 k /\ 0 <= count fo) ->
  forall k fo,
    In (k, fo) (snd (fold_left (outlier_step threshold) names (df, acc))) ->
    numeric_column df0 k /\ 0 <= count fo.
Proof.
  revert df acc. induction names as [|c names IH]; intros df acc Hnum Hacc;
    cbn [fold_left]; [exact Hacc|].
  destruct (outlier_step threshold (df, acc) c) as [df1 acc1] eqn:E.
  apply (IH df1 acc1).
  - intros name H1. apply Hnum. unfold outlier_step in E.
    destruct (assoc c (columns df)) as [[v|v]|];
      try (injection E as <- <-; exact H1).
    destruct (Qle_bool 3 threshold); injection E as <- <-;
      [apply (numeric_column_row_filter _ _ _ H1) | exact H1].
  - intros k fo Hin. unfold outlier_step in E.
    destruct (assoc c (columns df)) as [[v|v]|] eqn:Ec;
      try (injection E as <- <-; apply Hacc; exact Hin).
    assert (Hin' : In (k, fo)
              (assoc_set c
                 (mkFeatureOutliers (np_sum (outlier_mask threshold v))
                    (np_percentage (np_sum (outlier_mask threshold v)) (len df)))
                 acc))
      by (destruct (Qle_bool 3 threshold); injection E as <- <-; exact Hin).
    apply assoc_set_In in Hin'. destruct Hin' as [[-> ->]|Hold].
    + split; [apply Hnum; exists v; exact Ec | apply np_sum_nonneg].
    + apply Hacc. exact Hold.
Qed.

(** X17: the report of [detect_feature_outliers] agrees with the frame it
    returns: total_outliers is the number of rows removed, between 0 and
    the number of rows, removal_percentage is that share in percent,
    between 0 and 100, and the per-column entries are those of numeric
    columns, with non-negative counts. Below a threshold of 3 the total
    and the percentage are 0 whatever the per-column counts: they count the
    rows removed, not the outliers found. *)
Theorem detect_feature_outliers_report (df cleaned : DataFrame)
    (threshold : Q) (stats : OutlierStats) :
  detect_feature_outliers df threshold = Ok (cleaned, stats) ->
  total_outliers stats = Z.of_nat (len df) - Z.of_nat (len cleaned) /\
  0 <= total_outliers stats <= Z.of_nat (len df) /\
  (removal_percentage stats
   == inject_Z (total_outliers stats) / inject_Z (Z.of_nat (len df)) * 100)%Q /\
  (0 <= removal_percentage stats <= 100)%Q /\
  (forall name entry,
     In (name, entry) (outliers_by_feature stats) ->
     (exists v, get_col df name = Ok (NumCol v)) /\ 0 <= count entry) /\
  ((threshold < 3)%Q ->
   total_outliers stats = 0 /\ (removal_percentage stats == 0)%Q).
Proof.
  intros H.
  destruct (detect_feature_outliers_inv _ _ _ _ H)
    as (Hne & Hc & Htot & Hby & Hrp).
  destruct (detect_feature_outliers_rows df threshold Hne)
    as (cleaned' & stats' & H' & _ & Hle & Hbelow & _).
  rewrite H in H'. injection H' as <- <-.
  assert (Hn : (0 < inject_Z (Z.of_nat (len df)))%Q)
    by (change 0%Q with (inject_Z 0); rewrite <- Zlt_Qlt; lia).
  assert (Hr0 : (0 <= inject_Z (Z.of_nat (len df) - Z.of_nat (len cleaned)))%Q)
    by (change 0%Q with (inject_Z 0); rewrite <- Zle_Qle; lia).
  assert (Hr1 : (inject_Z (Z.of_nat (len df) - Z.of_nat (len cleaned))
                 <= inject_Z (Z.of_nat (len df)))%Q)
    by (rewrite <- Zle_Qle; lia).
  split; [exact Htot|]. split; [lia|].
  split; [rewrite Hrp, Htot; reflexivity|]. split; [|split].
  - rewrite Hrp.
    assert (Hq0 : (0 <= inject_Z (Z.of_nat (len df) - Z.of_nat (len cleaned))
                        / inject_Z (Z.of_nat (len df)))%Q)
      by (apply Qle_shift_div_l; [exact Hn | rewrite Qmult_0_l; exact Hr0]).
    assert (Hq1 : (inject_Z (Z.of_nat (len df) - Z.of_nat (len cleaned))
                   / inject_Z (Z.of_nat (len df)) <= 1)%Q)
      by (apply Qle_shift_div_r; [exact Hn | rewrite Qmult_1_l; exact Hr1]).
    split; lra.
  - intros name entry Hin. rewrite Hby in Hin.
    destruct (outlier_fold_report threshold (column_names df) df df []
                (fun _ Hx => Hx) (fun _ _ Hx => match Hx with end)
                name entry Hin) as [[v Hv] Hcount].
    split; [|exact Hcount]. exists v. unfold get_col. rewrite Hv. reflexivity.
  - intros Hlt. specialize (Hbelow Hlt). clear Hc. subst cleaned.
    split; [lia|]. rewrite Hrp, Z.sub_diag. unfold Qdiv.
    rewrite Qmult_0_l. reflexivity.
Qed.

End OutlierReport.

Section PreprocessingRuns.
Import preprocessing.

Ltac feature_cases H :=
  cbn in H; repeat (destruct H as [<- | H]); try contradiction.

Lemma apply_log_transform_skips_absent_witness :
  apply_log_transform (fun x => x) demo.pre_cfg demo.raw = Ok demo.raw.
Proof.
  apply apply_log_transform_skips_absent.
  intros feature Hin. feature_cases Hin; reflexivity.
Defined.

Lemma apply_log_transform_effect_witness :
  exists out,
    apply_log_transform (fun x => x + 1)%Q demo.pre_cfg demo.flows = Ok out /\
    index out = index demo.flows /\
    get_col out "bytes_in_log"
    = Ok (NumCol (map (fun x => x + 1)%Q [100; 2000; 30; 4]%Q)) /\
    has_column out "bytes_in" = false /\
    get_col out "duration" = get_col demo.flows "duration".
Proof.
  destruct (apply_log_transform_effect (fun x => x + 1)%Q demo.pre_cfg
              demo.flows)
    as (out & Hout & Hidx & Hdone & Hrest).
  - intros f g Hf Hg. feature_cases Hf; feature_cases Hg; discriminate.
  - intros f c Hf Hc. feature_cases Hf; cbn in Hc; try discriminate;
      injection Hc as <-; eexists; reflexivity.
  - exists out. split; [exact Hout|]. split; [exact Hidx|].
    destruct (Hdone "bytes_in"%string [100; 2000; 30; 4]%Q) as [Hlog Hgone].
    + cbn. tauto.
    + reflexivity.
    + split; [exact Hlog|]. split; [exact Hgone|].
      apply Hrest.
      * intros Hin. cbn in Hin. intuition discriminate.
      * intros g Hg _. feature_cases Hg; discriminate.
Defined.

Lemma flows_with_outlier_well_formed : well_formed demo.flows_with_outlier.
Proof. unfold well_formed. repeat constructor. Qed.

Lemma detect_feature_outliers_keeps_shape_witness :
  match detect_feature_outliers demo.flows_with_outlier 3 with
  | Ok (cleaned, _) =>
      well_formed cleaned /\
      column_names cleaned = column_names demo.flows_with_outlier
  | Raise _ => False
  end.
Proof.
  destruct (detect_feature_outliers demo.flows_with_outlier 3)
    as [[cleaned stats]|e] eqn:E.
  - apply (detect_feature_outliers_keeps_shape _ _ _ _
             flows_with_outlier_well_formed E).
  - vm_compute in E. discriminate.
Defined.

Lemma detect_feature_outliers_keeps_a_row_witness :
  exists cleaned stats,
    detect_feature_outliers demo.flows_with_outlier 3 = Ok (cleaned, stats) /\
    len cleaned <> 0%nat /\ (removal_percentage stats < 100)%Q.
Proof.
  apply (detect_feature_outliers_keeps_a_row demo.flows_with_outlier 3
           flows_with_outlier_well_formed).
  discriminate.
Defined.

Lemma detect_feature_outliers_report_witness :
  match detect_feature_outliers demo.flows_with_outlier (5 # 2) with
  | Ok (cleaned, stats) =>
      total_outliers stats = 0 /\ (removal_percentage stats == 0)%Q
  | Raise _ => False
  end.
Proof.
  destruct (detect_feature_outliers demo.flows_with_outlier (5 # 2))
    as [[cleaned stats]|e] eqn:E.
  - apply (detect_feature_outliers_report _ _ _ _ E). reflexivity.
  - vm_compute in E. discriminate.
Defined.

(** Below the threshold of 3 an outlier is counted for its column and not
    removed, and the total stays 0. *)
Example detect_feature_outliers_counts_without_removing :
  rmap (fun r => (len (fst r), total_outliers (snd r),
                  map (fun e => (fst e, count (snd e)))
                    (outliers_by_feature (snd r))))
    (detect_feature_outliers demo.flows_with_outlier (5 # 2))
  = Ok (6%nat, 0, [("bytes_in"%string, 1); ("duration"%string, 0)]).
Proof. vm_compute. reflexivity. Qed.

End PreprocessingRuns.

(** ** tune_contamination_parameter: the score that is kept *)

Section ContaminationHighest.
Import preprocessing.
Context {CV : CrossVal}.
Variables (cfg : Config) (df : DataFrame).

(** X18: [tune_contamination_parameter] reports, as best_score, a score
    that no sampled candidate exceeds and that is at least the initial 0.0.
    When it is above 0.0 the returned contamination is a sampled candidate
    with exactly that score; when it is 0.0 the returned contamination is
    the range minimum. The reported best_contamination is the returned
    value. *)
Theorem tune_contamination_parameter_highest :
  let values :=
    np_linspace (fst (contamination_range cfg))
      (snd (contamination_range cfg)) 10 in
  let best := fst (tune_contamination_parameter cfg df) in
  let stats := snd (tune_contamination_parameter cfg df) in
  (forall c m, In c values -> score_candidate cfg df c = Ok m ->
               (m <= best_score stats)%Q) /\
  (0 <= best_score stats)%Q /\
  best_contamination stats = best /\
  ((0 < best_score stats)%Q ->
   In best values /\ score_candidate cfg df best = Ok (best_score stats)) /\
  ((best_score stats <= 0)%Q ->
   best = fst (contamination_range cfg) /\ best_score stats = 0%Q).
Proof.
  intros values best stats.
  destruct (tune_result_state cfg df) as (sc & Hstate & Hbc & _).
  fold values best stats in Hstate, Hbc. unfold tune_over in Hstate.
  pose proof (tune_fold_highest cfg df values
                (fst (contamination_range cfg), 0%Q, [])) as Hhigh.
  pose proof (tune_fold_score_grows cfg df values
                (fst (contamination_range cfg), 0%Q, [])) as Hgrow.
  pose proof (tune_fold_invariant cfg df (fst (contamination_range cfg))
                values values (fst (contamination_range cfg), 0%Q, [])
                (fun _ H => H) (or_introl (conj eq_refl eq_refl))) as Hinv.
  cbv zeta in Hinv. rewrite Hstate in Hhigh, Hgrow, Hinv.
  cbn [fst snd] in Hhigh, Hgrow, Hinv.
  split; [exact Hhigh|]. split; [exact Hgrow|]. split; [exact Hbc|]. split.
  - intros Hpos. destruct Hinv as [[_ H0]|(H1 & H2 & _)].
    + rewrite H0 in Hpos. exfalso. revert Hpos. apply Qlt_irrefl.
    + split; assumption.
  - intros Hle. destruct Hinv as [[H1 H0]|(_ & _ & Hpos)].
    + split; assumption.
    + exfalso. apply (Qlt_not_le _ _ Hpos Hle).
Qed.

End ContaminationHighest.

(** ** normalize_features *)

Section NormalizeProofs.
Import preprocessing.
Context {SC : Scalers}.

Lemma map_snd_combine {A B : Type} (a : list A) (b : list B) :
  length a = length b -> map snd (combine a b) = b.
Proof.
  revert b. induction a as [|x a IH]; intros [|y b] H; cbn in *;
    try reflexivity; try discriminate.
  f_equal. apply IH. lia.
Qed.

(** The frame built from a matrix has the labels it was given and one value
    per row label in every column. *)
Lemma frame_of_matrix_ok (idx : list Z) (names : list string)
    (values : list (list Q)) (f : DataFrame) :
  frame_of_matrix idx names values = Ok f ->
  index f = idx /\ column_names f = names /\ well_formed f /\
  Forall (fun kc => exists v, snd kc = NumCol v) (columns f).
Proof.
  unfold frame_of_matrix.
  destruct (Nat.eqb (length values) (length idx)) eqn:El; cbn [andb];
    [|discriminate].
  destruct (forallb _ values); [|discriminate].
  apply Nat.eqb_eq in El. intros H. injection H as <-.
  cbn [index columns]. split; [reflexivity|]. split; [|split].
  - unfold column_names. cbn [columns]. rewrite map_map. cbn [fst].
    apply map_snd_combine. apply length_seq.
  - unfold well_formed, len. cbn [index columns].
    apply Forall_forall. intros kc Hin. apply in_map_iff in Hin.
    destruct Hin as (jn & <- & _). cbn [snd column_length].
    rewrite length_map. exact El.
  - apply Forall_forall. intros kc Hin. apply in_map_iff in Hin.
    destruct Hin as (jn & <- & _). eexists. reflexivity.
Qed.

Lemma fit_with_ok (class_name : string)
    (fit : DataFrame -> Result (ScalerObj * list (list Q)))
    (df ndf : DataFrame) (self self' : FlowPreprocessor)
    (scaler : StoredScaler) :
  fit_with class_name fit df self = (self', Ok (ndf, scaler)) ->
  exists obj values,
    fit df = Ok (obj, values) /\
    frame_of_matrix (index df) (column_names df) values = Ok ndf /\
    scaler = Fitted class_name obj /\
    self' = mkFlowPreprocessor (Some scaler) (_feature_columns self).
Proof.
  unfold fit_with. destruct (fit df) as [[obj values]|e] eqn:Ef; [|discriminate].
  destruct (frame_of_matrix (index df) (column_names df) values) as [f|e]
    eqn:Em; [|discriminate].
  intros H. injection H as <- <- <-. exists obj, values.
  repeat split; [exact Em].
Qed.

Lemma fit_with_raise (class_name : string)
    (fit : DataFrame -> Result (ScalerObj * list (list Q)))
    (df : DataFrame) (self self' : FlowPreprocessor) (e : PyExc) :
  fit_with class_name fit df self = (self', Raise e) ->
  _feature_columns self' = _feature_columns self /\
  exists s, _scaler self' = Some s /\ scaler_class s = class_name.
Proof.
  unfold fit_with. destruct (fit df) as [[obj values]|e0].
  - destruct (frame_of_matrix (index df) (column_names df) values) as [f|e1];
      [discriminate|].
    intros H. injection H as <- _. split; [reflexivity|].
    eexists. split; reflexivity.
  - intros H. injection H as <- _. split; [reflexivity|].
    eexists. split; reflexivity.
Qed.

(** What a successful [normalize_features] has done. *)
Lemma normalize_features_ok (cfg : PreprocessingConfig) (df ndf : DataFrame)
    (self self' : FlowPreprocessor) (scaler : StoredScaler) :
  normalize_features cfg df self = (self', Ok (ndf, scaler)) ->
  index ndf = index df /\ column_names ndf = column_names df /\
  well_formed ndf /\
  Forall (fun kc => exists v, snd kc = NumCol v) (columns ndf) /\
  self' = mkFlowPreprocessor (Some scaler) (_feature_columns self) /\
  exists obj,
    (feature_normalization_method cfg = "standard"%string /\
     scaler = Fitted "StandardScaler" obj) \/
    (feature_normalization_method cfg = "robust"%string /\
     scaler = Fitted "RobustScaler" obj).
Proof.
  unfold normalize_features.
  destruct (String.eqb (feature_normalization_method cfg) "standard") eqn:Es;
    [|destruct (String.eqb (feature_normalization_method cfg) "robust") eqn:Er];
    [| |discriminate]; intros H; apply fit_with_ok in H;
    destruct H as (obj & values & _ & Hf & Hs & Hself);
    apply frame_of_matrix_ok in Hf; destruct Hf as (H1 & H2 & H3 & H4);
    (split; [exact H1|]); (split; [exact H2|]); (split; [exact H3|]);
    (split; [exact H4|]); (split; [exact Hself|]); exists obj.
  - left. apply String.eqb_eq in Es. auto.
  - right. apply String.eqb_eq in Er. auto.
Qed.

(** X19: when [normalize_features] returns, the normalized frame has the
    row labels and the column names of the input, one number per row label
    in every column, and the returned scaler is the fitted scaler of the
    configured class (StandardScaler for "standard", RobustScaler for
    "robust"), which is also what [self._scaler] now holds;
    [self._feature_columns] is not touched. *)
Theorem normalize_features_result (cfg : PreprocessingConfig)
    (df ndf : DataFrame) (self self' : FlowPreprocessor)
    (scaler : StoredScaler) :
  normalize_features cfg df self = (self', Ok (ndf, scaler)) ->
  index ndf = index df /\ column_names ndf = column_names df /\
  well_formed ndf /\
  (forall name, In name (column_names df) -> numeric_column ndf name) /\
  _scaler self' = Some scaler /\
  _feature_columns self' = _feature_columns self /\
  exists obj,
    (feature_normalization_method cfg = "standard"%string /\
     scaler = Fitted "StandardScaler" obj) \/
    (feature_normalization_method cfg = "robust"%string /\
     scaler = Fitted "RobustScaler" obj).
Proof.
  intros H. apply normalize_features_ok in H.
  destruct H as (H1 & H2 & H3 & H4 & -> & H5).
  split; [exact H1|]. split; [exact H2|]. split; [exact H3|].
  split; [|split; [reflexivity|split; [reflexivity|exact H5]]].
  intros name Hin. rewrite <- H2 in Hin.
  assert (Hc : has_column ndf name = true).
  { unfold has_column. apply existsb_exists. exists name.
    split; [exact Hin | apply String.eqb_refl]. }
  apply has_column_assoc in Hc. destruct Hc as [c Hc].
  rewrite Forall_forall in H4.
  destruct (H4 (name, c)) as [v Hv].
  - clear - Hc. induction (columns ndf) as [|[k w] l IH]; [discriminate|].
    cbn [assoc] in Hc. destruct (String.eqb name k) eqn:E.
    + apply String.eqb_eq in E. injection Hc as ->. left. congruence.
    + right. apply IH. exact Hc.
  - cbn [snd] in Hv. subst c. exists v. exact Hc.
Qed.

(** X20: when [normalize_features] raises, either the configured method is
    neither "standard" nor "robust", the error is the [ValueError] that
    names the method and no attribute was assigned; or the method is known
    and [self._scaler] has already been replaced by a scaler of the
    configured class, whatever it held before. *)
Theorem normalize_features_failure (cfg : PreprocessingConfig)
    (df : DataFrame) (self self' : FlowPreprocessor) (e : PyExc) :
  normalize_features cfg df self = (self', Raise e) ->
  (feature_normalization_method cfg <> "standard"%string /\
   feature_normalization_method cfg <> "robust"%string /\
   self' = self /\
   e = ValueError ("Unknown normalization method: "
                     ++ feature_normalization_method cfg)) \/
  (_feature_columns self' = _feature_columns self /\
   exists s,
     _scaler self' = Some s /\
     (feature_normalization_method cfg = "standard"%string /\
      scaler_class s = "StandardScaler"%string \/
      feature_normalization_method cfg = "robust"%string /\
      scaler_class s = "RobustScaler"%string)).
Proof.
  unfold normalize_features.
  destruct (String.eqb (feature_normalization_method cfg) "standard") eqn:Es;
    [|destruct (String.eqb (feature_normalization_method cfg) "robust") eqn:Er].
  - intros H. apply fit_with_raise in H. destruct H as (Hf & s & Hs & Hc).
    right. split; [exact Hf|]. exists s. split; [exact Hs|]. left.
    apply String.eqb_eq in Es. auto.
  - intros H. apply fit_with_raise in H. destruct H as (Hf & s & Hs & Hc).
    right. split; [exact Hf|]. exists s. split; [exact Hs|]. right.
    apply String.eqb_eq in Er. auto.
  - unfold mlift. intros H. injection H as <- <-. left.
    apply String.eqb_neq in Es. apply String.eqb_neq in Er. auto.
Qed.

End NormalizeProofs.

(** ** preprocess_pipeline *)

Section PipelineFrames.
Import preprocessing.

Lemma well_formed_get_col (df : DataFrame) (name : string) (c : Column) :
  well_formed df -> get_col df name = Ok c -> column_length c = len df.
Proof.
  unfold well_formed, get_col. intros Hwf H.
  destruct (assoc name (columns df)) as [c'|] eqn:E; [|discriminate].
  injection H as ->. apply assoc_In in E.
  rewrite Forall_forall in Hwf. apply (Hwf (name, c) E).
Qed.

Lemma well_formed_set_col (df : DataFrame) (name : string) (c : Column) :
  well_formed df -> column_length c = len df -> well_formed (set_col df name c).
Proof.
  unfold well_formed, set_col, len. cbn [index columns]. intros Hwf Hc.
  apply Forall_forall. intros [k w] Hin. cbn [snd].
  apply assoc_set_In in Hin. destruct Hin as [[_ ->]|Hin]; [exact Hc|].
  rewrite Forall_forall in Hwf. apply (Hwf (k, w) Hin).
Qed.

Lemma well_formed_drop_col (df : DataFrame) (name : string) :
  well_formed df -> well_formed (drop_col df name).
Proof.
  unfold well_formed, drop_col, len. cbn [index columns]. intros Hwf.
  apply Forall_forall. intros kc Hin. apply filter_In in Hin.
  rewrite Forall_forall in Hwf. apply Hwf. apply Hin.
Qed.

Lemma series_abs_length (dtype : Dtype) (c c' : Column) :
  series_abs dtype c = Ok c' -> column_length c' = column_length c.
Proof.
  destruct c as [v|[|s v]]; cbn; intros H; try discriminate;
    injection H as <-; cbn; [apply length_map | reflexivity].
Qed.

Lemma series_abs_empty (dtype : Dtype) (c : Column) :
  column_length c = 0%nat -> exists c', series_abs dtype c = Ok c'.
Proof.
  destruct c as [v|[|s v]]; cbn; intros H; try discriminate;
    eexists; reflexivity.
Qed.

Lemma encode_protocol_length (c : Column) :
  column_length (encode_protocol c) = column_length c.
Proof. destruct c; cbn; apply length_map. Qed.

(** What a successful [prepare_features] has returned. *)
Lemma prepare_features_ok (dtypes : string -> Dtype)
    (df features_df : DataFrame) (names : list string) :
  prepare_features dtypes df = Ok (features_df, names) ->
  names = feature_columns /\
  index features_df = index df /\
  column_names features_df = feature_columns /\
  (well_formed df -> well_formed features_df).
Proof.
  intros H.
  assert (Hall : forall col, In col feature_columns ->
                             exists c, get_col df col = Ok c).
  { intros col Hin. apply has_column_get_col.
    destruct (has_column df col) eqn:E; [reflexivity|]. exfalso.
    assert (Hne : filter (fun col => negb (has_column df col)) feature_columns
                  <> [])
      by (apply absent_column_filter; exists col; auto).
    unfold prepare_features in H.
    destruct (filter (fun col => negb (has_column df col)) feature_columns);
      [congruence | discriminate]. }
  destruct (Hall "bytes_in"%string) as [bi Hbi]; [cbn; tauto|].
  destruct (Hall "bytes_out"%string) as [bo Hbo]; [cbn; tauto|].
  destruct (Hall "packets_in"%string) as [pi Hpi]; [cbn; tauto|].
  destruct (Hall "packets_out"%string) as [po Hpo]; [cbn; tauto|].
  destruct (Hall "duration"%string) as [du Hdu]; [cbn; tauto|].
  destruct (Hall "src_port"%string) as [sp Hsp]; [cbn; tauto|].
  destruct (Hall "dst_port"%string) as [dp Hdp]; [cbn; tauto|].
  destruct (Hall "protocol"%string) as [pr Hpr]; [cbn; tauto|].
  rewrite (prepare_features_present dtypes df bi bo pi po du sp dp pr) in H
    by assumption.
  destruct (series_abs (dtypes "src_port"%string) sp) as [sp'|e] eqn:Esp;
    [|discriminate].
  destruct (series_abs (dtypes "dst_port"%string) dp) as [dp'|e] eqn:Edp;
    [|discriminate].
  cbn [rbind] in H. injection H as <- <-.
  split; [reflexivity|]. split; [reflexivity|]. split; [reflexivity|].
  intros Hwf. unfold well_formed, len. cbn [index columns snd].
  apply series_abs_length in Esp, Edp.
  pose proof (well_formed_get_col df _ _ Hwf Hbi).
  pose proof (well_formed_get_col df _ _ Hwf Hbo).
  pose proof (well_formed_get_col df _ _ Hwf Hpi).
  pose proof (well_formed_get_col df _ _ Hwf Hpo).
  pose proof (well_formed_get_col df _ _ Hwf Hdu).
  pose proof (well_formed_get_col df _ _ Hwf Hsp).
  pose proof (well_formed_get_col df _ _ Hwf Hdp).
  pose proof (well_formed_get_col df _ _ Hwf Hpr).
  unfold len in *.
  repeat (apply Forall_cons; [cbn [snd]; try rewrite encode_protocol_length;
                              congruence|]).
  apply Forall_nil.
Qed.

(** Without rows, and with the eight columns, [prepare_features] returns. *)
Lemma prepare_features_zero_rows (dtypes : string -> Dtype) (df : DataFrame) :
  well_formed df -> len df = 0%nat ->
  (forall col, In col feature_columns -> has_column df col = true) ->
  exists features_df,
    prepare_features dtypes df = Ok (features_df, feature_columns) /\
    well_formed features_df /\ len features_df = 0%nat.
Proof.
  intros Hwf Hlen Hall.
  assert (Hget : forall col, In col feature_columns ->
                             exists c, get_col df col = Ok c)
    by (intros col Hin; apply has_column_get_col; apply Hall; exact Hin).
  destruct (Hget "bytes_in"%string) as [bi Hbi]; [cbn; tauto|].
  destruct (Hget "bytes_out"%string) as [bo Hbo]; [cbn; tauto|].
  destruct (Hget "packets_in"%string) as [pi Hpi]; [cbn; tauto|].
  destruct (Hget "packets_out"%string) as [po Hpo]; [cbn; tauto|].
  destruct (Hget "duration"%string) as [du Hdu]; [cbn; tauto|].
  destruct (Hget "src_port"%string) as [sp Hsp]; [cbn; tauto|].
  destruct (Hget "dst_port"%string) as [dp Hdp]; [cbn; tauto|].
  destruct (Hget "protocol"%string) as [pr Hpr]; [cbn; tauto|].
  destruct (series_abs_empty (dtypes "src_port"%string) sp) as [sp' Esp];
    [rewrite (well_formed_get_col df _ _ Hwf Hsp); exact Hlen|].
  destruct (series_abs_empty (dtypes "dst_port"%string) dp) as [dp' Edp];
    [rewrite (well_formed_get_col df _ _ Hwf Hdp); exact Hlen|].
  pose proof (prepare_features_present dtypes df bi bo pi po du sp dp pr
                Hbi Hbo Hpi Hpo Hdu Hsp Hdp Hpr) as Hp.
  rewrite Esp, Edp in Hp. cbn [rbind] in Hp.
  eexists. split; [exact Hp|].
  destruct (prepare_features_ok _ _ _ _ Hp) as (_ & Hidx & _ & Hwf').
  split; [exact (Hwf' Hwf)|]. unfold len in *. rewrite Hidx. exact Hlen.
Qed.

Section LogFrames.
Variable log1p : Q -> Q.

Lemma series_log1p_length (c c' : Column) :
  series_log1p log1p c = Ok c' -> column_length c' = column_length c.
Proof.
  destruct c as [v|[|s v]]; cbn; intros H; try discriminate;
    injection H as <-; cbn; [apply length_map | reflexivity].
Qed.

Lemma series_log1p_empty (c : Column) :
  column_length c = 0%nat -> exists c', series_log1p log1p c = Ok c'.
Proof.
  destruct c as [v|[|s v]]; cbn; intros H; try discriminate;
    eexists; reflexivity.
Qed.

(** One transformed feature leaves the row labels alone and the frame a
    frame. *)
Lemma log_step_frame (df df1 : DataFrame) (f : string) :
  log_step log1p df f = Ok df1 ->
  index df1 = index df /\ (well_formed df -> well_formed df1).
Proof.
  unfold log_step. destruct (has_column df f).
  - destruct (get_col df f) as [c|e] eqn:Ec; [|discriminate]. cbn [rbind].
    destruct (series_log1p log1p c) as [c'|e] eqn:El; [|discriminate].
    cbn [rbind]. intros H. injection H as <-. split; [reflexivity|].
    intros Hwf. apply well_formed_drop_col. apply well_formed_set_col;
      [exact Hwf|].
    rewrite (series_log1p_length _ _ El).
    apply (well_formed_get_col df f c Hwf Ec).
  - intros H. injection H as <-. auto.
Qed.

Lemma log_loop_frame (features : list string) (df out : DataFrame) :
  log_loop log1p features df = Ok out ->
  index out = index df /\ (well_formed df -> well_formed out).
Proof.
  revert df. induction features as [|f features IH]; intros df;
    cbn [log_loop].
  - intros H. injection H as <-. auto.
  - destruct (log_step log1p df f) as [df1|e] eqn:E; [|discriminate].
    cbn [rbind]. intros H. apply IH in H. apply log_step_frame in E.
    destruct H as [H1 H2]. destruct E as [E1 E2].
    split; [congruence | auto].
Qed.

(** Without rows the transformation returns, whatever the columns hold. *)
Lemma log_loop_zero_rows (features : list string) (df : DataFrame) :
  well_formed df -> len df = 0%nat ->
  exists out, log_loop log1p features df = Ok out /\ len out = 0%nat.
Proof.
  revert df. induction features as [|f features IH]; intros df Hwf Hlen;
    cbn [log_loop].
  - exists df. auto.
  - assert (Hs : exists df1, log_step log1p df f = Ok df1).
    { unfold log_step. destruct (has_column df f) eqn:Eh;
        [|eexists; reflexivity].
      apply get_col_present in Eh. destruct Eh as [c Hc]. rewrite Hc.
      cbn [rbind].
      destruct (series_log1p_empty c) as [c' Hc'];
        [rewrite (well_formed_get_col df f c Hwf Hc); exact Hlen|].
      rewrite Hc'. eexists. reflexivity. }
    destruct Hs as [df1 Hs]. rewrite Hs. cbn [rbind].
    destruct (log_step_frame _ _ _ Hs) as [Hidx Hwf1].
    apply IH; [exact (Hwf1 Hwf)|]. unfold len in *. rewrite Hidx. exact Hlen.
Qed.

End LogFrames.

End PipelineFrames.

Section PipelineProofs.
Import preprocessing.
Context {SC : Scalers} {CV : CrossVal}.
Variable log1p : Q -> Q.
Variable dtypes : string -> Dtype.

(** The steps a successful run of the pipeline went through. *)
Lemma preprocess_pipeline_ok (cfg : PreprocessingConfig) (df out : DataFrame)
    (self self' : FlowPreprocessor) (stats : PipelineStats) :
  preprocess_pipeline log1p dtypes cfg df self = (self', Ok (out, stats)) ->
  exists features_df log_df clean_df outlier_stats scaler,
    prepare_features dtypes df = Ok (features_df, feature_columns) /\
    apply_log_transform log1p cfg features_df = Ok log_df /\
    detect_feature_outliers log_df 3 = Ok (clean_df, outlier_stats) /\
    normalize_features cfg clean_df
      (mkFlowPreprocessor (_scaler self) (Some feature_columns))
    = (self', Ok (out, scaler)) /\
    stats = pipeline_stats cfg df features_df log_df outlier_stats out scaler.
Proof.
  unfold preprocess_pipeline, mbind, prepare_features_method, mlift.
  destruct (prepare_features dtypes df) as [[features_df names]|e] eqn:Ep;
    [|discriminate].
  destruct (prepare_features_ok _ _ _ _ Ep) as (-> & _).
  destruct (apply_log_transform log1p cfg features_df) as [log_df|e] eqn:El;
    [|discriminate].
  destruct (detect_feature_outliers log_df 3) as [[clean_df outlier_stats]|e]
    eqn:Ed; [|discriminate].
  destruct (normalize_features cfg clean_df
              (mkFlowPreprocessor (_scaler self) (Some feature_columns)))
    as [self1 [[ndf scaler]|e]] eqn:En; [|discriminate].
  intros H. injection H as <- <- <-.
  exists features_df, log_df, clean_df, outlier_stats, scaler.
  repeat split; assumption.
Qed.

Lemma pipeline_stats_fields (cfg : PreprocessingConfig)
    (df features_df log_df : DataFrame) (outlier_stats : OutlierStats)
    (normalized_df : DataFrame) (scaler : StoredScaler) :
  let stats :=
    pipeline_stats cfg df features_df log_df outlier_stats normalized_df
      scaler in
  initial_rows stats = len df /\
  feature_count stats = length (column_names features_df) /\
  prepared_columns stats = column_names features_df /\
  log_features stats = log_transform_features cfg /\
  log_final_features stats = column_names log_df /\
  outlier_detection stats = outlier_stats /\
  normalization_method stats = feature_normalization_method cfg /\
  scaler_type stats = scaler_class scaler /\
  final_rows stats = len normalized_df /\
  final_features stats = length (column_names normalized_df) /\
  (optimal_contamination stats, contamination_tuning stats)
  = select_contamination cfg normalized_df.
Proof.
  unfold pipeline_stats.
  destruct (select_contamination cfg normalized_df) as [contamination report].
  cbn. repeat split; reflexivity.
Qed.

(** The tuned contamination lies within the configured range. *)
Lemma tune_contamination_parameter_in_range (cfg : Config) (df : DataFrame) :
  (fst (contamination_range cfg) <= snd (contamination_range cfg))%Q ->
  (fst (contamination_range cfg) <= fst (tune_contamination_parameter cfg df)
   <= snd (contamination_range cfg))%Q.
Proof.
  intros Hr. rewrite tune_result_fold. unfold tune_over.
  set (lo := fst (contamination_range cfg)) in *.
  set (hi := snd (contamination_range cfg)) in *.
  pose proof (tune_fold_invariant cfg df lo (np_linspace lo hi 10)
                (np_linspace lo hi 10) (lo, 0%Q, [])
                (fun _ H => H) (or_introl (conj eq_refl eq_refl))) as Hinv.
  cbv zeta in Hinv. destruct Hinv as [[-> _]|(Hin & _)].
  - split; [apply Qle_refl | exact Hr].
  - apply (np_linspace_10_range lo hi _ Hr Hin).
Qed.

Lemma select_contamination_cases (cfg : PreprocessingConfig)
    (normalized_df : DataFrame) :
  let lo := fst (contamination_range (tuning cfg)) in
  let hi := snd (contamination_range (tuning cfg)) in
  let n := Z.of_nat (len normalized_df) in
  (contamination_auto_tune cfg = true /\ min_samples_for_training cfg <= n /\
   select_contamination cfg normalized_df
   = (fst (tune_contamination_parameter (tuning cfg) normalized_df),
      Tuned (snd (tune_contamination_parameter (tuning cfg) normalized_df)))) \/
  (contamination_auto_tune cfg = true /\ n < min_samples_for_training cfg /\
   select_contamination cfg normalized_df
   = (((lo + hi) / 2)%Q,
      NotTuned false ((lo + hi) / 2)%Q "insufficient_samples")) \/
  (contamination_auto_tune cfg = false /\ n < min_samples_for_training cfg /\
   select_contamination cfg normalized_df
   = (((lo + hi) / 2)%Q,
      NotTuned false ((lo + hi) / 2)%Q "insufficient_samples")) \/
  (contamination_auto_tune cfg = false /\ min_samples_for_training cfg <= n /\
   select_contamination cfg normalized_df
   = (((lo + hi) / 2)%Q,
      NotTuned false ((lo + hi) / 2)%Q "auto_tune_disabled")).
Proof.
  intros lo hi n. unfold select_contamination. fold n.
  subst lo hi. destruct (contamination_range (tuning cfg)) as [lo hi].
  cbn [fst snd].
  destruct (contamination_auto_tune cfg); cbn [andb];
    destruct (Z.leb_spec (min_samples_for_training cfg) n) as [Hle|Hlt];
    destruct (Z.ltb_spec n (min_samples_for_training cfg)) as [Hlt'|Hle'];
    try lia.
  - left. split; [reflexivity|]. split; [exact Hle|].
    destruct (tune_contamination_parameter (tuning cfg) normalized_df).
    reflexivity.
  - right. left. auto.
  - right. right. right. auto.
  - right. right. left. auto.
Qed.

(** X21: when one of the eight required columns is absent the pipeline
    stops at its first step: it raises the missing-columns [ValueError]
    naming the absent columns, and has assigned no attribute. *)
Theorem preprocess_pipeline_missing_feature (cfg : PreprocessingConfig)
    (df : DataFrame) (self : FlowPreprocessor) :
  (exists col, In col feature_columns /\ has_column df col = false) ->
  preprocess_pipeline log1p dtypes cfg df self
  = (self,
     Raise (SchemaError
              (filter (fun col => negb (has_column df col)) feature_columns))).
Proof.
  intros H. apply absent_column_filter in H.
  unfold preprocess_pipeline, mbind, prepare_features_method, prepare_features.
  destruct (filter (fun col => negb (has_column df col)) feature_columns)
    as [|col rest]; [congruence|].
  reflexivity.
Qed.

(** X22: on a frame with one value per row label in every column, a run of
    the pipeline that returns has kept at least one row and no more rows
    than it was given; the frame it returns has one number per row label in
    every column, under the column names left by the log transformation;
    the statistics agree with it: initial_rows and final_rows are the row
    counts of the input and of the output, total_outliers is their
    difference, final_features is the number of output columns and
    feature_count is 8. The preprocessor then holds the eight feature names
    and the fitted scaler whose class name is reported as scaler_type. *)
Theorem preprocess_pipeline_result (cfg : PreprocessingConfig)
    (df out : DataFrame) (self self' : FlowPreprocessor)
    (stats : PipelineStats) :
  well_formed df ->
  preprocess_pipeline log1p dtypes cfg df self = (self', Ok (out, stats)) ->
  initial_rows stats = len df /\ final_rows stats = len out /\
  (0 < len out <= len df)%nat /\
  total_outliers (outlier_detection stats)
  = Z.of_nat (len df) - Z.of_nat (len out) /\
  well_formed out /\
  column_names out = log_final_features stats /\
  (forall name, In name (column_names out) -> numeric_column out name) /\
  final_features stats = length (column_names out) /\
  feature_count stats = 8%nat /\ prepared_columns stats = feature_columns /\
  _feature_columns self' = Some feature_columns /\
  exists scaler,
    _scaler self' = Some scaler /\ scaler_type stats = scaler_class scaler /\
    exists obj, scaler = Fitted (scaler_class scaler) obj.
Proof.
  intros Hwf H. apply preprocess_pipeline_ok in H.
  destruct H as (features_df & log_df & clean_df & ostats & scaler
                 & Hp & Hl & Hd & Hn & ->).
  destruct (prepare_features_ok _ _ _ _ Hp) as (_ & Hpi & Hpn & Hpw).
  destruct (log_loop_frame log1p _ _ _ Hl) as (Hli & Hlw).
  specialize (Hlw (Hpw Hwf)).
  destruct (detect_feature_outliers_inv _ _ _ _ Hd)
    as (Hne & Hc & Htot & _ & _).
  destruct (outlier_fold_invariant 3 (column_names log_df) log_df [] Hlw)
    as (Hcw & Hcn & Hck).
  rewrite <- Hc in Hcw, Hcn, Hck.
  pose proof (outlier_fold_len 3 (column_names log_df) (log_df, [])) as Hle.
  rewrite <- Hc in Hle. cbn [fst] in Hle.
  destruct (normalize_features_ok _ _ _ _ _ _ Hn)
    as (Hni & Hnn & Hnw & Hnum & -> & obj & Hcls).
  destruct (pipeline_stats_fields cfg df features_df log_df ostats out scaler)
    as (S1 & S2 & S3 & S4 & S5 & S6 & S7 & S8 & S9 & S10 & S11).
  assert (Hlog : len log_df = len df)
    by (unfold len; rewrite Hli, Hpi; reflexivity).
  assert (Hout : len out = len clean_df) by (unfold len; rewrite Hni; reflexivity).
  split; [exact S1|]. split; [exact S9|]. split.
  { rewrite Hout, <- Hlog. specialize (Hck Hne). lia. }
  split. { rewrite S6, Htot, Hout, Hlog. reflexivity. }
  split; [exact Hnw|].
  split. { rewrite S5, Hnn, Hcn. reflexivity. }
  split.
  { intros name Hin.
    assert (Hh : has_column out name = true).
    { unfold has_column. apply existsb_exists. exists name.
      split; [exact Hin | apply String.eqb_refl]. }
    apply has_column_assoc in Hh. destruct Hh as [c Hh].
    rewrite Forall_forall in Hnum.
    destruct (Hnum (name, c) (assoc_In _ _ _ Hh)) as [v Hv].
    cbn [snd] in Hv. subst c. exists v. exact Hh. }
  split; [exact S10|].
  split. { rewrite S2, Hpn. reflexivity. }
  split. { rewrite S3. exact Hpn. }
  split; [reflexivity|].
  exists scaler. split; [reflexivity|]. split; [exact S8|].
  exists obj. destruct Hcls as [[_ ->]|[_ ->]]; reflexivity.
Qed.

(** X23: the contamination a returning run of the pipeline reports. With
    the automatic tuning configured and at least min_samples_for_training
    rows left, it is the result of [tune_contamination_parameter] on the
    normalized frame and the report holds its statistics; otherwise it is
    the midpoint of the configured range, reported with auto_tune_enabled
    False and the reason insufficient_samples when fewer rows than
    min_samples_for_training are left, auto_tune_disabled when not. For a
    range with minimum at most maximum the contamination lies within the
    range either way. *)
Theorem preprocess_pipeline_contamination (cfg : PreprocessingConfig)
    (df out : DataFrame) (self self' : FlowPreprocessor)
    (stats : PipelineStats) :
  let lo := fst (contamination_range (tuning cfg)) in
  let hi := snd (contamination_range (tuning cfg)) in
  let n := Z.of_nat (len out) in
  preprocess_pipeline log1p dtypes cfg df self = (self', Ok (out, stats)) ->
  (contamination_auto_tune cfg = true -> min_samples_for_training cfg <= n ->
   optimal_contamination stats
   = fst (tune_contamination_parameter (tuning cfg) out) /\
   contamination_tuning stats
   = Tuned (snd (tune_contamination_parameter (tuning cfg) out))) /\
  (n < min_samples_for_training cfg ->
   optimal_contamination stats = ((lo + hi) / 2)%Q /\
   contamination_tuning stats
   = NotTuned false ((lo + hi) / 2)%Q "insufficient_samples") /\
  (contamination_auto_tune cfg = false -> min_samples_for_training cfg <= n ->
   optimal_contamination stats = ((lo + hi) / 2)%Q /\
   contamination_tuning stats
   = NotTuned false ((lo + hi) / 2)%Q "auto_tune_disabled") /\
  ((lo <= hi)%Q -> (lo <= optimal_contamination stats <= hi)%Q).
Proof.
  intros lo hi n H. apply preprocess_pipeline_ok in H.
  destruct H as (features_df & log_df & clean_df & ostats & scaler
                 & _ & _ & _ & _ & ->).
  destruct (pipeline_stats_fields cfg df features_df log_df ostats out scaler)
    as (_ & _ & _ & _ & _ & _ & _ & _ & _ & _ & S).
  pose proof (tune_contamination_parameter_in_range (tuning cfg) out) as Hr.
  fold lo hi in Hr.
  destruct (select_contamination_cases cfg out)
    as [(Ha & Hm & E)|[(Ha & Hm & E)|[(Ha & Hm & E)|(Ha & Hm & E)]]];
    fold lo hi n in E, Hm; rewrite E in S; injection S as S1 S2;
    rewrite S1, S2;
    (split; [intros Ha' Hm'; try lia; try congruence; auto|]);
    (split; [intros Hm'; try lia; auto|]);
    (split; [intros Ha' Hm'; try lia; try congruence; auto|]);
    intros Hlh; try (apply Hr; exact Hlh);
    (split; [apply Qle_shift_div_l | apply Qle_shift_div_r]); lra.
Qed.

(** X24: a frame without rows that has the eight required columns takes the
    pipeline as far as the outlier detection, which raises
    [ZeroDivisionError]; by then the preprocessor holds the eight feature
    names, and its scaler is the one it had. *)
Theorem preprocess_pipeline_zero_rows (cfg : PreprocessingConfig)
    (df : DataFrame) (self : FlowPreprocessor) :
  well_formed df -> len df = 0%nat ->
  (forall col, In col feature_columns -> has_column df col = true) ->
  preprocess_pipeline log1p dtypes cfg df self
  = (mkFlowPreprocessor (_scaler self) (Some feature_columns),
     Raise ZeroDivisionError).
Proof.
  intros Hwf Hlen Hall.
  destruct (prepare_features_zero_rows dtypes df Hwf Hlen Hall)
    as (features_df & Hp & Hfw & Hfl).
  destruct (log_loop_zero_rows log1p (log_transform_features cfg) features_df
              Hfw Hfl) as (log_df & Hl & Hll).
  unfold preprocess_pipeline, mbind, prepare_features_method, mlift.
  rewrite Hp. unfold apply_log_transform. rewrite Hl.
  rewrite (detect_feature_outliers_zero_rows log_df 3 Hll). reflexivity.
Qed.

End PipelineProofs.

Section PipelineRuns.
Import preprocessing.

Lemma tune_contamination_parameter_highest_witness :
  (0 <= best_score
          (snd (tune_contamination_parameter (CV := demo.scoring_cross_val)
                  demo.cfg demo.flows)))%Q.
Proof.
  apply (tune_contamination_parameter_highest (CV := demo.scoring_cross_val)
           demo.cfg demo.flows).
Defined.

Lemma normalize_features_result_witness :
  match normalize_features (SC := demo.scalers) demo.pre_cfg
          demo.flows_with_outlier demo.fresh_preprocessor with
  | (self', Ok (ndf, scaler)) =>
      index ndf = index demo.flows_with_outlier /\
      column_names ndf = column_names demo.flows_with_outlier /\
      _scaler self' = Some scaler
  | (_, Raise _) => False
  end.
Proof.
  destruct (normalize_features (SC := demo.scalers) demo.pre_cfg
              demo.flows_with_outlier demo.fresh_preprocessor)
    as [self' [[ndf scaler]|e]] eqn:E.
  - destruct (normalize_features_result _ _ _ _ _ _ E)
      as (H1 & H2 & _ & _ & H5 & _).
    auto.
  - vm_compute in E. discriminate.
Defined.

Lemma normalize_features_failure_witness :
  match normalize_features (SC := demo.scalers) demo.unknown_cfg
          demo.flows_with_outlier demo.fresh_preprocessor with
  | (self', Raise e) =>
      self' = demo.fresh_preprocessor /\ exc_class e = "ValueError"%string
  | (_, Ok _) => False
  end.
Proof.
  destruct (normalize_features (SC := demo.scalers) demo.unknown_cfg
              demo.flows_with_outlier demo.fresh_preprocessor)
    as [self' [r|e]] eqn:E.
  - vm_compute in E. discriminate.
  - destruct (normalize_features_failure _ _ _ _ _ E)
      as [(_ & _ & Hs & ->)|(_ & s & _ & [[Hm _]|[Hm _]])].
    + split; [exact Hs | reflexivity].
    + discriminate Hm.
    + discriminate Hm.
Defined.

(** On the frame without rows the standard scaler's failure leaves a scaler
    of its class in [self._scaler]. *)
Example normalize_features_failure_replaces_scaler :
  let r := normalize_features (SC := demo.scalers) demo.pre_cfg
             demo.no_flows demo.fresh_preprocessor in
  option_map scaler_class (_scaler (fst r)) = Some "StandardScaler"%string /\
  is_ok (snd r) = false.
Proof. vm_compute. auto. Qed.

Lemma preprocess_pipeline_missing_feature_witness :
  preprocess_pipeline (SC := demo.scalers) (CV := demo.scoring_cross_val)
    (fun x => x) (fun _ => int64) demo.pre_cfg demo.flows_missing
    demo.fresh_preprocessor
  = (demo.fresh_preprocessor,
     Raise (ValueError
              "Missing required features: ['src_port', 'protocol']")).
Proof.
  rewrite preprocess_pipeline_missing_feature.
  - vm_compute. reflexivity.
  - exists "src_port"%string. split; [cbn; tauto | reflexivity].
Defined.

Lemma flows_well_formed : well_formed demo.flows.
Proof. unfold well_formed. repeat constructor. Qed.

Lemma preprocess_pipeline_result_witness :
  match preprocess_pipeline (SC := demo.scalers)
          (CV := demo.scoring_cross_val) (fun x => x) (fun _ => int64)
          demo.pre_cfg demo.flows
          demo.fresh_preprocessor with
  | (self', Ok (out, stats)) =>
      (0 < len out <= len demo.flows)%nat /\
      column_names out = log_final_features stats /\
      _feature_columns self' = Some feature_columns
  | (_, Raise _) => False
  end.
Proof.
  destruct (preprocess_pipeline (SC := demo.scalers)
              (CV := demo.scoring_cross_val) (fun x => x) (fun _ => int64)
              demo.pre_cfg
              demo.flows demo.fresh_preprocessor)
    as [self' [[out stats]|e]] eqn:E.
  - destruct (preprocess_pipeline_result _ _ _ _ _ _ _ _ flows_well_formed E)
      as (_ & _ & H3 & _ & _ & H6 & _ & _ & _ & _ & H11 & _).
    auto.
  - vm_compute in E. discriminate.
Defined.

Lemma preprocess_pipeline_contamination_witness :
  match preprocess_pipeline (SC := demo.scalers)
          (CV := demo.scoring_cross_val) (fun x => x) (fun _ => int64)
          demo.tuned_cfg
          demo.flows demo.fresh_preprocessor with
  | (_, Ok (_, stats)) =>
      (1 # 100 <= optimal_contamination stats <= 1 # 10)%Q
  | (_, Raise _) => False
  end.
Proof.
  destruct (preprocess_pipeline (SC := demo.scalers)
              (CV := demo.scoring_cross_val) (fun x => x) (fun _ => int64)
          demo.tuned_cfg
              demo.flows demo.fresh_preprocessor)
    as [self' [[out stats]|e]] eqn:E.
  - apply (preprocess_pipeline_contamination _ _ _ _ _ _ _ _ E).
    vm_compute. discriminate.
  - vm_compute in E. discriminate.
Defined.

Lemma preprocess_pipeline_zero_rows_witness :
  preprocess_pipeline (SC := demo.scalers) (CV := demo.scoring_cross_val)
    (fun x => x) (fun _ => int64) demo.pre_cfg demo.empty_flows
    demo.fresh_preprocessor
  = (mkFlowPreprocessor None (Some feature_columns), Raise ZeroDivisionError).
Proof.
  apply (preprocess_pipeline_zero_rows (SC := demo.scalers)
           (CV := demo.scoring_cross_val) (fun x => x) (fun _ => int64)
           demo.pre_cfg
           demo.empty_flows demo.fresh_preprocessor).
  - unfold well_formed. repeat constructor.
  - reflexivity.
  - intros col Hin. cbn in Hin.
    repeat (destruct Hin as [<-|Hin]; [reflexivity|]). contradiction.
Defined.

(** A run with the tuning: the four rows stay, the two configured features
    that are columns are replaced by their [_log] columns at the end, and
    the candidate nearest to 0.05 is selected. *)
Example preprocess_pipeline_example :
  match preprocess_pipeline (SC := demo.scalers)
          (CV := demo.scoring_cross_val) (fun x => x) (fun _ => int64)
          demo.tuned_cfg
          demo.flows demo.fresh_preprocessor with
  | (self', Ok (out, stats)) =>
      len out = 4%nat /\
      column_names out
      = ["packets_in"; "packets_out"; "duration"; "src_port"; "dst_port";
         "protocol"; "bytes_in_log"; "bytes_out_log"]%string /\
      scaler_type stats = "RobustScaler"%string /\
      (optimal_contamination stats == 1 # 20)%Q
  | (_, Raise _) => False
  end.
Proof. vm_compute. repeat split; reflexivity. Qed.

End PipelineRuns.
